(** * PyRaysum: the layer-stack model, the ray geometry, the trace
      unpacker and the receiver-function engine of [pyraysum/prs.py]

    The development embeds the Python module shallowly.

    - NumPy float arrays are lists of exact rationals ([Qc]): every float is
      a rational, and the arithmetic of the module ([+], [-], [*], [/]) is
      taken without rounding.  Division by zero, which NumPy answers with
      [inf]/[nan] and a warning (never an exception), follows [Qcdiv].
    - Exceptions are values of [exn].  A method of a mutable object returns
      an [outcome]: the object as the method leaves it, whether it returned
      or raised, because a Python exception does not roll back what was
      assigned before it.
    - Layer and trace indices are natural numbers (Python's negative,
      wrap-around indices are not modelled).
    - NumPy's index functions follow NumPy >= 1.19: [np.delete] raises on
      an index out of bounds. *)

From Stdlib Require Import QArith Qcanon ZArith Lia Ascii String.
From stdpp Require Import base numbers list strings gmap.

Local Open Scope Qc_scope.

(** ** Exceptions and results *)

Inductive exn : Type :=
  | IndexError
  | ValueError
  | TypeError
  | KeyError
  | NameError
  | Exception.

Inductive result (A : Type) : Type :=
  | Ok (a : A)
  | Err (e : exn).
Arguments Ok {A} a.
Arguments Err {A} e.

#[global] Instance result_ret : MRet result := λ A a, Ok a.
#[global] Instance result_bind : MBind result := λ A B k r,
  match r with
  | Ok a => k a
  | Err e => Err e
  end.

(** What a method call leaves behind: the receiver after a normal return, or
    the exception together with the receiver as it stands at the raise. *)
Inductive outcome (S : Type) : Type :=
  | Normal (s : S)
  | Raised (e : exn) (s : S).
Arguments Normal {S} s.
Arguments Raised {S} e s.

Definition state_of {S : Type} (o : outcome S) : S :=
  match o with
  | Normal s => s
  | Raised _ s => s
  end.

Definition obind {S : Type} (o : outcome S) (k : S → outcome S) : outcome S :=
  match o with
  | Normal s => k s
  | Raised e s => Raised e s
  end.

(** Run a fallible pure computation inside a method: on failure the receiver
    is still [s]. *)
Definition lift {S A : Type} (s : S) (r : result A) (k : A → outcome S) : outcome S :=
  match r with
  | Ok a => k a
  | Err e => Raised e s
  end.

(** ** NumPy on one-dimensional arrays *)

Definition qz (z : Z) : Qc := Qc_of_Z z.

(** [np.pi]: the double nearest to pi, 0x400921FB54442D18. *)
Definition np_pi : Qc := Q2Qc (884279719003555 # 281474976710656).

(** [np.zeros(n)] *)
Definition np_zeros (n : nat) : list Qc := replicate n 0.

(** Elementwise binary operation with NumPy's broadcasting rule for
    one-dimensional operands: equal lengths, or one operand of length 1. *)
Definition np_binop {A B C : Type} (f : A → B → C) (x : list A) (y : list B)
    : result (list C) :=
  if decide (length x = length y) then Ok (zip_with f x y)
  else match x, y with
       | [a], _ => Ok (map (f a) y)
       | _, [b] => Ok (map (λ a, f a b) x)
       | _, _ => Err ValueError
       end.

Definition np_div (x y : list Qc) : result (list Qc) := np_binop Qcdiv x y.
Definition np_mul (x y : list Qc) : result (list Qc) := np_binop Qcmult x y.

(** [arr[a:b]] *)
Definition slice {A : Type} (a b : nat) (l : list A) : list A :=
  take (b - a) (drop a l).

(** [arr[n]] *)
Definition getitem {A : Type} (l : list A) (n : nat) : result A :=
  match l !! n with
  | Some x => Ok x
  | None => Err IndexError
  end.

(** [arr[n] = x] *)
Definition setitem {A : Type} (l : list A) (n : nat) (x : A) : result (list A) :=
  if decide (n < length l)%nat then Ok (<[n:=x]> l) else Err IndexError.

(** [np.insert(arr, n, x)] *)
Definition np_insert {A : Type} (l : list A) (n : nat) (x : A) : result (list A) :=
  if decide (n ≤ length l)%nat then Ok (take n l ++ x :: drop n l)
  else Err IndexError.

(** [np.delete(arr, n)] *)
Definition np_delete {A : Type} (l : list A) (n : nat) : result (list A) :=
  if decide (n < length l)%nat then Ok (take n l ++ drop (S n) l)
  else Err IndexError.

(** [np.delete(arr, range(a, b))] *)
Definition np_delete_range {A : Type} (l : list A) (a b : nat) : result (list A) :=
  if decide (b ≤ a)%nat then Ok l
  else if decide (b ≤ length l)%nat then Ok (take a l ++ drop b l)
  else Err IndexError.

(** The builtin [sum]: a left fold starting from 0. *)
Definition py_sum (l : list Qc) : Qc := fold_left Qcplus l 0.

(** The builtin [all] on a list of truth values. *)
Definition py_all (l : list bool) : bool := forallb id l.

(** [x * np.pi/180] on an array. *)
Definition to_radians (l : list Qc) : list Qc :=
  map (λ x, x * np_pi / qz 180) l.

(** ** class Model *)

(** The instance attributes of [Model]: the user attributes, and the
    fixed-capacity copies [f...] handed to the Fortran routine.  [rho] holds
    [None] entries when the constructor was given [rho=None]. *)
Record Model : Type := mkModel {
  nlay : Z;
  thickn : list Qc;
  rho : list (option Qc);
  vp : list Qc;
  vs : list Qc;
  vpvs : list Qc;
  flag : list Z;
  ani : list Qc;
  trend : list Qc;
  plunge : list Qc;
  strike : list Qc;
  dip : list Qc;
  maxlay : Z;
  fthickn : list Qc;
  frho : list (option Qc);
  fvp : list Qc;
  fvs : list Qc;
  fflag : list Qc;
  fani : list Qc;
  ftrend : list Qc;
  fplunge : list Qc;
  fstrike : list Qc;
  fdip : list Qc
}.

(** The ten arrays that [_set_fattributes] assigns. *)
Record Mirror : Type := mkMirror {
  m_thickn : list Qc;
  m_rho : list (option Qc);
  m_vp : list Qc;
  m_vs : list Qc;
  m_flag : list Qc;
  m_ani : list Qc;
  m_trend : list Qc;
  m_plunge : list Qc;
  m_strike : list Qc;
  m_dip : list Qc
}.

Definition mirror (m : Model) : Mirror :=
  mkMirror (fthickn m) (frho m) (fvp m) (fvs m) (fflag m) (fani m)
           (ftrend m) (fplunge m) (fstrike m) (fdip m).

Definition with_mirror (m : Model) (f : Mirror) : Model :=
  mkModel (nlay m) (thickn m) (rho m) (vp m) (vs m) (vpvs m) (flag m) (ani m)
          (trend m) (plunge m) (strike m) (dip m) (maxlay m)
          (m_thickn f) (m_rho f) (m_vp f) (m_vs f) (m_flag f) (m_ani f)
          (m_trend f) (m_plunge f) (m_strike f) (m_dip f).

(** [Model._set_fattributes]: [np.zeros(self.maxlay - self.nlay)] raises
    [ValueError] on a negative length; then each array is appended the tail. *)
Definition _set_fattributes (m : Model) : outcome Model :=
  if decide (nlay m ≤ maxlay m)%Z then
    let tail := np_zeros (Z.to_nat (maxlay m - nlay m)) in
    Normal (with_mirror m
      (mkMirror
         (thickn m ++ tail)
         (rho m ++ map Some tail)
         (vp m ++ tail)
         (vs m ++ tail)
         (map qz (flag m) ++ tail)
         (ani m ++ tail)
         (to_radians (trend m ++ tail))
         (to_radians (plunge m ++ tail))
         (to_radians (strike m ++ tail))
         (to_radians (dip m ++ tail))))
  else Raised ValueError m.

(** An optional constructor argument: [None], a number, or an array. *)
Inductive optarg : Type :=
  | ArgNone
  | ArgNumber (v : Qc)
  | ArgArray (l : list Qc).

(** The local function [_get_val] of [Model.__init__]. *)
Definition _get_val (nlay : nat) (v : optarg) : list Qc :=
  match v with
  | ArgNumber x => replicate nlay x
  | ArgArray l => l
  | ArgNone => replicate nlay 0
  end.

(** [Model.__init__].  [flag_] is an [int] (left) or a sequence (right). *)
Definition Model_init (thickn_ : list Qc) (rho_ : option (list Qc))
    (vp_ vs_ : list Qc) (flag_ : Z + list Z)
    (ani_ trend_ plunge_ strike_ dip_ : optarg) (maxlay_ : Z) : result Model :=
  let nlay_ := length thickn_ in
  let rho' := match rho_ with
              | Some r => map Some r
              | None => replicate nlay_ None
              end in
  vpvs_ ← np_div vp_ vs_;
  let flag' := match flag_ with
               | inl f => replicate nlay_ f
               | inr l => l
               end in
  let m := mkModel (Z.of_nat nlay_) thickn_ rho' vp_ vs_ vpvs_ flag'
             (_get_val nlay_ ani_) (_get_val nlay_ trend_)
             (_get_val nlay_ plunge_) (_get_val nlay_ strike_)
             (_get_val nlay_ dip_) maxlay_
             [] [] [] [] [] [] [] [] [] [] in
  match _set_fattributes m with
  | Normal m' => Ok m'
  | Raised e _ => Err e
  end.

Definition set_vp (m : Model) (x : list Qc) : Model :=
  mkModel (nlay m) (thickn m) (rho m) x (vs m) (vpvs m) (flag m) (ani m)
          (trend m) (plunge m) (strike m) (dip m) (maxlay m)
          (fthickn m) (frho m) (fvp m) (fvs m) (fflag m) (fani m)
          (ftrend m) (fplunge m) (fstrike m) (fdip m).

Definition set_vs (m : Model) (x : list Qc) : Model :=
  mkModel (nlay m) (thickn m) (rho m) (vp m) x (vpvs m) (flag m) (ani m)
          (trend m) (plunge m) (strike m) (dip m) (maxlay m)
          (fthickn m) (frho m) (fvp m) (fvs m) (fflag m) (fani m)
          (ftrend m) (fplunge m) (fstrike m) (fdip m).

Definition set_vpvs (m : Model) (x : list Qc) : Model :=
  mkModel (nlay m) (thickn m) (rho m) (vp m) (vs m) x (flag m) (ani m)
          (trend m) (plunge m) (strike m) (dip m) (maxlay m)
          (fthickn m) (frho m) (fvp m) (fvs m) (fflag m) (fani m)
          (ftrend m) (fplunge m) (fstrike m) (fdip m).

Definition set_thickn (m : Model) (x : list Qc) : Model :=
  mkModel (nlay m) x (rho m) (vp m) (vs m) (vpvs m) (flag m) (ani m)
          (trend m) (plunge m) (strike m) (dip m) (maxlay m)
          (fthickn m) (frho m) (fvp m) (fvs m) (fflag m) (fani m)
          (ftrend m) (fplunge m) (fstrike m) (fdip m).

Definition set_rho (m : Model) (x : list (option Qc)) : Model :=
  mkModel (nlay m) (thickn m) x (vp m) (vs m) (vpvs m) (flag m) (ani m)
          (trend m) (plunge m) (strike m) (dip m) (maxlay m)
          (fthickn m) (frho m) (fvp m) (fvs m) (fflag m) (fani m)
          (ftrend m) (fplunge m) (fstrike m) (fdip m).

Definition set_flag (m : Model) (x : list Z) : Model :=
  mkModel (nlay m) (thickn m) (rho m) (vp m) (vs m) (vpvs m) x (ani m)
          (trend m) (plunge m) (strike m) (dip m) (maxlay m)
          (fthickn m) (frho m) (fvp m) (fvs m) (fflag m) (fani m)
          (ftrend m) (fplunge m) (fstrike m) (fdip m).

Definition set_ani (m : Model) (x : list Qc) : Model :=
  mkModel (nlay m) (thickn m) (rho m) (vp m) (vs m) (vpvs m) (flag m) x
          (trend m) (plunge m) (strike m) (dip m) (maxlay m)
          (fthickn m) (frho m) (fvp m) (fvs m) (fflag m) (fani m)
          (ftrend m) (fplunge m) (fstrike m) (fdip m).

Definition set_trend (m : Model) (x : list Qc) : Model :=
  mkModel (nlay m) (thickn m) (rho m) (vp m) (vs m) (vpvs m) (flag m) (ani m)
          x (plunge m) (strike m) (dip m) (maxlay m)
          (fthickn m) (frho m) (fvp m) (fvs m) (fflag m) (fani m)
          (ftrend m) (fplunge m) (fstrike m) (fdip m).

Definition set_plunge (m : Model) (x : list Qc) : Model :=
  mkModel (nlay m) (thickn m) (rho m) (vp m) (vs m) (vpvs m) (flag m) (ani m)
          (trend m) x (strike m) (dip m) (maxlay m)
          (fthickn m) (frho m) (fvp m) (fvs m) (fflag m) (fani m)
          (ftrend m) (fplunge m) (fstrike m) (fdip m).

Definition set_strike (m : Model) (x : list Qc) : Model :=
  mkModel (nlay m) (thickn m) (rho m) (vp m) (vs m) (vpvs m) (flag m) (ani m)
          (trend m) (plunge m) x (dip m) (maxlay m)
          (fthickn m) (frho m) (fvp m) (fvs m) (fflag m) (fani m)
          (ftrend m) (fplunge m) (fstrike m) (fdip m).

Definition set_dip (m : Model) (x : list Qc) : Model :=
  mkModel (nlay m) (thickn m) (rho m) (vp m) (vs m) (vpvs m) (flag m) (ani m)
          (trend m) (plunge m) (strike m) x (maxlay m)
          (fthickn m) (frho m) (fvp m) (fvs m) (fflag m) (fani m)
          (ftrend m) (fplunge m) (fstrike m) (fdip m).

Definition set_nlay (m : Model) (n : Z) : Model :=
  mkModel n (thickn m) (rho m) (vp m) (vs m) (vpvs m) (flag m) (ani m)
          (trend m) (plunge m) (strike m) (dip m) (maxlay m)
          (fthickn m) (frho m) (fvp m) (fvs m) (fflag m) (fani m)
          (ftrend m) (fplunge m) (fstrike m) (fdip m).

(** [Model.update].  [fix] is [None] or a string; [not fix] also holds for
    the empty string. *)
Definition update (m : Model) (fix_ : option string) : outcome Model :=
  let recompute := lift m (np_div (vp m) (vs m)) (λ x, Normal (set_vpvs m x)) in
  let after :=
    match fix_ with
    | None => recompute
    | Some s =>
        if String.eqb s "vp" then
          lift m (np_div (vp m) (vpvs m)) (λ x, Normal (set_vs m x))
        else if String.eqb s "vs" then
          lift m (np_mul (vs m) (vpvs m)) (λ x, Normal (set_vp m x))
        else if String.eqb s "" then recompute
        else Raised ValueError m
    end in
  obind after _set_fattributes.

(** The names in [self._useratts], in the order of the list. *)
Inductive att : Type :=
  | Athickn | Arho | Avp | Avs | Avpvs | Aflag
  | Aani | Atrend | Aplunge | Astrike | Adip.

Definition _useratts : list att :=
  [Athickn; Arho; Avp; Avs; Avpvs; Aflag; Aani; Atrend; Aplunge; Astrike; Adip].

(** [self.__dict__[att] = f(self.__dict__[att])] for an array function [f]
    that does not depend on the element type. *)
Definition on_att (f : ∀ A : Type, list A → result (list A)) (a : att)
    (m : Model) : outcome Model :=
  match a with
  | Athickn => lift m (f _ (thickn m)) (λ x, Normal (set_thickn m x))
  | Arho => lift m (f _ (rho m)) (λ x, Normal (set_rho m x))
  | Avp => lift m (f _ (vp m)) (λ x, Normal (set_vp m x))
  | Avs => lift m (f _ (vs m)) (λ x, Normal (set_vs m x))
  | Avpvs => lift m (f _ (vpvs m)) (λ x, Normal (set_vpvs m x))
  | Aflag => lift m (f _ (flag m)) (λ x, Normal (set_flag m x))
  | Aani => lift m (f _ (ani m)) (λ x, Normal (set_ani m x))
  | Atrend => lift m (f _ (trend m)) (λ x, Normal (set_trend m x))
  | Aplunge => lift m (f _ (plunge m)) (λ x, Normal (set_plunge m x))
  | Astrike => lift m (f _ (strike m)) (λ x, Normal (set_strike m x))
  | Adip => lift m (f _ (dip m)) (λ x, Normal (set_dip m x))
  end.

(** [for att in atts: body] *)
Fixpoint for_atts (body : att → Model → outcome Model) (atts : list att)
    (m : Model) : outcome Model :=
  match atts with
  | [] => Normal m
  | a :: rest => obind (body a m) (for_atts body rest)
  end.

(** [self.thickn[n] /= 2] *)
Definition halve_thickn (n : nat) (m : Model) : outcome Model :=
  lift m (x ← getitem (thickn m) n; setitem (thickn m) n (x / qz 2))
       (λ t, Normal (set_thickn m t)).

(** [np.insert(arr, n, arr[n])] *)
Definition duplicate (n : nat) (A : Type) (l : list A) : result (list A) :=
  x ← getitem l n; np_insert l n x.

(** [Model.split_layer] *)
Definition split_layer (m : Model) (n : nat) : outcome Model :=
  obind (for_atts (on_att (duplicate n)) _useratts m) (λ m1,
  obind (halve_thickn n m1) (λ m2,
  obind (halve_thickn (n + 1) m2) (λ m3,
  update (set_nlay m3 (nlay m3 + 1)%Z) None))).

(** [Model.remove_layer] *)
Definition remove_layer (m : Model) (n : nat) : outcome Model :=
  obind (for_atts (on_att (λ A l, np_delete l n)) _useratts m) (λ m1,
  update (set_nlay m1 (nlay m1 - 1)%Z) None).

(** The product [self.rho[top:bot] * weights]: an entry [None] makes the
    elementwise product raise [TypeError]. *)
Definition np_mul_obj (r : list (option Qc)) (w : list Qc) : result (list Qc) :=
  p ← np_binop (λ x y, (λ v, v * y) <$> x) r w;
  match mapM id p with
  | Some l => Ok l
  | None => Err TypeError
  end.

(** The checks at the head of [Model.combine_layers]. *)
Definition combine_checks (m : Model) (top bottom : nat) : result unit :=
  if decide (bottom ≤ top)%nat then Err IndexError
  else
    let bot := (bottom + 1)%nat in
    if negb (py_all (map (λ f, negb (Z.eqb f 0)) (slice top bot (flag m))))
    then Err ValueError
    else
      d0 ← getitem (slice top bot (dip m)) 0;
      if negb (py_all (map (λ d, bool_decide (d0 = d)) (slice top bot (dip m))))
      then Err ValueError
      else
        s0 ← getitem (slice top bot (strike m)) 0;
        if negb (py_all (map (λ d, bool_decide (s0 = d)) (slice top bot (strike m))))
        then Err ValueError
        else Ok ().

(** The dictionary [layer] of [Model.combine_layers]. *)
Record merged : Type := mkMerged {
  l_thickn : Qc;
  l_vp : Qc;
  l_vs : Qc;
  l_rho : Qc
}.

Definition combine_layer (m : Model) (top bot : nat) : result merged :=
  let thickn_ := py_sum (slice top bot (thickn m)) in
  let weights := map (λ t, t / thickn_) (slice top bot (thickn m)) in
  wvp ← np_mul (slice top bot (vp m)) weights;
  wvs ← np_mul (slice top bot (vs m)) weights;
  wrho ← np_mul_obj (slice top bot (rho m)) weights;
  Ok (mkMerged thickn_ (py_sum wvp) (py_sum wvs) (py_sum wrho)).

(** The body of the loop over [self._useratts] in [Model.combine_layers]:
    the [KeyError] of [layer[att]] is caught, an error of the assignment or of
    [np.delete] is not. *)
Definition combine_body (layer : merged) (top bot : nat) (a : att) (m : Model)
    : outcome Model :=
  let assigned :=
    match a with
    | Athickn => lift m (setitem (thickn m) top (l_thickn layer))
                        (λ x, Normal (set_thickn m x))
    | Avp => lift m (setitem (vp m) top (l_vp layer)) (λ x, Normal (set_vp m x))
    | Avs => lift m (setitem (vs m) top (l_vs layer)) (λ x, Normal (set_vs m x))
    | Arho => lift m (setitem (rho m) top (Some (l_rho layer)))
                     (λ x, Normal (set_rho m x))
    | _ => Normal m
    end in
  obind assigned (on_att (λ A l, np_delete_range l (top + 1) bot) a).

(** [Model.combine_layers] *)
Definition combine_layers (m : Model) (top bottom : nat) : outcome Model :=
  lift m (combine_checks m top bottom) (λ _,
  let bot := (bottom + 1)%nat in
  lift m (combine_layer m top bot) (λ layer,
  obind (for_atts (combine_body layer top bot) _useratts m) (λ m1,
  update (set_nlay m1 (nlay m1 - (Z.of_nat bottom - Z.of_nat top))%Z) None))).

(** ** Strings of [Model.change]

    A Python string is a list of characters (ASCII here). *)

Definition str (s : string) : list ascii := list_ascii_of_string s.

(** [s.split(sep)] for a one-character separator. *)
Fixpoint split_on (sep : ascii) (s : list ascii) : list (list ascii) :=
  match s with
  | [] => [[]]
  | c :: s' =>
      if decide (c = sep) then [] :: split_on sep s'
      else match split_on sep s' with
           | h :: t => (c :: h) :: t
           | [] => [[c]]
           end
  end.

(** [char in '0123456789'] for a character. *)
Definition is_digit (c : ascii) : bool :=
  bool_decide (c ∈ str "0123456789").

(** Python's ASCII white space. *)
Definition is_space (c : ascii) : bool :=
  let n := nat_of_ascii c in
  bool_decide (9 ≤ n ≤ 13)%nat || bool_decide (28 ≤ n ≤ 32)%nat.

Fixpoint lstrip (s : list ascii) : list ascii :=
  match s with
  | c :: s' => if is_space c then lstrip s' else s
  | [] => []
  end.

(** [s.strip()] *)
Definition strip (s : list ascii) : list ascii :=
  rev (lstrip (rev (lstrip s))).

Definition digit_value (c : ascii) : Z := Z.of_nat (nat_of_ascii c) - 48.

(** The value of a string of decimal digits. *)
Definition digits_value (s : list ascii) : Z :=
  fold_left (λ acc c, 10 * acc + digit_value c)%Z s 0%Z.

Definition all_digits (s : list ascii) : bool :=
  negb (bool_decide (s = [])) && forallb is_digit s.

(** An optional sign in front of a literal. *)
Definition take_sign (s : list ascii) : bool * list ascii :=
  match s with
  | "-"%char :: r => (true, r)
  | "+"%char :: r => (false, r)
  | _ => (false, s)
  end.

(** The builtin [int] on a string: white space around, an optional sign,
    decimal digits in groups separated by single underscores. *)
Definition py_int (s : list ascii) : result Z :=
  let '(neg, body) := take_sign (strip s) in
  let groups := split_on "_" body in
  if forallb all_digits groups then
    let v := digits_value (concat groups) in
    Ok (if neg then (- v)%Z else v)
  else Err ValueError.

(** The builtin [float] on a string, for the finite decimal literals
    [sign digits . digits e sign digits]; the result is the exact decimal
    value.  The literals [inf], [nan] and digit-group underscores are not
    modelled and count as malformed. *)
Definition split_exponent (s : list ascii) : list ascii * option (list ascii) :=
  match split_on "e" (map (λ c, if decide (c = "E"%char) then "e"%char else c) s) with
  | [mant] => (mant, None)
  | [mant; ex] => (mant, Some ex)
  | _ => ([], None)
  end.

Definition pow10 (k : Z) : Qc :=
  if decide (0 ≤ k)%Z then Qcpower (qz 10) (Z.to_nat k)
  else 1 / Qcpower (qz 10) (Z.to_nat (- k)).

Definition mantissa_value (s : list ascii) : option Qc :=
  match split_on "." s with
  | [ip] => if all_digits ip then Some (qz (digits_value ip)) else None
  | [ip; fp] =>
      if (forallb is_digit ip && forallb is_digit fp
          && negb (bool_decide (ip = []) && bool_decide (fp = [])))%bool
      then Some (qz (digits_value ip)
                 + qz (digits_value fp) * pow10 (- Z.of_nat (length fp)))
      else None
  | _ => None
  end.

Definition exponent_value (e : option (list ascii)) : option Z :=
  match e with
  | None => Some 0%Z
  | Some x =>
      let '(neg, d) := take_sign x in
      if all_digits d then Some (if neg then - digits_value d else digits_value d)%Z
      else None
  end.

Definition py_float (s : list ascii) : result Qc :=
  let '(neg, body) := take_sign (strip s) in
  let '(mant, ex) := split_exponent body in
  match mantissa_value mant, exponent_value ex with
  | Some v, Some k =>
      let x := v * pow10 k in Ok (if neg then - x else x)
  | _, _ => Err ValueError
  end.

(** ** [Model.change] *)

(** An array attribute as [self.__dict__[attribute]] reaches it: how to read
    it and how to store it. *)
Record attribute : Type := mkAttribute {
  attr_get : Model → list Qc;
  attr_set : Model → list Qc → Model
}.

(** The dictionary [ATT]. *)
Definition ATT (k : list ascii) : option attribute :=
  if decide (k = str "t") then Some (mkAttribute thickn set_thickn)
  else if decide (k = str "vp") then Some (mkAttribute vp set_vp)
  else if decide (k = str "vs") then Some (mkAttribute vs set_vs)
  else if decide (k = str "psp") then Some (mkAttribute vpvs set_vpvs)
  else if decide (k = str "pss") then Some (mkAttribute vpvs set_vpvs)
  else if decide (k = str "s") then Some (mkAttribute strike set_strike)
  else if decide (k = str "d") then Some (mkAttribute dip set_dip)
  else if decide (k = str "a") then Some (mkAttribute ani set_ani)
  else if decide (k = str "tr") then Some (mkAttribute trend set_trend)
  else if decide (k = str "pl") then Some (mkAttribute plunge set_plunge)
  else None.

(** [for sign in '=+-': ans = command.split(sign); if len(ans) == 2: break].
    [last] is what [sign] and [ans] hold when the loop runs out. *)
Fixpoint find_sign (signs : list ascii) (command : list ascii)
    (last : option (ascii * list (list ascii)))
    : option (ascii * list (list ascii)) :=
  match signs with
  | [] => last
  | sign :: rest =>
      let ans := split_on sign command in
      if decide (length ans = 2%nat) then Some (sign, ans)
      else find_sign rest command (Some (sign, ans))
  end.

(** [for n, char in enumerate(attlay): if char in '0123456789': break].
    [n] is the value the variable has before the loop, if it is bound. *)
Fixpoint scan_digit (attlay : list ascii) (i : nat) (n : option nat) : option nat :=
  match attlay with
  | [] => n
  | char :: rest =>
      if is_digit char then Some i else scan_digit rest (S i) (Some i)
  end.

(** What one directive asks for, once the text is taken apart. *)
Record directive : Type := mkDirective {
  d_att : list ascii;
  d_lay : nat;
  d_sign : ascii;
  d_inc : Qc
}.

(** The head of the loop body: from the command text to [att], [lay],
    [sign] and [inc] (before the conversion from kilometres).  The second
    component is the local variable [n], which survives from one command to
    the next. *)
Definition parse_command (command : list ascii) (n : option nat)
    : result (directive * option nat) :=
  match find_sign (str "=+-") command None with
  | Some (sign, [attlay; inc]) =>
      match scan_digit attlay 0 n with
      | None => Err NameError
      | Some k =>
          let att_ := strip (take k attlay) in
          lay ← py_int (drop k attlay);
          inc_ ← py_float inc;
          Ok (mkDirective att_ (Z.to_nat lay) sign inc_, Some k)
      end
  | _ => Err ValueError
  end.

(** The rest of the loop body: convert, apply, reset the isotropy flag,
    update. *)
Definition apply_directive (d : directive) (m : Model) : outcome Model :=
  let inc :=
    if bool_decide (d_att d ∈ [str "t"; str "vp"; str "vs"])
    then d_inc d * qz 1000 else d_inc d in
  let fix_ :=
    if decide (d_att d = str "psp") then Some "vs"%string
    else if decide (d_att d = str "pss") then Some "vp"%string
    else None in
  match ATT (d_att d) with
  | None => Raised KeyError m
  | Some a =>
      let lay := d_lay d in
      let new_value (old : Qc) : Qc :=
        if decide (d_sign d = "="%char) then inc
        else if decide (d_sign d = "+"%char) then old + inc
        else old - inc in
      let store :=
        if decide (d_sign d = "="%char) then setitem (attr_get a m) lay inc
        else old ← getitem (attr_get a m) lay;
             setitem (attr_get a m) lay (new_value old) in
      lift m store (λ arr,
      let m1 := attr_set a m arr in
      lift m1 (setitem (flag m1) lay 1%Z) (λ fl,
      let m2 := set_flag m1 fl in
      lift m2 (getitem (ani m2) lay) (λ an,
      let m3 :=
        if decide (an ≠ 0) then set_flag m2 (<[lay:=0%Z]> (flag m2)) else m2 in
      update m3 fix_)))
  end.

(** [for command in commands.split(';')] with the model and the local [n]
    as loop state. *)
Fixpoint change_loop (commands : list (list ascii)) (n : option nat) (m : Model)
    : outcome Model :=
  match commands with
  | [] => Normal m
  | command :: rest =>
      if decide (command = []) then change_loop rest n m
      else match parse_command command n with
           | Err e => Raised e m
           | Ok (d, n') => obind (apply_directive d m) (change_loop rest n')
           end
  end.

(** [Model.change] *)
Definition change (m : Model) (commands : string) : outcome Model :=
  change_loop (split_on ";" (str commands)) None m.

(** ** class Geometry *)

Record Geometry : Type := mkGeometry {
  geom : list (Qc * Qc);
  baz : list Qc;
  slow : list Qc;
  ntr : nat;
  dx : list Qc;
  dy : list Qc;
  fbaz : list Qc;
  fslow : list Qc;
  fdx : list Qc;
  fdy : list Qc
}.

(** [[v]] for a number, the sequence itself otherwise. *)
Definition as_list (v : Qc + list Qc) : list Qc :=
  match v with
  | inl x => [x]
  | inr l => l
  end.

(** [[(bb, ss) for ss in slow for bb in baz]] *)
Definition outer_grid (baz_ slow_ : list Qc) : list (Qc * Qc) :=
  ss ← slow_; bb ← baz_; [(bb, ss)].

(** [[(bb, ss) for bb, ss in zip(baz, slow)]] *)
Definition paired (baz_ slow_ : list Qc) : list (Qc * Qc) :=
  zip_with (λ bb ss, (bb, ss)) baz_ slow_.

(** [if len(d) != ntr: d = np.full(ntr, d[0])] *)
Definition broadcast_offset (ntr_ : nat) (d : list Qc) : result (list Qc) :=
  if decide (length d ≠ ntr_) then
    d0 ← getitem d 0; Ok (replicate ntr_ d0)
  else Ok d.

(** [Geometry.__init__]; [maxtr] is an [int]. *)
Definition Geometry_init (baz_ slow_ : Qc + list Qc) (dx_ dy_ : list Qc)
    (maxtr : Z) : result Geometry :=
  let baz0 := as_list baz_ in
  let slow0 := as_list slow_ in
  let geom_ :=
    if decide (length baz0 ≠ length slow0) then outer_grid baz0 slow0
    else paired baz0 slow0 in
  (* unpacking the transposed [self.geom] into [baz, slow] needs two results *)
  if decide (geom_ = []) then Err ValueError
  else
    let baz1 := map fst geom_ in
    let slow1 := map snd geom_ in
    let ntr_ := length baz1 in
    dx1 ← broadcast_offset ntr_ dx_;
    dy1 ← broadcast_offset ntr_ dy_;
    if decide (Z.of_nat ntr_ ≤ maxtr)%Z then
      let tail := np_zeros (Z.to_nat (maxtr - Z.of_nat ntr_)) in
      Ok (mkGeometry geom_ baz1 slow1 ntr_ dx1 dy1
            (to_radians (baz1 ++ tail))
            (map (λ x, x * (1 / qz 1000)) (slow1 ++ tail))
            (dx1 ++ tail) (dy1 ++ tail))
    else Err ValueError.

(** ** The numerical library

    What NumPy and SciPy provide to the receiver-function code and is not
    part of the module: the complex transforms and the filter kernels.  The
    filter design [signal.butter] may raise, and is indexed by the number of
    designs made before it, so that nothing is assumed about two designs for
    the same corners giving the same coefficients. *)
Class Numerics : Type := {
  cplx : Type;
  fft : list Qc → list cplx;
  ifft : list cplx → list cplx;
  cdiv : cplx → cplx → cplx;
  cneg : cplx → cplx;
  creal : cplx → Qc;
  lfilter : list Qc → list Qc → list Qc → list Qc;
  butter : nat → Z → list Qc → result (list Qc * list Qc)
}.

(** The transforms and the filter return as many samples as they are given. *)
Class NumericsLaws (N : Numerics) : Prop := {
  length_fft : ∀ x, length (fft x) = length x;
  length_ifft : ∀ x, length (ifft x) = length x;
  length_lfilter : ∀ b a x, length (lfilter b a x) = length x
}.

(** [np.fft.fftshift]: a roll by [n // 2]. *)
Definition fftshift {A : Type} (x : list A) : list A :=
  let k := (length x / 2)%nat in
  drop (length x - k) x ++ take (length x - k) x.

(** [np.mean] *)
Definition np_mean (x : list Qc) : Qc :=
  py_sum x / qz (Z.of_nat (length x)).

(** ** The filter-coefficient cache *)

(** The module-level dictionary [cached_coefficients], keyed by
    [(order, tuple(corners))], together with the record of the calls made to
    [signal.butter] (the instrumentation that counts the designs). *)
Record cache : Type := mkCache {
  cached_coefficients : gmap (Z * list Qc) (list Qc * list Qc);
  design_calls : list (Z * list Qc)
}.

Definition empty_cache : cache := mkCache ∅ [].

Section Engine.
Context {N : Numerics}.

(** [_get_cached_bandpass_coefs] *)
Definition _get_cached_bandpass_coefs (order : Z) (corners : list Qc) (c : cache)
    : result (list Qc * list Qc) * cache :=
  let ck := (order, corners) in
  match cached_coefficients c !! ck with
  | Some ba => (Ok ba, c)
  | None =>
      let calls := design_calls c ++ [ck] in
      match butter (length (design_calls c)) order corners with
      | Ok ba => (Ok ba, mkCache (<[ck:=ba]> (cached_coefficients c)) calls)
      | Err e => (Err e, mkCache (cached_coefficients c) calls)
      end
  end.

(** The look-ups of a process, one after the other, each with its own
    result: a caller that catches the exception of a failed design goes on
    with the next look-up, on the dictionary as the failed one left it. *)
Fixpoint lookups (keys : list (Z * list Qc)) (c : cache)
    : list (result (list Qc * list Qc)) * cache :=
  match keys with
  | [] => ([], c)
  | (order, corners) :: rest =>
      let (r, c1) := _get_cached_bandpass_coefs order corners c in
      let (rs, c2) := lookups rest c1 in
      (r :: rs, c2)
  end.

(** The local function [_bandpass] of [filtered_rf_array], with [order = 2]. *)
Definition _bandpass (dt fmin fmax : Qc) (arr : list Qc) (c : cache)
    : result (list Qc) * cache :=
  let order := 2%Z in
  match _get_cached_bandpass_coefs order [qz 2 * dt * fmin; qz 2 * dt * fmax] c with
  | (Ok (b, a), c1) =>
      let arr1 := map (λ x, x - np_mean arr) arr in
      let firstpass := lfilter b a arr1 in
      (Ok (rev (lfilter b a (rev firstpass))), c1)
  | (Err e, c1) => (Err e, c1)
  end.

End Engine.

(** ** Arrays of the solver *)

(** A three-dimensional array: its shape and its entries.  An entry is only
    read inside the shape. *)
Record ndarray3 : Type := mkArray3 {
  shape0 : nat;
  shape1 : nat;
  shape2 : nat;
  at3 : nat → nat → nat → Qc
}.

(** A two-dimensional array. *)
Record ndarray2 : Type := mkArray2 {
  rows : nat;
  cols : nat;
  at2 : nat → nat → Qc
}.

(** [arr[c, :npts, :ntr]] *)
Definition crop (arr : ndarray3) (c npts ntr_ : nat) : result ndarray2 :=
  if decide (c < shape0 arr)%nat then
    Ok (mkArray2 (npts `min` shape1 arr) (ntr_ `min` shape2 arr) (at3 arr c))
  else Err IndexError.

(** [a.reshape(size, order='F')]: the columns one after the other. *)
Definition reshape_F (a : ndarray2) (size : nat) : result (list Qc) :=
  if decide (rows a * cols a = size)%nat then
    Ok (j ← seq 0 (cols a); i ← seq 0 (rows a); [at2 a i j])
  else Err ValueError.

(** Row [r] of plane [n]: [arr[n, r, :]]. *)
Definition row3 (arr : ndarray3) (n r : nat) : list Qc :=
  map (at3 arr n r) (seq 0 (shape2 arr)).

(** [arr[n, r, :] = v], with NumPy's broadcast of a single value. *)
Definition set_row3 (arr : ndarray3) (n r : nat) (v : list Qc) : result ndarray3 :=
  if decide (n < shape0 arr ∧ r < shape1 arr)%nat then
    if decide (length v = shape2 arr ∨ length v = 1%nat) then
      Ok (mkArray3 (shape0 arr) (shape1 arr) (shape2 arr)
            (λ i j k,
               if decide (i = n ∧ j = r) then
                 default 0 (v !! (if decide (length v = shape2 arr) then k else 0%nat))
               else at3 arr i j k))
    else Err ValueError
  else Err IndexError.

(** ** Waveform records *)

(** The header of a trace, as [_make_stats] fills it and [Trace] completes
    it with [npts].  The start time, a wall-clock stamp, is left out. *)
Record Stats : Type := mkStats {
  st_baz : Qc;
  st_slow : Qc;
  st_station : string;
  st_network : string;
  st_delta : Qc;
  st_channel : string;
  st_taxis : list Qc;
  st_npts : nat
}.

Record Trace : Type := mkTrace {
  data : list Qc;
  stats : Stats
}.

Definition Stream : Type := list Trace.

(** The component code of a channel: its last character. *)
Definition component_of (channel : string) : option ascii :=
  last (str channel).

(** [stream.select(component=c)] *)
Definition select (stream : Stream) (c : ascii) : Stream :=
  filter (λ tr, component_of (st_channel (stats tr)) = Some c) stream.

(** A row of the data frame of [read_traces]. *)
Record frame_row : Type := mkRow {
  trace1 : Qc;
  trace2 : Qc;
  trace3 : Qc;
  itr : nat
}.

(** [pd.DataFrame(data=data)]: the four columns must agree in length. *)
Definition DataFrame (t1 t2 t3 : list Qc) (it : list nat) : result (list frame_row) :=
  if decide (length t1 = length t2 ∧ length t2 = length t3
             ∧ length t3 = length it) then
    Ok (zip_with (λ '(a, b) '(c, i), mkRow a b c i) (zip t1 t2) (zip t3 it))
  else Err ValueError.

(** The component names for a rotation ID, in [read_traces]. *)
Definition component_names (rot : Z) : result (list ascii) :=
  if decide (rot = 0)%Z then Ok (str "NEZ")
  else if decide (rot = 1)%Z then Ok (str "RTZ")
  else if decide (rot = 2)%Z then Ok (str "PVH")
  else Err Exception.

Definition channel_name (pre : string) (c : ascii) : string :=
  (pre ++ String c EmptyString)%string.

(** [read_traces].  The keyword arguments are the named parameters here, so
    the check of their names has nothing to reject. *)
Definition read_traces (traces : ndarray3) (geom_ : list (Qc * Qc))
    (dt : Qc) (rot : Z) (shift : Qc) (npts ntr_ : nat) : result (list Stream) :=
  a1 ← crop traces 0 npts ntr_;
  t1 ← reshape_F a1 (npts * ntr_);
  a2 ← crop traces 1 npts ntr_;
  t2 ← reshape_F a2 (npts * ntr_);
  a3 ← crop traces 2 npts ntr_;
  t3 ← reshape_F a3 (npts * ntr_);
  let it := tr ← seq 0 ntr_; replicate npts tr in
  df ← DataFrame t1 t2 t3 it;
  component ← component_names rot;
  (* ntr = np.max(df.itr) + 1: not a number on an empty frame, and
     [range] then raises *)
  ntr1 ← (if decide (df = []) then Err TypeError
          else Ok (S (foldr Nat.max 0%nat (map itr df))));
  let npts1 := length (filter (λ r, itr r = 0%nat) df) in
  let taxis := map (λ i, qz (Z.of_nat i) * dt - shift) (seq 0 npts1) in
  mapM (λ i,
    let ddf := filter (λ r, itr r = i) df in
    g ← getitem geom_ i;
    c1 ← getitem component 0;
    c2 ← getitem component 1;
    c3 ← getitem component 2;
    let mk (c : ascii) (d : list Qc) :=
      mkTrace d (mkStats g.1 g.2 "synt" "" dt (channel_name "BH" c) taxis
                         (length d)) in
    Ok [mk c1 (map trace1 ddf); mk c2 (map trace2 ddf); mk c3 (map trace3 ddf)])
    (seq 0 ntr1).

(** ** Receiver functions *)

Section ReceiverFunctions.
Context {N : Numerics}.

(** [fftshift(np.real(ifft(np.divide(num, den))))] *)
Definition spectral_division (num den : list cplx) : result (list Qc) :=
  q ← np_binop cdiv num den;
  Ok (fftshift (map creal (ifft q))).

(** The component names for a rotation ID, in [calculate_rfs]. *)
Definition rf_components (rot : Z) : result (list ascii) :=
  if decide (rot = 0)%Z then Err Exception
  else if decide (rot = 1)%Z then Ok (str "RTZ")
  else if decide (rot = 2)%Z then Ok (str "VHP")
  else Err Exception.

Definition retitled (tr : Trace) (d : list Qc) (channel : string)
    (taxis : list Qc) : Trace :=
  let s := stats tr in
  mkTrace d (mkStats (st_baz s) (st_slow s) (st_station s) (st_network s)
                     (st_delta s) channel taxis (length d)).

(** [StreamList.calculate_rfs], on [self.streams], [self.args.rot] and
    [self.args.wvtype]; the result is the list it returns (and stores). *)
Definition calculate_rfs (streams : list Stream) (rot : Z) (wvtype : string)
    : result (list Stream) :=
  cmpts ← rf_components rot;
  mapM (λ stream : Stream,
    tr0 ← getitem stream 0;
    let npts := st_npts (stats tr0) in
    let taxis :=
      map (λ i, (- qz (Z.of_nat npts) / qz 2 + qz (Z.of_nat i))
                * st_delta (stats tr0)) (seq 0 npts) in
    c0 ← getitem cmpts 0;
    c1 ← getitem cmpts 1;
    c2 ← getitem cmpts 2;
    rtr ← getitem (select stream c0) 0;
    ttr ← getitem (select stream c1) 0;
    ztr ← getitem (select stream c2) 0;
    let zero_r := np_zeros (length (data rtr)) in
    let zero_t := np_zeros (length (data ttr)) in
    let ft_rfr := fft (data rtr) in
    let ft_rft := fft (data ttr) in
    let ft_ztr := fft (data ztr) in
    rf ← (if String.eqb wvtype "P" then
            r ← spectral_division ft_rfr ft_ztr;
            t ← spectral_division ft_rft ft_ztr;
            Ok (r, t)
          else if String.eqb wvtype "SV" then
            r ← spectral_division (map cneg ft_ztr) ft_rfr;
            Ok (r, zero_t)
          else if String.eqb wvtype "SH" then
            t ← spectral_division (map cneg ft_ztr) ft_rft;
            Ok (zero_r, t)
          else Err Exception);
    Ok [retitled rtr rf.1 (channel_name "RF" c0) taxis;
        retitled ttr rf.2 (channel_name "RF" c1) taxis])
    streams.

(** What [filtered_rf_array] leaves behind: the exception if it raised, the
    output array as written so far, and the cache. *)
Record batch_state : Type := mkBatch {
  b_error : option exn;
  b_out : ndarray3;
  b_cache : cache
}.

(** One receiver function of the batch: divide, filter, store in
    [arr_out[n, r, :]]. *)
Definition batch_row (dt fmin fmax : Qc) (num den : list cplx) (n r : nat)
    (s : batch_state) : batch_state :=
  match spectral_division num den with
  | Err e => mkBatch (Some e) (b_out s) (b_cache s)
  | Ok rf =>
      match _bandpass dt fmin fmax rf (b_cache s) with
      | (Err e, c1) => mkBatch (Some e) (b_out s) c1
      | (Ok v, c1) =>
          match set_row3 (b_out s) n r v with
          | Err e => mkBatch (Some e) (b_out s) c1
          | Ok out => mkBatch None out c1
          end
      end
  end.

(** The loop [for n, trace in enumerate(data)] of [filtered_rf_array];
    [trace[c]] is [sspread_arr[c, :npts, n]]. *)
Fixpoint batch_loop (dt fmin fmax : Qc) (sspread_arr : ndarray3) (nrows : nat)
    (ns : list nat) (s : batch_state) : batch_state :=
  match ns with
  | [] => s
  | n :: rest =>
      let trace (c : nat) := map (λ i, at3 sspread_arr c i n) (seq 0 nrows) in
      let ft_ztr := fft (trace 0%nat) in
      let ft_rfr := fft (trace 1%nat) in
      let ft_rft := fft (trace 2%nat) in
      let s1 := batch_row dt fmin fmax ft_rfr ft_ztr n 0 s in
      match b_error s1 with
      | Some _ => s1
      | None =>
          let s2 := batch_row dt fmin fmax ft_rft ft_ztr n 1 s1 in
          match b_error s2 with
          | Some _ => s2
          | None => batch_loop dt fmin fmax sspread_arr nrows rest s2
          end
      end
  end.

(** [filtered_rf_array] *)
Definition filtered_rf_array (sspread_arr arr_out : ndarray3) (ntr_ npts : nat)
    (dt fmin fmax : Qc) (c : cache) : batch_state :=
  match (a0 ← crop sspread_arr 0 npts ntr_;
         a1 ← crop sspread_arr 1 npts ntr_;
         a2 ← crop sspread_arr 2 npts ntr_;
         Ok a0) with
  | Err e => mkBatch (Some e) arr_out c
  | Ok a0 =>
      batch_loop dt fmin fmax sspread_arr (rows a0) (seq 0 (cols a0))
                 (mkBatch None arr_out c)
  end.

End ReceiverFunctions.

(** ** What the claims speak about *)

(** The data-model invariant: every per-layer array has one entry per layer,
    and [nlay] counts them. *)
Definition well_formed (m : Model) : Prop :=
  nlay m = Z.of_nat (length (thickn m))
  ∧ length (rho m) = length (thickn m)
  ∧ length (vp m) = length (thickn m)
  ∧ length (vs m) = length (thickn m)
  ∧ length (vpvs m) = length (thickn m)
  ∧ length (flag m) = length (thickn m)
  ∧ length (ani m) = length (thickn m)
  ∧ length (trend m) = length (thickn m)
  ∧ length (plunge m) = length (thickn m)
  ∧ length (strike m) = length (thickn m)
  ∧ length (dip m) = length (thickn m).

(** The derived ratio is the one of the current velocities. *)
Definition vpvs_consistent (m : Model) : Prop :=
  vpvs m = zip_with Qcdiv (vp m) (vs m).

(** An array padded to [n] entries with [z]. *)
Definition pad_to {A : Type} (n : nat) (z : A) (l : list A) : list A :=
  l ++ replicate (n - length l) z.

Definition degrees_to_radians (x : Qc) : Qc := x * np_pi / qz 180.

(** The export view of the user attributes: every array padded with zeros
    to [maxlay] entries, the four angles in radians. *)
Definition export_view (m : Model) : Mirror :=
  let n := Z.to_nat (maxlay m) in
  mkMirror
    (pad_to n 0 (thickn m))
    (pad_to n (Some 0) (rho m))
    (pad_to n 0 (vp m))
    (pad_to n 0 (vs m))
    (pad_to n 0 (map qz (flag m)))
    (pad_to n 0 (ani m))
    (pad_to n 0 (map degrees_to_radians (trend m)))
    (pad_to n 0 (map degrees_to_radians (plunge m)))
    (pad_to n 0 (map degrees_to_radians (strike m)))
    (pad_to n 0 (map degrees_to_radians (dip m))).

Definition mirror_in_sync (m : Model) : Prop := mirror m = export_view m.

(** The public mutating operations of [Model]. *)
Inductive mutator : Type :=
  | Update (fix_ : option string)
  | Change (commands : string)
  | SplitLayer (n : nat)
  | RemoveLayer (n : nat)
  | CombineLayers (top bottom : nat).

Definition run (op : mutator) (m : Model) : outcome Model :=
  match op with
  | Update fix_ => update m fix_
  | Change commands => change m commands
  | SplitLayer n => split_layer m n
  | RemoveLayer n => remove_layer m n
  | CombineLayers top bottom => combine_layers m top bottom
  end.

(** Whether the operation reaches [update] at all: [change] does so once per
    directive, hence not for a command string without a directive. *)
Definition reaches_update (op : mutator) : bool :=
  match op with
  | Change commands =>
      existsb (λ c, negb (bool_decide (c = []))) (split_on ";" (str commands))
  | _ => true
  end.

(** The attributes of one layer. *)
Record layer_row : Type := mkLayer {
  r_thickn : Qc;
  r_rho : option Qc;
  r_vp : Qc;
  r_vs : Qc;
  r_vpvs : Qc;
  r_flag : Z;
  r_ani : Qc;
  r_trend : Qc;
  r_plunge : Qc;
  r_strike : Qc;
  r_dip : Qc
}.

Definition layer (m : Model) (i : nat) : option layer_row :=
  t ← thickn m !! i; r ← rho m !! i; p ← vp m !! i; s ← vs m !! i;
  k ← vpvs m !! i; f ← flag m !! i; a ← ani m !! i; tr ← trend m !! i;
  pl ← plunge m !! i; sk ← strike m !! i; d ← dip m !! i;
  Some (mkLayer t r p s k f a tr pl sk d).

Definition with_thickn (r : layer_row) (t : Qc) : layer_row :=
  mkLayer t (r_rho r) (r_vp r) (r_vs r) (r_vpvs r) (r_flag r) (r_ani r)
          (r_trend r) (r_plunge r) (r_strike r) (r_dip r).

(** The sum of an array, from the right. *)
Definition total (l : list Qc) : Qc := foldr Qcplus 0 l.

(** The average of [v] weighted by [w]. *)
Definition weighted_average (w v : list Qc) : Qc :=
  total (zip_with Qcmult v w) / total w.

(** A model after an array function [g] went over every user attribute. *)
Definition map_fields (g : ∀ A : Type, list A → list A) (m : Model) : Model :=
  mkModel (nlay m) (g _ (thickn m)) (g _ (rho m)) (g _ (vp m)) (g _ (vs m))
          (g _ (vpvs m)) (g _ (flag m)) (g _ (ani m)) (g _ (trend m))
          (g _ (plunge m)) (g _ (strike m)) (g _ (dip m)) (maxlay m)
          (fthickn m) (frho m) (fvp m) (fvs m) (fflag m) (fani m)
          (ftrend m) (fplunge m) (fstrike m) (fdip m).

(** Two lengths that NumPy broadcasts against each other. *)
Definition np_compatible (a b : nat) : Prop := a = b ∨ a = 1%nat ∨ b = 1%nat.

(** The array with entry [n] doubled. *)
Definition doubled (n : nat) (A : Type) (l : list A) : list A :=
  take (S n) l ++ drop n l.

(** The model that [split_layer] hands to [update], attribute by attribute,
    when layer [n] has thickness [x]. *)
Definition split_result (m : Model) (n : nat) (x : Qc) : Model :=
  let m1 := map_fields (doubled n) m in
  let t := <[S n:=x / qz 2]> (<[n:=x / qz 2]> (thickn m1)) in
  set_vpvs (set_nlay (set_thickn m1 t) (nlay m + 1)%Z)
           (zip_with Qcdiv (vp m1) (vs m1)).

(** ** Sample values *)

(** An isotropic model from its thicknesses, densities, velocities and
    strikes, as the constructor builds it with [maxlay = 15]. *)
Definition isotropic_model (t r p s sk : list Qc) : Model :=
  let n := length t in
  state_of (_set_fattributes
    (mkModel (Z.of_nat n) t (map Some r) p s (zip_with Qcdiv p s)
             (replicate n 1%Z) (replicate n 0) (replicate n 0) (replicate n 0)
             sk (replicate n 0) 15
             [] [] [] [] [] [] [] [] [] [])).

(** The model of the docstring of [run_frs]: an isotropic crust over an
    isotropic half-space. *)
Definition crust_and_mantle : Model :=
  isotropic_model [qz 30000; qz 0] [qz 2800; qz 3300] [qz 6000; qz 8000]
                  [qz 3600; qz 4500] [0; 0].

Definition crust_row : layer_row :=
  mkLayer (qz 30000) (Some (qz 2800)) (qz 6000) (qz 3600) (qz 6000 / qz 3600)
          1 0 0 0 0 0.

(** Two crustal layers of 30 km and 10 km. *)
Definition two_layer_crust : Model :=
  isotropic_model [qz 30000; qz 10000] [qz 2800; qz 3300] [qz 6000; qz 8000]
                  [qz 3600; qz 4500] [0; 0].

(** The same two layers, the lower one striking at 10 degrees. *)
Definition turned_crust : Model :=
  isotropic_model [qz 30000; qz 10000] [qz 2800; qz 3300] [qz 6000; qz 8000]
                  [qz 3600; qz 4500] [0; qz 10].

(** Layer [i] lies in the inclusive range and is anisotropic (its flag is
    the false value). *)
Definition anisotropic_in (m : Model) (top bottom : nat) : Prop :=
  ∃ i, (top ≤ i ≤ bottom)%nat ∧ flag m !! i = Some 0%Z.

(** Two entries of the array inside the inclusive range differ. *)
Definition differs_in (l : list Qc) (top bottom : nat) : Prop :=
  ∃ i j x y, (top ≤ i ≤ bottom)%nat ∧ (top ≤ j ≤ bottom)%nat
             ∧ l !! i = Some x ∧ l !! j = Some y ∧ x ≠ y.

(** An array without the entries [top + 1 .. bot - 1]. *)
Definition removed (top bot : nat) (A : Type) (l : list A) : list A :=
  take (top + 1) l ++ drop bot l.

(** The model that [combine_layers] hands to [update], attribute by
    attribute, for the merged values [layer]. *)
Definition combine_result (m : Model) (top bottom : nat) (layer : merged) : Model :=
  let bot := (bottom + 1)%nat in
  let vp' := removed top bot _ (<[top:=l_vp layer]> (vp m)) in
  let vs' := removed top bot _ (<[top:=l_vs layer]> (vs m)) in
  mkModel (nlay m - (Z.of_nat bottom - Z.of_nat top))%Z
          (removed top bot _ (<[top:=l_thickn layer]> (thickn m)))
          (removed top bot _ (<[top:=Some (l_rho layer)]> (rho m)))
          vp' vs' (zip_with Qcdiv vp' vs')
          (removed top bot _ (flag m)) (removed top bot _ (ani m))
          (removed top bot _ (trend m)) (removed top bot _ (plunge m))
          (removed top bot _ (strike m)) (removed top bot _ (dip m))
          (maxlay m)
          (fthickn m) (frho m) (fvp m) (fvs m) (fflag m) (fani m)
          (ftrend m) (fplunge m) (fstrike m) (fdip m).

(** An array without entry [n]. *)
Definition deleted (n : nat) (A : Type) (l : list A) : list A :=
  take n l ++ drop (S n) l.

(** ** Directives of [Model.change] as text *)

(** The text [KEY LAYER SIGN VAL] of one directive. *)
Definition directive_text (k ds : list ascii) (sign : ascii) (v : list ascii)
    : string :=
  string_of_list_ascii (k ++ ds ++ sign :: v).

(** A value text that leaves the sign of the directive where it is: no
    [;] and no [=]; no [+] unless the sign is [=]; no [-] when the sign is
    [-]. *)
Definition value_text (sign : ascii) (v : list ascii) : Prop :=
  (";"%char ∉ v) ∧ ("="%char ∉ v)
  ∧ (sign ≠ "="%char → "+"%char ∉ v)
  ∧ (sign = "-"%char → "-"%char ∉ v).

(** The increment after the conversion from kilometres. *)
Definition converted (k : list ascii) (q : Qc) : Qc :=
  if bool_decide (k ∈ [str "t"; str "vp"; str "vs"]) then q * qz 1000 else q.

(** The value a directive stores, from the old value and the increment. *)
Definition applied (sign : ascii) (old inc : Qc) : Qc :=
  if decide (sign = "="%char) then inc
  else if decide (sign = "+"%char) then old + inc
  else old - inc.

(** The isotropy flag for an anisotropy. *)
Definition flag_for (an : Qc) : Z := if decide (an = 0) then 1%Z else 0%Z.

(** The model a directive hands to [update]: the value [x] stored at
    [lay] in the array of the key, and the flag of the layer set from its
    anisotropy. *)
Definition stored (a : attribute) (m : Model) (lay : nat) (x : Qc) : Model :=
  let m1 := attr_set a m (<[lay:=x]> (attr_get a m)) in
  set_flag m1 (<[lay:=flag_for (default 0 (ani m1 !! lay))]> (flag m1)).

(** The velocity a key holds fixed in [update]. *)
Definition fix_of (k : list ascii) : option string :=
  if decide (k = str "psp") then Some "vs"%string
  else if decide (k = str "pss") then Some "vp"%string
  else None.

(** What every entry of [ATT] satisfies: it reads and replaces one array,
    which is neither the flags nor touched by a change of the flags. *)
Record lens_laws (a : attribute) : Prop := mkLensLaws {
  get_set : ∀ m arr, attr_get a (attr_set a m arr) = arr;
  flag_set : ∀ m arr, flag (attr_set a m arr) = flag m;
  get_flag : ∀ m f, attr_get a (set_flag m f) = attr_get a m;
  set_set_flag : ∀ m arr f g,
    set_flag (set_flag (attr_set a m arr) f) g = set_flag (attr_set a m arr) g;
  length_get : ∀ m, well_formed m → length (attr_get a m) = length (thickn m)
}.

(** The sample collection for the two arrays, by the rule of the lengths. *)
Definition samples (b s : list Qc) : list (Qc * Qc) :=
  if decide (length b ≠ length s) then outer_grid b s else paired b s.

(** A stand-in for the numerical library, on which the statements about
    the engine can be run: the transforms add and remove a constant, the
    filter scales by the first coefficient, and the design returns
    coefficients that depend on how many designs came before. *)
Definition sample_numerics : Numerics :=
  {| cplx := Qc;
     fft := map (λ x, x + 1);
     ifft := map (λ x, x - 1);
     cdiv := Qcdiv;
     cneg := Qcopp;
     creal := id;
     lfilter := λ b a x, map (λ v, v * default 1 (head b)) x;
     butter := λ n order corners, Ok ([qz (Z.of_nat n) + qz 2], corners) |}.

(** How often the design function was called for the key [k]. *)
Definition designs_of (k : Z * list Qc) (c : cache) : nat :=
  length (filter (λ k', k' = k) (design_calls c)).

(** How many look-ups of a run asked for the key [k] and raised. *)
Fixpoint failures_of {A : Type} (k : Z * list Qc) (keys : list (Z * list Qc))
    (rs : list (result A)) : nat :=
  match keys, rs with
  | k' :: keys', r :: rs' =>
      ((if decide (k' = k)
        then match r with Err _ => 1 | Ok _ => 0 end else 0)
       + failures_of k keys' rs')%nat
  | _, _ => 0%nat
  end.

(** 1 when the dictionary holds coefficients for [k], 0 when it does not. *)
Definition held (k : Z * list Qc) (c : cache) : nat :=
  match cached_coefficients c !! k with Some _ => 1%nat | None => 0%nat end.

(** A stand-in for the numerical library whose design, like
    [scipy.signal.butter] for a digital filter, raises [ValueError] unless
    every corner lies strictly between 0 and 1 (the Nyquist frequency). *)
Definition strict_numerics : Numerics :=
  {| cplx := Qc;
     fft := map (λ x, x + 1);
     ifft := map (λ x, x - 1);
     cdiv := Qcdiv;
     cneg := Qcopp;
     creal := id;
     lfilter := λ b a x, map (λ v, v * default 1 (head b)) x;
     butter := λ n order corners,
       if forallb (λ w, bool_decide (0 < w) && bool_decide (w < 1)) corners
       then Ok ([qz (Z.of_nat n) + qz 2], corners)
       else Err ValueError |}.

(** ** The two pipelines side by side *)

(** Component [c] of trace [n], cropped to [npts] samples:
    [arr[c, :npts, n]]. *)
Definition column (arr : ndarray3) (c npts n : nat) : list Qc :=
  map (λ i, at3 arr c i n) (seq 0 npts).

Section Pipelines.
Context {N : Numerics}.

(** The zero-phase filter with given coefficients: remove the mean, filter,
    filter the reversed result, reverse. *)
Definition zero_phase (b a arr : list Qc) : list Qc :=
  rev (lfilter b a (rev (lfilter b a (map (λ x, x - np_mean arr) arr)))).

(** The receiver function of a numerator and a denominator waveform of one
    length. *)
Definition receiver_function (num den : list Qc) : list Qc :=
  fftshift (map creal (ifft (zip_with cdiv (fft num) (fft den)))).

(** The full pipeline that the batch is measured against, as it is
    described: [read_traces] with [rot = 2], [StreamList.calculate_rfs]
    with wave type [P], then on both receiver functions of every trace a
    Butterworth band-pass of order 2 whose corners are [fmin] and [fmax] as
    fractions of the Nyquist frequency, [2*dt*fmin] and [2*dt*fmax],
    applied zero-phase.  The design function of the library being indexed
    by the designs made before it, [k] says which design the filter is. *)
Definition full_pipeline (traces : ndarray3) (geom_ : list (Qc * Qc))
    (shift : Qc) (ntr_ npts : nat) (dt fmin fmax : Qc) (k : nat)
    : result (list (list Qc * list Qc)) :=
  streams ← read_traces traces geom_ dt 2 shift npts ntr_;
  rfs ← calculate_rfs streams 2 "P";
  ba ← butter k 2 [qz 2 * dt * fmin; qz 2 * dt * fmax];
  mapM (λ rfstream : Stream,
          rfr ← getitem rfstream 0;
          rft ← getitem rfstream 1;
          Ok (zero_phase ba.1 ba.2 (data rfr),
              zero_phase ba.1 ba.2 (data rft)))
       rfs.

(** The dictionary holds only what the design function returned: every
    pair in it is a design for its key. *)
Definition holds_designs (c : cache) : Prop :=
  ∀ order corners ba,
    cached_coefficients c !! (order, corners) = Some ba →
    ∃ k, butter k order corners = Ok ba.

(** From this cache every call of [_bandpass] filters with [b], [a] and
    leaves the cache [c1]. *)
Definition filters_with (dt fmin fmax : Qc) (b a : list Qc) (c1 c : cache)
    : Prop :=
  ∀ arr, _bandpass dt fmin fmax arr c = (Ok (zero_phase b a arr), c1).

End Pipelines.

(** The filtered receiver function of component [c] of trace [n] over
    component 0. *)
Definition filtered_rf {N : Numerics} (b a : list Qc) (arr : ndarray3)
    (npts n c : nat) : list Qc :=
  zero_phase b a (receiver_function (column arr c npts n) (column arr 0 npts n)).

(** The rows of the data frame of [read_traces] that belong to trace [j]. *)
Definition frame_rows (arr : ndarray3) (npts j : nat) : list frame_row :=
  map (λ i, mkRow (at3 arr 0 i j) (at3 arr 1 i j) (at3 arr 2 i j) j)
      (seq 0 npts).

(** The stream of trace [n] as [read_traces] builds it for [rot = 2]. *)
Definition unpacked (arr : ndarray3) (geom_ : list (Qc * Qc)) (dt shift : Qc)
    (npts n : nat) : Stream :=
  let g := default (0, 0) (geom_ !! n) in
  let taxis := map (λ i, qz (Z.of_nat i) * dt - shift) (seq 0 npts) in
  let mk (c : ascii) (d : list Qc) :=
    mkTrace d (mkStats g.1 g.2 "synt" "" dt (channel_name "BH" c) taxis
                       (length d)) in
  [mk "P"%char (column arr 0 npts n); mk "V"%char (column arr 1 npts n);
   mk "H"%char (column arr 2 npts n)].

(** The two receiver functions of trace [n], as [calculate_rfs] returns them
    for wave type [P] on the wave-aligned components: the second and the
    third component, each over the first. *)
Definition rfs_of {N : Numerics} (arr : ndarray3) (npts n : nat)
    (st : Stream) : Prop :=
  ∃ rfr rft, st = [rfr; rft]
    ∧ data rfr = receiver_function (column arr 1 npts n) (column arr 0 npts n)
    ∧ data rft = receiver_function (column arr 2 npts n) (column arr 0 npts n).

(** A small solver output, oversized in the sample axis, with two traces;
    an output array for it; and its geometry. *)
Definition sample_traces : ndarray3 :=
  mkArray3 3 4 2 (λ c i n, qz (Z.of_nat (c + 2 * i + 3 * n + 1))).

Definition sample_out : ndarray3 := mkArray3 2 2 3 (λ _ _ _, 0).

Definition sample_geometry : list (Qc * Qc) :=
  [(qz 0, qz 6 / qz 100); (qz 90, qz 6 / qz 100)].

(** ** More of class Model *)

(** [np.cumsum] on a one-dimensional array; [acc] is the sum so far. *)
Fixpoint cumsum_from (acc : Qc) (l : list Qc) : list Qc :=
  match l with
  | [] => []
  | x :: rest => (acc + x) :: cumsum_from (acc + x) rest
  end.

Definition np_cumsum (l : list Qc) : list Qc :=
  match l with
  | [] => []
  | x :: rest => x :: cumsum_from x rest
  end.

(** [Model.times]: [np.cumsum(thickn/vs - thickn/vp)[:-1]] *)
Definition times (m : Model) : result (list Qc) :=
  ts ← np_div (thickn m) (vs m);
  tp ← np_div (thickn m) (vp m);
  d ← np_binop Qcminus ts tp;
  Ok (removelast (np_cumsum d)).


(** The delay of the converted wave in layer [i]: the travel time of the S
    wave less that of the P wave. *)
Definition delays (m : Model) : list Qc :=
  zip_with Qcminus (zip_with Qcdiv (thickn m) (vs m))
                   (zip_with Qcdiv (thickn m) (vp m)).

(** The model that [remove_layer] hands to [_set_fattributes], attribute by
    attribute. *)
Definition remove_result (m : Model) (n : nat) : Model :=
  let m1 := map_fields (deleted n) m in
  set_vpvs (set_nlay m1 (nlay m - 1)%Z) (zip_with Qcdiv (vp m1) (vs m1)).

(** ** More about the directives of [Model.change] *)

(** A key as a directive can carry it, whether it is in the table or not:
    no digit, no white space at either end, none of [;=+-]. *)
Definition plain_key (k : list ascii) : Prop :=
  Forall (λ x, is_digit x = false) k ∧ strip k = k
  ∧ Forall (λ x, x ∉ str ";=+-") k.

(** Two outcomes with the same receiver, both returns or both raises. *)
Definition agree {S : Type} (o1 o2 : outcome S) : Prop :=
  match o1, o2 with
  | Normal a, Normal b => a = b
  | Raised _ a, Raised _ b => a = b
  | _, _ => False
  end.

(** ** More about the streams of [read_traces] *)

(** The stream of trace [n] as [read_traces] builds it with the component
    names [names]: one trace per name, the first three components of the
    array in order, each with its header. *)
Definition unpacked_as (names : list ascii) (arr : ndarray3)
    (geom_ : list (Qc * Qc)) (dt shift : Qc) (npts n : nat) : Stream :=
  let g := default (0, 0) (geom_ !! n) in
  let taxis := map (λ i, qz (Z.of_nat i) * dt - shift) (seq 0 npts) in
  zip_with
    (λ (c : ascii) (k : nat),
       mkTrace (column arr k npts n)
               (mkStats g.1 g.2 "synt" "" dt (channel_name "BH" c) taxis npts))
    names [0; 1; 2]%nat.

(** ** More about the receiver functions *)

(** The wave types that [calculate_rfs] knows. *)
Definition known_wvtype (wvtype : string) : Prop :=
  wvtype = "P"%string ∨ wvtype = "SV"%string ∨ wvtype = "SH"%string.

(** A stream of two receiver functions with the channel names [RF] +
    [c0] and [RF] + [c1], each with its sample count in the header. *)
Definition rf_pair (c0 c1 : ascii) (st : Stream) : Prop :=
  ∃ rfr rft, st = [rfr; rft]
    ∧ st_channel (stats rfr) = channel_name "RF" c0
    ∧ st_channel (stats rft) = channel_name "RF" c1
    ∧ st_npts (stats rfr) = length (data rfr)
    ∧ st_npts (stats rft) = length (data rft).

(** The streams of the sample solver output, read as radial, transverse
    and vertical components. *)
Definition sample_streams : list Stream :=
  map (unpacked_as (str "RTZ") sample_traces sample_geometry (qz 1) (qz 0) 3)
      (seq 0 2).

(** The two receiver functions of trace [n] with the components [num1] and
    [num2] over the component [den]. *)
Definition rfs_over {N : Numerics} (arr : ndarray3) (npts : nat)
    (num1 num2 den : nat) (n : nat) (st : Stream) : Prop :=
  ∃ rfr rft, st = [rfr; rft]
    ∧ data rfr = receiver_function (column arr num1 npts n)
                                   (column arr den npts n)
    ∧ data rft = receiver_function (column arr num2 npts n)
                                   (column arr den npts n).

(** The stand-in for the numerical library with a design that raises the
    first time it is called and returns afterwards. *)
Definition flaky_numerics : Numerics :=
  {| cplx := Qc;
     fft := map (λ x, x + 1);
     ifft := map (λ x, x - 1);
     cdiv := Qcdiv;
     cneg := Qcopp;
     creal := id;
     lfilter := λ b a x, map (λ v, v * default 1 (head b)) x;
     butter := λ n order corners,
       if decide (n = 0%nat) then Err ValueError
       else Ok ([qz (Z.of_nat n) + qz 2], corners) |}.

(** ** [run_frs] *)

(** The arguments of [fraysum.call_seis_spread], in the order of the call:
    the mirror of the model and its layer count, the export arrays of the
    geometry and its trace count, and the run parameters. *)
Record solver_call : Type := mkSolverCall {
  sc_model : Mirror;
  sc_nlay : Z;
  sc_fbaz : list Qc;
  sc_fslow : list Qc;
  sc_fdx : list Qc;
  sc_fdy : list Qc;
  sc_ntr : nat;
  sc_wvtype : string;
  sc_mults : Z;
  sc_npts : nat;
  sc_dt : Qc;
  sc_align : Z;
  sc_shift : Qc;
  sc_rot : Z;
  sc_verbose : Z
}.

(** A [StreamList]: the model, the geometry samples, the streams, the
    entries [rot] and [wvtype] of [args] that its methods read, and the
    attribute [rfs], which exists once [calculate_rfs] has run. *)
Record StreamList : Type := mkStreamList {
  sl_model : Model;
  sl_geom : list (Qc * Qc);
  sl_streams : list Stream;
  sl_rot : Z;
  sl_wvtype : string;
  sl_rfs : option (list Stream)
}.

Section RunFrs.
Context {N : Numerics}.

(** The compiled solver, which is not part of the module: it returns the
    array of traces or raises. *)
Variable call_seis_spread : solver_call → result ndarray3.

(** [run_frs].  The check of the keyword names goes over the function's own
    parameters and has nothing to reject. *)
Definition run_frs (model : Model) (geometry : Geometry) (verbose : bool)
    (wvtype : string) (mults : Z) (npts : nat) (dt : Qc) (align : Z)
    (shift : option Qc) (rot : Z) (rf : bool) : result StreamList :=
  let shift1 := match shift with
                | None => dt
                | Some x => x
                end in
  if rf && bool_decide (rot = 0%Z) then Err Exception
  else
    tr_ph ← call_seis_spread
              (mkSolverCall (mirror model) (nlay model)
                 (fbaz geometry) (fslow geometry) (fdx geometry)
                 (fdy geometry) (ntr geometry)
                 wvtype mults npts dt align shift1 rot
                 (if verbose then 1%Z else 0%Z));
    streams ← read_traces tr_ph (geom geometry) dt rot shift1 npts
                          (ntr geometry);
    let streamlist :=
      mkStreamList model (geom geometry) streams rot wvtype None in
    if rf then
      rfs ← calculate_rfs streams rot wvtype;
      Ok (mkStreamList model (geom geometry) streams rot wvtype (Some rfs))
    else Ok streamlist.

End RunFrs.

(** The receiver functions of a [P] wave: for [rot = 1] the components 0
    and 1 over component 2, for [rot = 2] the components 1 and 2 over
    component 0. *)
Definition p_wave_rfs {N : Numerics} (rot : Z) (arr : ndarray3) (npts : nat)
    (n : nat) (st : Stream) : Prop :=
  if decide (rot = 1%Z) then rfs_over arr npts 0 1 2 n st
  else rfs_over arr npts 1 2 0 n st.

(** The geometry of two rays that the constructor builds from two
    back-azimuths and one slowness for each. *)
Definition sample_rays : Geometry :=
  match Geometry_init (inr [qz 0; qz 90]) (inr [qz 6 / qz 100; qz 6 / qz 100])
                      [qz 0] [qz 0] 500 with
  | Ok g => g
  | Err _ => mkGeometry [] [] [] 0 [] [] [] [] [] []
  end.

(** A solver that answers every call with the sample array. *)
Definition sample_solver (call : solver_call) : result ndarray3 :=
  Ok sample_traces.

(** * Facts *)

(** ** Arrays *)

Lemma np_binop_same {A B C : Type} (f : A → B → C) (x : list A) (y : list B) :
  length x = length y → np_binop f x y = Ok (zip_with f x y).
Proof. intros H. unfold np_binop. by rewrite decide_True. Qed.

Lemma np_binop_ok {A B C : Type} (f : A → B → C) (x : list A) (y : list B) :
  np_compatible (length x) (length y) → ∃ l, np_binop f x y = Ok l.
Proof.
  unfold np_compatible, np_binop. intros H.
  destruct (decide (length x = length y)); [eauto|].
  destruct x as [|a [|a' x]], y as [|b [|b' y]]; simpl in *; eauto; lia.
Qed.

Lemma np_binop_err {A B C : Type} (f : A → B → C) (x : list A) (y : list B) e :
  np_binop f x y = Err e →
  e = ValueError ∧ ¬ np_compatible (length x) (length y).
Proof.
  unfold np_compatible, np_binop.
  destruct (decide (length x = length y)); [done|].
  destruct x as [|a [|a' x]], y as [|b [|b' y]]; simpl in *; try done.
  all: intros [= <-]; split; [done|lia].
Qed.

Lemma getitem_lookup {A : Type} (l : list A) (n : nat) (x : A) :
  l !! n = Some x → getitem l n = Ok x.
Proof. unfold getitem. by intros ->. Qed.

Lemma getitem_ok {A : Type} (l : list A) (n : nat) :
  (n < length l)%nat → ∃ x, l !! n = Some x ∧ getitem l n = Ok x.
Proof.
  intros H. destruct (lookup_lt_is_Some_2 l n H) as [x Hx].
  exists x. split; [done|]. by apply getitem_lookup.
Qed.

Lemma setitem_ok {A : Type} (l : list A) (n : nat) (x : A) :
  (n < length l)%nat → setitem l n x = Ok (<[n:=x]> l).
Proof. intros H. unfold setitem. by rewrite decide_True. Qed.

Lemma py_sum_acc (l : list Qc) (a : Qc) :
  fold_left Qcplus l a = a + total l.
Proof.
  revert a. induction l as [|x l IH]; intros a; simpl.
  - ring.
  - rewrite IH. ring.
Qed.

Lemma py_sum_total (l : list Qc) : py_sum l = total l.
Proof. unfold py_sum. rewrite py_sum_acc. ring. Qed.

Lemma total_app (l k : list Qc) : total (l ++ k) = total l + total k.
Proof.
  induction l as [|x l IH]; simpl.
  - ring.
  - rewrite IH. ring.
Qed.

Lemma radians_zero : degrees_to_radians 0 = 0.
Proof. unfold degrees_to_radians, Qcdiv. ring. Qed.

Lemma to_radians_padded (l : list Qc) (k : nat) :
  to_radians (l ++ np_zeros k) = map degrees_to_radians l ++ replicate k 0.
Proof.
  unfold to_radians, np_zeros. rewrite map_app. f_equal.
  induction k as [|k IH]; simpl; [done|].
  rewrite IH. f_equal. apply radians_zero.
Qed.

(** ** The mirror *)

Lemma well_formed_mirror_irrelevant (m : Model) (f : Mirror) :
  well_formed m → well_formed (with_mirror m f).
Proof. done. Qed.

(** [_set_fattributes] on a well-formed model succeeds exactly when the
    layers fit, and what it stores is the export view. *)
Lemma _set_fattributes_normal (m m' : Model) :
  well_formed m → _set_fattributes m = Normal m' →
  well_formed m' ∧ mirror_in_sync m'.
Proof.
  intros Hwf. unfold _set_fattributes.
  destruct (decide (nlay m ≤ maxlay m)%Z) as [Hle|]; [|done].
  intros [= <-]. split; [done|].
  destruct Hwf as (Hn & Hrho & Hvp & Hvs & _ & Hflag & Hani & Htr & Hpl & Hst & Hdip).
  unfold mirror_in_sync, export_view, mirror, pad_to. simpl.
  assert (Hk : ∀ n : nat, n = length (thickn m) →
            (Z.to_nat (maxlay m - nlay m) = Z.to_nat (maxlay m) - n)%nat)
    by (intros n ->; lia).
  rewrite !to_radians_padded, !length_map.
  rewrite <- (Hk _ Hrho), <- (Hk _ Hvp), <- (Hk _ Hvs), <- (Hk _ Hflag),
    <- (Hk _ Hani), <- (Hk _ Htr), <- (Hk _ Hpl), <- (Hk _ Hst),
    <- (Hk _ Hdip), <- (Hk _ eq_refl).
  unfold np_zeros. by rewrite fmap_replicate.
Qed.


Lemma _set_fattributes_raises (m : Model) :
  (maxlay m < nlay m)%Z → _set_fattributes m = Raised ValueError m.
Proof. intros H. unfold _set_fattributes. rewrite decide_False by lia. done. Qed.

(** ** [update] *)

Ltac wf_solve :=
  unfold well_formed in *; simpl in *;
  rewrite ?length_zip_with, ?length_insert, ?length_app, ?length_take,
    ?length_drop, ?length_map in *;
  simpl in *; intuition lia.

Lemma update_normal (m m' : Model) (fix_ : option string) :
  well_formed m → update m fix_ = Normal m' →
  well_formed m' ∧ mirror_in_sync m'.
Proof.
  intros Hwf. unfold update.
  assert (Hvs : length (vp m) = length (vs m)) by wf_solve.
  assert (Hk : length (vp m) = length (vpvs m)) by wf_solve.
  assert (Hk' : length (vs m) = length (vpvs m)) by wf_solve.
  destruct fix_ as [s|].
  - destruct (String.eqb s "vp").
    { unfold np_div. rewrite np_binop_same by done. simpl.
      apply _set_fattributes_normal. wf_solve. }
    destruct (String.eqb s "vs").
    { unfold np_mul. rewrite np_binop_same by done. simpl.
      apply _set_fattributes_normal. wf_solve. }
    destruct (String.eqb s "").
    { unfold np_div. rewrite np_binop_same by done. simpl.
      apply _set_fattributes_normal. wf_solve. }
    done.
  - unfold np_div. rewrite np_binop_same by done. simpl.
    apply _set_fattributes_normal. wf_solve.
Qed.

(** Without a velocity to hold fixed, [update] recomputes the ratio and then
    the mirror; it raises only when the layers do not fit. *)
Lemma update_None (m : Model) :
  length (vp m) = length (vs m) →
  update m None = _set_fattributes (set_vpvs m (zip_with Qcdiv (vp m) (vs m))).
Proof.
  intros H. unfold update, np_div. by rewrite np_binop_same.
Qed.

(** ** The loop over the user attributes *)

Lemma for_atts_cons (body : att → Model → outcome Model) (a : att)
    (rest : list att) (m m1 : Model) :
  body a m = Normal m1 →
  for_atts body (a :: rest) m = for_atts body rest m1.
Proof. intros H. cbn [for_atts]. rewrite H. done. Qed.

Lemma lift_ok {S A : Type} (s : S) (r : result A) (k : A → outcome S) (a : A) :
  r = Ok a → lift s r k = k a.
Proof. by intros ->. Qed.

(** Projections and attribute updates on a record given field by field. *)
Ltac flat :=
  cbv beta iota delta
    [lift obind on_att nlay thickn rho vp vs vpvs flag ani trend plunge strike
     dip maxlay fthickn frho fvp fvs fflag fani ftrend fplunge fstrike fdip
     set_thickn set_rho set_vp set_vs set_vpvs set_flag set_ani set_trend
     set_plunge set_strike set_dip set_nlay map_fields with_mirror mirror].

Ltac flat_in H :=
  cbv beta iota delta
    [lift obind on_att nlay thickn rho vp vs vpvs flag ani trend plunge strike
     dip maxlay fthickn frho fvp fvs fflag fani ftrend fplunge fstrike fdip
     set_thickn set_rho set_vp set_vs set_vpvs set_flag set_ani set_trend
     set_plunge set_strike set_dip set_nlay map_fields with_mirror mirror] in H.

Ltac att_step H :=
  erewrite for_atts_cons; [| flat; rewrite H; flat; reflexivity].

Lemma for_atts_on_att_ok (f : ∀ A : Type, list A → result (list A))
    (g : ∀ A : Type, list A → list A) (m : Model) :
  f _ (thickn m) = Ok (g _ (thickn m)) →
  f _ (rho m) = Ok (g _ (rho m)) →
  f _ (vp m) = Ok (g _ (vp m)) →
  f _ (vs m) = Ok (g _ (vs m)) →
  f _ (vpvs m) = Ok (g _ (vpvs m)) →
  f _ (flag m) = Ok (g _ (flag m)) →
  f _ (ani m) = Ok (g _ (ani m)) →
  f _ (trend m) = Ok (g _ (trend m)) →
  f _ (plunge m) = Ok (g _ (plunge m)) →
  f _ (strike m) = Ok (g _ (strike m)) →
  f _ (dip m) = Ok (g _ (dip m)) →
  for_atts (on_att f) _useratts m = Normal (map_fields g m).
Proof.
  destruct m as [n t r p s k fl a tr pl sk d mx ft fr fp fs ff fa ftr fpl fsk fd].
  flat. intros H1 H2 H3 H4 H5 H6 H7 H8 H9 H10 H11. unfold _useratts.
  att_step H1. att_step H2. att_step H3. att_step H4. att_step H5.
  att_step H6. att_step H7. att_step H8. att_step H9. att_step H10.
  att_step H11. reflexivity.
Qed.

Lemma for_atts_on_att_err (f : ∀ A : Type, list A → result (list A))
    (m : Model) (e : exn) :
  f _ (thickn m) = Err e →
  for_atts (on_att f) _useratts m = Raised e m.
Proof. intros H. unfold _useratts, for_atts, on_att. simpl. by rewrite H. Qed.

(** ** [split_layer] *)

Lemma duplicate_ok (n : nat) (A : Type) (l : list A) :
  (n < length l)%nat → duplicate n A l = Ok (doubled n A l).
Proof.
  intros H. unfold duplicate, doubled.
  destruct (getitem_ok l n H) as (x & Hx & ->). simpl.
  unfold np_insert. rewrite decide_True by lia.
  f_equal. rewrite (take_S_r l n x Hx), <- app_assoc. done.
Qed.

Lemma duplicate_err (n : nat) (A : Type) (l : list A) :
  (length l ≤ n)%nat → duplicate n A l = Err IndexError.
Proof.
  intros H. unfold duplicate, getitem. by rewrite lookup_ge_None_2.
Qed.

Lemma length_doubled (n : nat) (A : Type) (l : list A) :
  (n < length l)%nat → length (doubled n A l) = S (length l).
Proof. intros H. unfold doubled. rewrite length_app, length_take, length_drop. lia. Qed.

Lemma lookup_doubled_lt (n i : nat) (A : Type) (l : list A) :
  (i ≤ n)%nat → doubled n A l !! i = l !! i.
Proof.
  intros H. unfold doubled.
  destruct (decide (S n ≤ length l)%nat).
  - rewrite lookup_app_l by (rewrite length_take; lia).
    apply lookup_take_lt. lia.
  - rewrite take_ge by lia. rewrite drop_ge by lia. by rewrite app_nil_r.
Qed.

Lemma lookup_doubled_ge (n i : nat) (A : Type) (l : list A) :
  (n < length l)%nat → (n < i)%nat → doubled n A l !! i = l !! (i - 1)%nat.
Proof.
  intros Hn H. unfold doubled.
  rewrite lookup_app_r by (rewrite length_take; lia).
  rewrite length_take, lookup_drop. f_equal. lia.
Qed.

Lemma halve_thickn_ok (n : nat) (m : Model) (x : Qc) :
  thickn m !! n = Some x →
  halve_thickn n m = Normal (set_thickn m (<[n:=x / qz 2]> (thickn m))).
Proof.
  intros H. unfold halve_thickn.
  rewrite (getitem_lookup _ _ _ H). cbn [mbind result_bind].
  rewrite setitem_ok by (by eapply lookup_lt_Some). done.
Qed.

Lemma split_layer_attributes (m : Model) (n : nat) :
  well_formed m → (n < length (thickn m))%nat →
  for_atts (on_att (duplicate n)) _useratts m
  = Normal (map_fields (doubled n) m).
Proof.
  intros Hwf Hn.
  apply for_atts_on_att_ok; apply duplicate_ok; wf_solve.
Qed.

Lemma split_layer_runs (m : Model) (n : nat) (x : Qc) :
  well_formed m → thickn m !! n = Some x →
  split_layer m n = _set_fattributes (split_result m n x).
Proof.
  intros Hwf Hx.
  assert (Hn : (n < length (thickn m))%nat) by (by eapply lookup_lt_Some).
  unfold split_layer. rewrite split_layer_attributes by done.
  cbn [obind].
  rewrite (halve_thickn_ok n _ x)
    by (cbn [map_fields thickn]; rewrite lookup_doubled_lt by lia; done).
  cbn [obind].
  rewrite (halve_thickn_ok (n + 1) _ x).
  2:{ cbn [map_fields set_thickn thickn].
      rewrite list_lookup_insert_ne by lia.
      rewrite lookup_doubled_ge by lia.
      by replace (n + 1 - 1)%nat with n by lia. }
  cbn [obind]. rewrite update_None.
  2:{ cbn [map_fields set_thickn set_nlay vp vs].
      rewrite !length_doubled by wf_solve. wf_solve. }
  replace (n + 1)%nat with (S n) by lia.
  reflexivity.
Qed.

(** The user attributes are not touched by [_set_fattributes]. *)
Lemma layer_set_fattributes (m : Model) (i : nat) :
  layer (state_of (_set_fattributes m)) i = layer m i.
Proof. unfold _set_fattributes. by destruct (decide _). Qed.

Lemma thickn_set_fattributes (m : Model) :
  thickn (state_of (_set_fattributes m)) = thickn m.
Proof. unfold _set_fattributes. by destruct (decide _). Qed.

Lemma nlay_set_fattributes (m : Model) :
  nlay (state_of (_set_fattributes m)) = nlay m.
Proof. unfold _set_fattributes. by destruct (decide _). Qed.

Lemma well_formed_set_fattributes (m : Model) :
  well_formed m → well_formed (state_of (_set_fattributes m)).
Proof. unfold _set_fattributes. by destruct (decide _). Qed.

Lemma _set_fattributes_cases (m : Model) :
  (nlay m ≤ maxlay m)%Z
    ∧ _set_fattributes m = Normal (state_of (_set_fattributes m))
  ∨ (maxlay m < nlay m)%Z
    ∧ _set_fattributes m = Raised ValueError (state_of (_set_fattributes m)).
Proof.
  unfold _set_fattributes. destruct (decide _); simpl; [left|right]; split; (lia || done).
Qed.

Lemma doubled_middle {A : Type} (n : nat) (l : list A) (x : A) :
  l !! n = Some x →
  doubled n A l = take n l ++ x :: x :: drop (S n) l.
Proof.
  intros H. unfold doubled.
  rewrite (take_S_r l n x H), <- app_assoc. simpl.
  by rewrite (drop_S l x n H).
Qed.

Lemma doubled_zip_with {A B C : Type} (f : A → B → C) (n : nat)
    (l : list A) (k : list B) :
  length l = length k →
  zip_with f (doubled n A l) (doubled n B k) = doubled n C (zip_with f l k).
Proof.
  intros H. unfold doubled.
  rewrite zip_with_app by (rewrite !length_take; lia).
  by rewrite zip_with_take, zip_with_drop.
Qed.

Lemma halved_pair (l : list Qc) (n : nat) (x : Qc) :
  l !! n = Some x →
  <[S n:=x / qz 2]> (<[n:=x / qz 2]> (doubled n Qc l))
  = take n l ++ x / qz 2 :: x / qz 2 :: drop (S n) l.
Proof.
  intros H. rewrite (doubled_middle n l x H).
  assert (Hn : length (take n l) = n).
  { rewrite length_take. apply lookup_lt_Some in H. lia. }
  rewrite (insert_app_r_alt _ _ n) by lia.
  rewrite (insert_app_r_alt _ _ (S n)) by lia.
  rewrite Hn. replace (n - n)%nat with 0%nat by lia.
  replace (S n - n)%nat with 1%nat by lia. done.
Qed.

Lemma qz_two : qz 2 = 1 + 1.
Proof. by apply Qc_is_canon. Qed.

Lemma half_and_half (x : Qc) : x / qz 2 + x / qz 2 = x.
Proof. rewrite qz_two. field. discriminate. Qed.

Lemma total_halved_pair (l : list Qc) (n : nat) (x : Qc) :
  l !! n = Some x →
  total (take n l ++ x / qz 2 :: x / qz 2 :: drop (S n) l) = total l.
Proof.
  intros H. rewrite <- (take_drop_middle l n x H) at 3.
  rewrite !total_app. simpl.
  rewrite <- (half_and_half x) at 3. ring.
Qed.

(** ** Layers *)

Lemma layer_Some (m : Model) (i : nat) (r : layer_row) :
  layer m i = Some r ↔
  thickn m !! i = Some (r_thickn r) ∧ rho m !! i = Some (r_rho r)
  ∧ vp m !! i = Some (r_vp r) ∧ vs m !! i = Some (r_vs r)
  ∧ vpvs m !! i = Some (r_vpvs r) ∧ flag m !! i = Some (r_flag r)
  ∧ ani m !! i = Some (r_ani r) ∧ trend m !! i = Some (r_trend r)
  ∧ plunge m !! i = Some (r_plunge r) ∧ strike m !! i = Some (r_strike r)
  ∧ dip m !! i = Some (r_dip r).
Proof.
  unfold layer. split.
  - intros H.
    destruct (thickn m !! i), (rho m !! i), (vp m !! i), (vs m !! i),
      (vpvs m !! i), (flag m !! i), (ani m !! i), (trend m !! i),
      (plunge m !! i), (strike m !! i), (dip m !! i); simpl in H; try done.
    by injection H as <-.
  - intros (-> & -> & -> & -> & -> & -> & -> & -> & -> & -> & ->).
    by destruct r.
Qed.

Lemma layer_ext (m m' : Model) (i j : nat) :
  thickn m' !! i = thickn m !! j → rho m' !! i = rho m !! j →
  vp m' !! i = vp m !! j → vs m' !! i = vs m !! j →
  vpvs m' !! i = vpvs m !! j → flag m' !! i = flag m !! j →
  ani m' !! i = ani m !! j → trend m' !! i = trend m !! j →
  plunge m' !! i = plunge m !! j → strike m' !! i = strike m !! j →
  dip m' !! i = dip m !! j →
  layer m' i = layer m j.
Proof. unfold layer. by intros -> -> -> -> -> -> -> -> -> -> ->. Qed.

Lemma layer_is_Some (m : Model) (i : nat) :
  well_formed m → (i < length (thickn m))%nat → is_Some (layer m i).
Proof.
  intros Hwf Hi. unfold layer.
  destruct (lookup_lt_is_Some_2 (thickn m) i) as [? ->]; [wf_solve|].
  destruct (lookup_lt_is_Some_2 (rho m) i) as [? ->]; [wf_solve|].
  destruct (lookup_lt_is_Some_2 (vp m) i) as [? ->]; [wf_solve|].
  destruct (lookup_lt_is_Some_2 (vs m) i) as [? ->]; [wf_solve|].
  destruct (lookup_lt_is_Some_2 (vpvs m) i) as [? ->]; [wf_solve|].
  destruct (lookup_lt_is_Some_2 (flag m) i) as [? ->]; [wf_solve|].
  destruct (lookup_lt_is_Some_2 (ani m) i) as [? ->]; [wf_solve|].
  destruct (lookup_lt_is_Some_2 (trend m) i) as [? ->]; [wf_solve|].
  destruct (lookup_lt_is_Some_2 (plunge m) i) as [? ->]; [wf_solve|].
  destruct (lookup_lt_is_Some_2 (strike m) i) as [? ->]; [wf_solve|].
  destruct (lookup_lt_is_Some_2 (dip m) i) as [? ->]; [wf_solve|].
  simpl. eauto.
Qed.

(** ** [split_layer] on a well-formed model *)

Lemma split_result_vpvs (m : Model) (n : nat) (x : Qc) :
  well_formed m → vpvs_consistent m →
  vpvs (split_result m n x) = doubled n Qc (vpvs m).
Proof.
  intros Hwf Hc. unfold split_result. cbn [set_vpvs vpvs map_fields vp vs].
  rewrite doubled_zip_with by wf_solve. by rewrite Hc.
Qed.

Lemma well_formed_split_result (m : Model) (n : nat) (x : Qc) :
  well_formed m → (n < length (thickn m))%nat →
  well_formed (split_result m n x).
Proof.
  intros Hwf Hn. unfold split_result, well_formed.
  cbn [set_vpvs set_nlay set_thickn map_fields nlay thickn rho vp vs vpvs flag
       ani trend plunge strike dip].
  rewrite length_zip_with, !length_insert, !length_doubled by wf_solve.
  wf_solve.
Qed.

Lemma split_result_before (m : Model) (n i : nat) (x : Qc) :
  well_formed m → vpvs_consistent m → (i < n)%nat →
  layer (split_result m n x) i = layer m i.
Proof.
  intros Hwf Hc Hi.
  apply layer_ext; try rewrite split_result_vpvs by done;
    unfold split_result;
    cbn [set_vpvs set_nlay set_thickn map_fields nlay thickn rho vp vs vpvs
         flag ani trend plunge strike dip];
    rewrite ?list_lookup_insert_ne by lia; apply lookup_doubled_lt; lia.
Qed.

Lemma split_result_after (m : Model) (n i : nat) (x : Qc) :
  well_formed m → vpvs_consistent m → (n < length (thickn m))%nat →
  (n + 1 < i)%nat →
  layer (split_result m n x) i = layer m (i - 1).
Proof.
  intros Hwf Hc Hn Hi.
  apply layer_ext; try rewrite split_result_vpvs by done;
    unfold split_result;
    cbn [set_vpvs set_nlay set_thickn map_fields nlay thickn rho vp vs vpvs
         flag ani trend plunge strike dip];
    rewrite ?list_lookup_insert_ne by lia; apply lookup_doubled_ge; wf_solve.
Qed.

Lemma split_result_halves (m : Model) (n i : nat) (r : layer_row) :
  well_formed m → vpvs_consistent m → layer m n = Some r →
  i = n ∨ i = S n →
  layer (split_result m n (r_thickn r)) i
  = Some (with_thickn r (r_thickn r / qz 2)).
Proof.
  intros Hwf Hc Hr Hi.
  apply layer_Some in Hr as Hr'.
  destruct Hr' as (Ht & Hrest).
  assert (Hn : (n < length (thickn m))%nat) by (by eapply lookup_lt_Some).
  apply layer_Some. cbn [with_thickn r_thickn r_rho r_vp r_vs r_vpvs r_flag
    r_ani r_trend r_plunge r_strike r_dip].
  rewrite split_result_vpvs by done.
  unfold split_result.
  cbn [set_vpvs set_nlay set_thickn map_fields nlay thickn rho vp vs vpvs
       flag ani trend plunge strike dip].
  split.
  - rewrite (halved_pair _ _ _ Ht).
    assert (Hl : length (take n (thickn m)) = n) by (rewrite length_take; lia).
    rewrite lookup_app_r by lia. rewrite Hl.
    destruct Hi as [-> | ->].
    + by replace (n - n)%nat with 0%nat by lia.
    + by replace (S n - n)%nat with 1%nat by lia.
  - destruct Hi as [-> | ->].
    + rewrite !lookup_doubled_lt by lia. done.
    + rewrite !lookup_doubled_ge by wf_solve.
      replace (S n - 1)%nat with n by lia. done.
Qed.

(** C8. [split_layer(n)] on a model whose arrays agree in length and whose
    ratio array is the current [vp / vs]: the total thickness is the same
    before and after, the layer count grows by one, layers [n] and [n + 1] both
    carry the row of the old layer [n] with half its thickness, the two halves
    add up to the old thickness, and every other layer keeps its row (those
    below the split one place further down).  The attributes are as described
    whether [update] then returns or, the model being at capacity, raises. *)
Theorem split_layer_preserves (m : Model) (n : nat) (r : layer_row) :
  well_formed m → vpvs_consistent m → layer m n = Some r →
  let m' := state_of (split_layer m n) in
  ((nlay m < maxlay m)%Z ∧ split_layer m n = Normal m'
   ∨ (maxlay m ≤ nlay m)%Z ∧ split_layer m n = Raised ValueError m')
  ∧ py_sum (thickn m') = py_sum (thickn m)
  ∧ nlay m' = (nlay m + 1)%Z
  ∧ well_formed m'
  ∧ layer m' n = Some (with_thickn r (r_thickn r / qz 2))
  ∧ layer m' (n + 1) = Some (with_thickn r (r_thickn r / qz 2))
  ∧ r_thickn r / qz 2 + r_thickn r / qz 2 = r_thickn r
  ∧ (∀ i, (i < n)%nat → layer m' i = layer m i)
  ∧ (∀ i, (n + 1 < i)%nat → layer m' i = layer m (i - 1)).
Proof.
  intros Hwf Hc Hr m'.
  pose proof (proj1 (layer_Some m n r) Hr) as (Ht & _).
  assert (Hn : (n < length (thickn m))%nat) by (by eapply lookup_lt_Some).
  subst m'. rewrite (split_layer_runs m n _ Hwf Ht).
  set (s := split_result m n (r_thickn r)).
  assert (Hnl : nlay s = (nlay m + 1)%Z) by done.
  assert (Hml : maxlay s = maxlay m) by done.
  split; [|split; [|split; [|split; [|split; [|split; [|split; [|split]]]]]]].
  - destruct (_set_fattributes_cases s) as [[? ->]|[? ->]]; [left|right];
      simpl; split; (lia || done).
  - rewrite thickn_set_fattributes, !py_sum_total. subst s.
    unfold split_result. cbn [set_vpvs set_nlay set_thickn map_fields thickn].
    rewrite (halved_pair _ _ _ Ht). by apply total_halved_pair.
  - by rewrite nlay_set_fattributes.
  - apply well_formed_set_fattributes. by apply well_formed_split_result.
  - rewrite layer_set_fattributes. apply split_result_halves; auto.
  - rewrite layer_set_fattributes. apply split_result_halves; auto.
    right. lia.
  - apply half_and_half.
  - intros i Hi. rewrite layer_set_fattributes.
    by apply split_result_before.
  - intros i Hi. rewrite layer_set_fattributes.
    by apply split_result_after.
Qed.


Lemma split_layer_preserves_witness :
  well_formed crust_and_mantle ∧ vpvs_consistent crust_and_mantle
  ∧ layer crust_and_mantle 0 = Some crust_row
  ∧ py_sum (thickn (state_of (split_layer crust_and_mantle 0)))
    = py_sum (thickn crust_and_mantle).
Proof.
  split; [repeat split|]. split; [reflexivity|]. split; [reflexivity|].
  apply (split_layer_preserves crust_and_mantle 0 crust_row);
    [repeat split | reflexivity | reflexivity].
Defined.

(** ** Slices *)

Lemma lookup_slice {A : Type} (l : list A) (a b k : nat) :
  (k < b - a)%nat → slice a b l !! k = l !! (a + k)%nat.
Proof.
  intros H. unfold slice. rewrite lookup_take_lt by done. apply lookup_drop.
Qed.

Lemma length_slice {A : Type} (l : list A) (a b : nat) :
  (b ≤ length l)%nat → length (slice a b l) = (b - a)%nat.
Proof. intros H. unfold slice. rewrite length_take, length_drop. lia. Qed.

Lemma py_all_true {A : Type} (f : A → bool) (l : list A) :
  py_all (map f l) = true ↔ ∀ k x, l !! k = Some x → f x = true.
Proof.
  unfold py_all. induction l as [|y l IH]; simpl.
  - split; [|done]. by intros _ k x.
  - unfold id at 1. rewrite andb_true_iff, IH. split.
    + intros [Hy Hl] [|k] x; simpl; [by intros [= <-]|]. apply Hl.
    + intros H. split; [by apply (H 0%nat)|].
      intros k x Hk. by apply (H (S k)).
Qed.

Lemma py_all_slice_false {A : Type} (f : A → bool) (l : list A)
    (top bot i : nat) (x : A) :
  (top ≤ i < bot)%nat → l !! i = Some x → f x = false →
  py_all (map f (slice top bot l)) = false.
Proof.
  intros Hi Hx Hf.
  destruct (py_all (map f (slice top bot l))) eqn:E; [|done].
  rewrite py_all_true in E.
  specialize (E (i - top)%nat x). rewrite lookup_slice in E by lia.
  replace (top + (i - top))%nat with i in E by lia.
  rewrite E in Hf; done.
Qed.

Lemma py_all_slice_true {A : Type} (f : A → bool) (l : list A) (top bot : nat) :
  (∀ i x, (top ≤ i < bot)%nat → l !! i = Some x → f x = true) →
  py_all (map f (slice top bot l)) = true.
Proof.
  intros H. apply py_all_true. intros k x Hk.
  assert (Hlt : (k < bot - top)%nat).
  { apply lookup_lt_Some in Hk. unfold slice in Hk.
    rewrite length_take in Hk. lia. }
  rewrite lookup_slice in Hk by done.
  apply (H (top + k)%nat); [lia|done].
Qed.

Lemma slice_head {A : Type} (l : list A) (top bot i : nat) (x : A) :
  (top ≤ i < bot)%nat → l !! i = Some x →
  ∃ x0, l !! top = Some x0 ∧ getitem (slice top bot l) 0 = Ok x0.
Proof.
  intros Hi Hx.
  destruct (lookup_lt_is_Some_2 l top) as [x0 Hx0].
  { apply lookup_lt_Some in Hx. lia. }
  exists x0. split; [done|]. apply getitem_lookup.
  rewrite lookup_slice by lia. by rewrite Nat.add_0_r.
Qed.

Lemma differs_from_head (l : list Qc) (top bottom : nat) :
  differs_in l top bottom →
  ∃ x0, getitem (slice top (bottom + 1) l) 0 = Ok x0
        ∧ py_all (map (λ d, bool_decide (x0 = d)) (slice top (bottom + 1) l))
          = false.
Proof.
  intros (i & j & x & y & Hi & Hj & Hx & Hy & Hne).
  destruct (slice_head l top (bottom + 1) i x) as (x0 & Hx0 & Hg); [lia|done|].
  exists x0. split; [done|].
  destruct (decide (x0 = x)) as [->|Hd].
  - apply (py_all_slice_false _ l top (bottom + 1) j y); [lia|done|].
    by apply bool_decide_eq_false.
  - apply (py_all_slice_false _ l top (bottom + 1) i x); [lia|done|].
    by apply bool_decide_eq_false.
Qed.

Lemma same_as_head (l : list Qc) (top bottom : nat) :
  (top ≤ bottom)%nat → (top < length l)%nat → ¬ differs_in l top bottom →
  ∃ x0, getitem (slice top (bottom + 1) l) 0 = Ok x0
        ∧ py_all (map (λ d, bool_decide (x0 = d)) (slice top (bottom + 1) l))
          = true.
Proof.
  intros Hle Hlt Hsame.
  destruct (lookup_lt_is_Some_2 l top Hlt) as [x0 Hx0].
  destruct (slice_head l top (bottom + 1) top x0) as (y & Hy & Hg);
    [lia|done|].
  assert (y = x0) as -> by congruence.
  exists x0. split; [done|].
  apply py_all_slice_true. intros i x Hi Hx.
  apply bool_decide_eq_true. destruct (decide (x0 = x)) as [|Hne]; [done|].
  destruct Hsame. exists top, i, x0, x. repeat split; (lia || done).
Qed.

(** ** [combine_layers]: the refusals *)

Lemma combine_checks_raise (m : Model) (top bottom : nat) (e : exn) :
  combine_checks m top bottom = Err e →
  combine_layers m top bottom = Raised e m.
Proof. intros H. unfold combine_layers. by rewrite H. Qed.

Lemma combine_checks_order (m : Model) (top bottom : nat) :
  (bottom ≤ top)%nat → combine_checks m top bottom = Err IndexError.
Proof. intros H. unfold combine_checks. by rewrite decide_True. Qed.

Lemma combine_checks_anisotropic (m : Model) (top bottom : nat) :
  (top < bottom)%nat → anisotropic_in m top bottom →
  combine_checks m top bottom = Err ValueError.
Proof.
  intros Hlt (i & Hi & Hf). unfold combine_checks.
  rewrite decide_False by lia.
  rewrite (py_all_slice_false _ (flag m) top (bottom + 1) i 0%Z); (lia || done).
Qed.

Lemma combine_checks_dip (m : Model) (top bottom : nat) :
  (top < bottom)%nat → differs_in (dip m) top bottom →
  combine_checks m top bottom = Err ValueError.
Proof.
  intros Hlt Hd. unfold combine_checks.
  rewrite decide_False by lia.
  destruct (negb (py_all _)); [done|].
  destruct (differs_from_head _ _ _ Hd) as (d0 & -> & Hall).
  cbn [mbind result_bind]. by rewrite Hall.
Qed.

Lemma combine_checks_strike (m : Model) (top bottom : nat) :
  (top < bottom)%nat → length (dip m) = length (strike m) →
  differs_in (strike m) top bottom →
  combine_checks m top bottom = Err ValueError.
Proof.
  intros Hlt Hlen Hs.
  unfold combine_checks. rewrite decide_False by lia.
  destruct (negb (py_all _)); [done|].
  assert (Htop : (top < length (dip m))%nat).
  { destruct Hs as (i & _ & x & _ & Hi & _ & Hx & _).
    apply lookup_lt_Some in Hx. lia. }
  destruct (lookup_lt_is_Some_2 _ _ Htop) as [d Hd].
  destruct (slice_head (dip m) top (bottom + 1) top d) as (d0 & _ & ->);
    [lia|done|].
  cbn [mbind result_bind].
  destruct (negb (py_all _)); [done|].
  destruct (differs_from_head _ _ _ Hs) as (s0 & -> & Hall').
  cbn [mbind result_bind]. by rewrite Hall'.
Qed.

(** C6. [combine_layers(top, bottom)] raises [IndexError] when
    [bottom <= top], and raises [ValueError], a different exception, when
    [top < bottom] and a layer of the inclusive range is flagged anisotropic
    or two layers of the range differ in dip or in strike (the arrays of the
    model agreeing in length).  In each case the model is, at the raise,
    the model before the call. *)
Theorem combine_layers_refuses (m : Model) (top bottom : nat) (e : exn) :
  ((bottom ≤ top)%nat ∧ e = IndexError)
  ∨ ((top < bottom)%nat ∧ well_formed m ∧ e = ValueError
     ∧ (anisotropic_in m top bottom ∨ differs_in (dip m) top bottom
        ∨ differs_in (strike m) top bottom)) →
  combine_layers m top bottom = Raised e m ∧ IndexError ≠ ValueError.
Proof.
  intros H. split; [|done].
  apply combine_checks_raise.
  destruct H as [[Hle ->] | (Hlt & Hwf & -> & [Ha | [Hd | Hs]])].
  - by apply combine_checks_order.
  - by apply combine_checks_anisotropic.
  - by apply combine_checks_dip.
  - apply combine_checks_strike; [done | wf_solve | done].
Qed.

(** ** [combine_layers]: the merge *)

Ltac fields :=
  cbn [nlay thickn rho vp vs vpvs flag ani trend plunge strike dip maxlay
       set_thickn set_rho set_vp set_vs set_vpvs set_flag set_ani set_trend
       set_plunge set_strike set_dip set_nlay map_fields].

Lemma np_delete_range_ok {A : Type} (l : list A) (top bot : nat) :
  (top + 1 < bot ≤ length l)%nat →
  np_delete_range l (top + 1) bot = Ok (removed top bot A l).
Proof.
  intros H. unfold np_delete_range, removed.
  rewrite decide_False by lia. by rewrite decide_True by lia.
Qed.

Lemma length_removed {A : Type} (l : list A) (top bot : nat) :
  (top + 1 < bot ≤ length l)%nat →
  length (removed top bot A l) = (length l - (bot - (top + 1)))%nat.
Proof.
  intros H. unfold removed. rewrite length_app, length_take, length_drop. lia.
Qed.

Ltac combine_body_tac :=
  intros; unfold combine_body; rewrite ?setitem_ok by lia;
  cbn [lift obind on_att]; fields;
  rewrite np_delete_range_ok by (rewrite ?length_insert; lia);
  reflexivity.

Lemma combine_body_thickn (layer : merged) (top bot : nat) (m : Model) :
  (top + 1 < bot ≤ length (thickn m))%nat →
  combine_body layer top bot Athickn m
  = Normal (set_thickn m (removed top bot _ (<[top:=l_thickn layer]> (thickn m)))).
Proof. combine_body_tac. Qed.

Lemma combine_body_rho (layer : merged) (top bot : nat) (m : Model) :
  (top + 1 < bot ≤ length (rho m))%nat →
  combine_body layer top bot Arho m
  = Normal (set_rho m (removed top bot _ (<[top:=Some (l_rho layer)]> (rho m)))).
Proof. combine_body_tac. Qed.

Lemma combine_body_vp (layer : merged) (top bot : nat) (m : Model) :
  (top + 1 < bot ≤ length (vp m))%nat →
  combine_body layer top bot Avp m
  = Normal (set_vp m (removed top bot _ (<[top:=l_vp layer]> (vp m)))).
Proof. combine_body_tac. Qed.

Lemma combine_body_vs (layer : merged) (top bot : nat) (m : Model) :
  (top + 1 < bot ≤ length (vs m))%nat →
  combine_body layer top bot Avs m
  = Normal (set_vs m (removed top bot _ (<[top:=l_vs layer]> (vs m)))).
Proof. combine_body_tac. Qed.

Lemma combine_body_vpvs (layer : merged) (top bot : nat) (m : Model) :
  (top + 1 < bot ≤ length (vpvs m))%nat →
  combine_body layer top bot Avpvs m
  = Normal (set_vpvs m (removed top bot _ (vpvs m))).
Proof. combine_body_tac. Qed.

Lemma combine_body_flag (layer : merged) (top bot : nat) (m : Model) :
  (top + 1 < bot ≤ length (flag m))%nat →
  combine_body layer top bot Aflag m
  = Normal (set_flag m (removed top bot _ (flag m))).
Proof. combine_body_tac. Qed.

Lemma combine_body_ani (layer : merged) (top bot : nat) (m : Model) :
  (top + 1 < bot ≤ length (ani m))%nat →
  combine_body layer top bot Aani m
  = Normal (set_ani m (removed top bot _ (ani m))).
Proof. combine_body_tac. Qed.

Lemma combine_body_trend (layer : merged) (top bot : nat) (m : Model) :
  (top + 1 < bot ≤ length (trend m))%nat →
  combine_body layer top bot Atrend m
  = Normal (set_trend m (removed top bot _ (trend m))).
Proof. combine_body_tac. Qed.

Lemma combine_body_plunge (layer : merged) (top bot : nat) (m : Model) :
  (top + 1 < bot ≤ length (plunge m))%nat →
  combine_body layer top bot Aplunge m
  = Normal (set_plunge m (removed top bot _ (plunge m))).
Proof. combine_body_tac. Qed.

Lemma combine_body_strike (layer : merged) (top bot : nat) (m : Model) :
  (top + 1 < bot ≤ length (strike m))%nat →
  combine_body layer top bot Astrike m
  = Normal (set_strike m (removed top bot _ (strike m))).
Proof. combine_body_tac. Qed.

Lemma combine_body_dip (layer : merged) (top bot : nat) (m : Model) :
  (top + 1 < bot ≤ length (dip m))%nat →
  combine_body layer top bot Adip m
  = Normal (set_dip m (removed top bot _ (dip m))).
Proof. combine_body_tac. Qed.

Ltac combine_step lem :=
  erewrite for_atts_cons; [| rewrite lem by (flat; lia); flat; reflexivity].

Lemma combine_layers_runs (m : Model) (top bottom : nat) (layer : merged) :
  well_formed m → (top < bottom < length (thickn m))%nat →
  combine_checks m top bottom = Ok () →
  combine_layer m top (bottom + 1) = Ok layer →
  combine_layers m top bottom
  = _set_fattributes (combine_result m top bottom layer).
Proof.
  intros Hwf Hr Hc Hl.
  unfold combine_layers. rewrite Hc, Hl. cbn [lift]. unfold combine_result.
  destruct m as [n t r p s k fl a tr pl sk d mx ft fr fp fs ff fa ftr fpl fsk fd].
  unfold well_formed in Hwf. flat_in Hwf. flat_in Hr. flat.
  destruct Hwf as (Hn & Hrho & Hvp & Hvs & Hk & Hflag & Hani & Htr & Hpl & Hst & Hdip).
  unfold _useratts.
  combine_step combine_body_thickn. combine_step combine_body_rho.
  combine_step combine_body_vp. combine_step combine_body_vs.
  combine_step combine_body_vpvs. combine_step combine_body_flag.
  combine_step combine_body_ani. combine_step combine_body_trend.
  combine_step combine_body_plunge. combine_step combine_body_strike.
  combine_step combine_body_dip.
  cbn [for_atts]. rewrite update_None.
  2:{ flat. rewrite !length_removed by (rewrite length_insert; lia).
      rewrite !length_insert. lia. }
  flat. reflexivity.
Qed.

Lemma lookup_removed_le {A : Type} (l : list A) (top bot i : nat) :
  (i ≤ top)%nat → (top < length l)%nat → removed top bot A l !! i = l !! i.
Proof.
  intros Hi Hl. unfold removed.
  rewrite lookup_app_l by (rewrite length_take; lia).
  apply lookup_take_lt. lia.
Qed.

Lemma lookup_removed_gt {A : Type} (l : list A) (top bottom i : nat) :
  (top < i)%nat → (top < bottom < length l)%nat →
  removed top (bottom + 1) A l !! i = l !! (i + (bottom - top))%nat.
Proof.
  intros Hi Hl. unfold removed.
  rewrite lookup_app_r by (rewrite length_take; lia).
  rewrite length_take, lookup_drop. f_equal. lia.
Qed.

Lemma total_weighted (v w : list Qc) (T : Qc) :
  total (zip_with Qcmult v (map (λ t, t / T) w)) = total (zip_with Qcmult v w) / T.
Proof.
  revert w. induction v as [|x v IH]; intros [|y w]; simpl;
    try (unfold Qcdiv; ring).
  rewrite IH. unfold Qcdiv. ring.
Qed.

Lemma combine_checks_pass (m : Model) (top bottom : nat) :
  well_formed m → (top < bottom < length (thickn m))%nat →
  ¬ anisotropic_in m top bottom →
  ¬ differs_in (dip m) top bottom → ¬ differs_in (strike m) top bottom →
  combine_checks m top bottom = Ok ().
Proof.
  intros Hwf Hr Hiso Hdip Hstrike. unfold combine_checks.
  rewrite decide_False by lia.
  rewrite py_all_slice_true.
  2:{ intros i f Hi Hf. apply negb_true_iff, Z.eqb_neq. intros ->.
      apply Hiso. exists i. split; [lia|done]. }
  cbn [negb].
  destruct (same_as_head (dip m) top bottom) as (d0 & Hd0 & Hda);
    [lia|wf_solve|done|].
  rewrite Hd0. cbn [mbind result_bind]. rewrite Hda. cbn [negb].
  destruct (same_as_head (strike m) top bottom) as (s0 & Hs0 & Hsa);
    [lia|wf_solve|done|].
  rewrite Hs0. cbn [mbind result_bind]. rewrite Hsa. done.
Qed.

Lemma np_mul_obj_Some (dens w : list Qc) :
  length dens = length w →
  np_mul_obj (map Some dens) w = Ok (zip_with Qcmult dens w).
Proof.
  intros H. unfold np_mul_obj.
  rewrite np_binop_same by (by rewrite length_map).
  cbn [mbind result_bind].
  replace (mapM id _) with (Some (zip_with Qcmult dens w)); [done|].
  symmetry. apply mapM_Some. revert w H.
  induction dens as [|x dens IH]; intros [|y w] H; simpl in *; try done.
  constructor; [done|]. apply IH. lia.
Qed.

Lemma combine_layer_ok (m : Model) (top bottom : nat) (dens : list Qc) :
  well_formed m → (top < bottom < length (thickn m))%nat →
  slice top (bottom + 1) (rho m) = map Some dens →
  let ts := slice top (bottom + 1) (thickn m) in
  combine_layer m top (bottom + 1)
  = Ok (mkMerged (total ts)
                 (weighted_average ts (slice top (bottom + 1) (vp m)))
                 (weighted_average ts (slice top (bottom + 1) (vs m)))
                 (weighted_average ts dens)).
Proof.
  intros Hwf Hr Hrho ts. unfold combine_layer. fold ts.
  assert (Hts : length ts = (bottom + 1 - top)%nat)
    by (apply length_slice; lia).
  assert (Hd : length dens = (bottom + 1 - top)%nat).
  { rewrite <- (length_map Some), <- Hrho. apply length_slice. wf_solve. }
  unfold np_mul.
  rewrite !np_binop_same by (rewrite length_map, length_slice; wf_solve).
  cbn [mbind result_bind]. rewrite Hrho.
  rewrite np_mul_obj_Some by (rewrite length_map; lia).
  cbn [mbind result_bind].
  rewrite !py_sum_total, !total_weighted. done.
Qed.

Lemma lookup_zip_div (l k : list Qc) (i : nat) (x y : Qc) :
  l !! i = Some x → k !! i = Some y →
  zip_with Qcdiv l k !! i = Some (x / y).
Proof. intros Hx Hy. rewrite lookup_zip_with, Hx, Hy. done. Qed.

Lemma lookup_zip_div_ext (l k l' k' : list Qc) (i j : nat) :
  l' !! i = l !! j → k' !! i = k !! j →
  zip_with Qcdiv l' k' !! i = zip_with Qcdiv l k !! j.
Proof. intros Hx Hy. rewrite !lookup_zip_with, Hx, Hy. done. Qed.

Lemma well_formed_combine_result (m : Model) (top bottom : nat) (L : merged) :
  well_formed m → (top < bottom < length (thickn m))%nat →
  well_formed (combine_result m top bottom L).
Proof.
  intros Hwf Hr.
  destruct Hwf as (Hn & Hrho & Hvp & Hvs & Hk & Hflag & Hani & Htr & Hpl & Hst & Hdip).
  unfold combine_result, well_formed. fields.
  rewrite length_zip_with.
  rewrite !length_removed by (rewrite ?length_insert; lia).
  rewrite !length_insert. repeat split; lia.
Qed.

Lemma combine_result_top (m : Model) (top bottom : nat) (L : merged)
    (r : layer_row) :
  well_formed m → (top < bottom < length (thickn m))%nat →
  layer m top = Some r →
  layer (combine_result m top bottom L) top
  = Some (mkLayer (l_thickn L) (Some (l_rho L)) (l_vp L) (l_vs L)
                  (l_vp L / l_vs L) (r_flag r) (r_ani r) (r_trend r)
                  (r_plunge r) (r_strike r) (r_dip r)).
Proof.
  intros Hwf Hr Hl.
  apply layer_Some in Hl as (_ & _ & _ & _ & _ & Hf & Ha & Htr & Hpl & Hsk & Hd).
  destruct Hwf as (Hn & Hrho & Hvp & Hvs & Hk & Hflag & Hani & Htrl & Hpll & Hst & Hdip).
  apply layer_Some. unfold combine_result. fields.
  cbn [r_thickn r_rho r_vp r_vs r_vpvs r_flag r_ani r_trend r_plunge r_strike r_dip].
  assert (Hvp' : removed top (bottom + 1) Qc (<[top:=l_vp L]> (vp m)) !! top
                 = Some (l_vp L)).
  { rewrite lookup_removed_le by (rewrite ?length_insert; lia).
    apply list_lookup_insert_eq. lia. }
  assert (Hvs' : removed top (bottom + 1) Qc (<[top:=l_vs L]> (vs m)) !! top
                 = Some (l_vs L)).
  { rewrite lookup_removed_le by (rewrite ?length_insert; lia).
    apply list_lookup_insert_eq. lia. }
  repeat split; try done.
  - rewrite lookup_removed_le by (rewrite ?length_insert; lia).
    apply list_lookup_insert_eq. lia.
  - rewrite lookup_removed_le by (rewrite ?length_insert; lia).
    apply list_lookup_insert_eq. lia.
  - by apply lookup_zip_div.
  - rewrite lookup_removed_le by lia. done.
  - rewrite lookup_removed_le by lia. done.
  - rewrite lookup_removed_le by lia. done.
  - rewrite lookup_removed_le by lia. done.
  - rewrite lookup_removed_le by lia. done.
  - rewrite lookup_removed_le by lia. done.
Qed.

Lemma combine_result_above (m : Model) (top bottom i : nat) (L : merged) :
  well_formed m → vpvs_consistent m → (top < bottom < length (thickn m))%nat →
  (i < top)%nat →
  layer (combine_result m top bottom L) i = layer m i.
Proof.
  intros Hwf Hc Hr Hi.
  destruct Hwf as (Hn & Hrho & Hvp & Hvs & Hk & Hflag & Hani & Htrl & Hpll & Hst & Hdip).
  assert (Hins : ∀ (A : Type) (l : list A) (x : A),
            length l = length (thickn m) →
            removed top (bottom + 1) A (<[top:=x]> l) !! i = l !! i).
  { intros A l x Hlen.
    rewrite lookup_removed_le by (rewrite ?length_insert; lia).
    apply list_lookup_insert_ne. lia. }
  apply layer_ext; unfold combine_result; fields;
    try (by apply Hins); try (apply lookup_removed_le; lia).
  rewrite Hc. apply lookup_zip_div_ext; by apply Hins.
Qed.

Lemma combine_result_below (m : Model) (top bottom i : nat) (L : merged) :
  well_formed m → vpvs_consistent m → (top < bottom < length (thickn m))%nat →
  (top < i)%nat →
  layer (combine_result m top bottom L) i = layer m (i + (bottom - top)).
Proof.
  intros Hwf Hc Hr Hi.
  destruct Hwf as (Hn & Hrho & Hvp & Hvs & Hk & Hflag & Hani & Htrl & Hpll & Hst & Hdip).
  assert (Hins : ∀ (A : Type) (l : list A) (x : A),
            length l = length (thickn m) →
            removed top (bottom + 1) A (<[top:=x]> l) !! i
            = l !! (i + (bottom - top))%nat).
  { intros A l x Hlen.
    rewrite lookup_removed_gt by (rewrite ?length_insert; lia).
    apply list_lookup_insert_ne. lia. }
  apply layer_ext; unfold combine_result; fields;
    try (by apply Hins); try (apply lookup_removed_gt; lia).
  rewrite Hc. apply lookup_zip_div_ext; by apply Hins.
Qed.

Lemma all_same_not_differs (l : list Qc) (c : Qc) (top bottom : nat) :
  Forall (λ x, x = c) l → ¬ differs_in l top bottom.
Proof.
  intros Hall (i & j & x & y & _ & _ & Hx & Hy & Hne).
  rewrite Forall_lookup in Hall.
  apply Hne. rewrite (Hall i x Hx), (Hall j y Hy). done.
Qed.

Lemma all_flagged_not_anisotropic (m : Model) (top bottom : nat) :
  Forall (λ f, f ≠ 0%Z) (flag m) → ¬ anisotropic_in m top bottom.
Proof.
  intros Hall (i & _ & Hf).
  rewrite Forall_lookup in Hall. by apply (Hall i 0%Z Hf).
Qed.

(** C5, as the code has it.  On a model whose arrays agree in length and
    whose ratio array is the current [vp / vs], with [top < bottom] inside
    the model, no layer of the inclusive range flagged anisotropic, one dip
    and one strike across the range and a density for every layer of the
    range, [combine_layers(top, bottom)] leaves at [top] a layer whose
    thickness is the sum over the range, whose [vp], [vs] and density are the
    thickness-weighted averages, whose flag, anisotropy, trend, plunge, strike
    and dip are those of the old layer [top], and whose ratio is the new [vp]
    over the new [vs]; the layers above keep their rows, those below the
    range move up by [bottom - top], and the layer count drops by
    [bottom - top]. *)
Theorem combine_layers_merges (m : Model) (top bottom : nat) (r : layer_row)
    (dens : list Qc) :
  well_formed m → vpvs_consistent m →
  (top < bottom < length (thickn m))%nat →
  ¬ anisotropic_in m top bottom →
  ¬ differs_in (dip m) top bottom → ¬ differs_in (strike m) top bottom →
  slice top (bottom + 1) (rho m) = map Some dens →
  layer m top = Some r →
  let ts := slice top (bottom + 1) (thickn m) in
  let avp := weighted_average ts (slice top (bottom + 1) (vp m)) in
  let avs := weighted_average ts (slice top (bottom + 1) (vs m)) in
  let less := (Z.of_nat bottom - Z.of_nat top)%Z in
  let m' := state_of (combine_layers m top bottom) in
  ((nlay m - less ≤ maxlay m)%Z ∧ combine_layers m top bottom = Normal m'
   ∨ (maxlay m < nlay m - less)%Z
     ∧ combine_layers m top bottom = Raised ValueError m')
  ∧ layer m' top
    = Some (mkLayer (total ts) (Some (weighted_average ts dens)) avp avs
                    (avp / avs) (r_flag r) (r_ani r) (r_trend r) (r_plunge r)
                    (r_strike r) (r_dip r))
  ∧ (∀ i, (i < top)%nat → layer m' i = layer m i)
  ∧ (∀ i, (top < i)%nat → layer m' i = layer m (i + (bottom - top)))
  ∧ nlay m' = (nlay m - less)%Z
  ∧ well_formed m'.
Proof.
  intros Hwf Hc Hr Hiso Hdip Hstrike Hrho Hl ts avp avs less m'.
  pose proof (combine_layer_ok m top bottom dens Hwf Hr Hrho) as HL.
  cbv zeta in HL. fold ts avp avs in HL.
  subst m'.
  rewrite (combine_layers_runs m top bottom _ Hwf Hr
             (combine_checks_pass m top bottom Hwf Hr Hiso Hdip Hstrike) HL).
  set (L := mkMerged (total ts) avp avs (weighted_average ts dens)).
  set (s := combine_result m top bottom L).
  assert (Hnl : nlay s = (nlay m - less)%Z) by done.
  assert (Hml : maxlay s = maxlay m) by done.
  split; [|split; [|split; [|split; [|split]]]].
  - destruct (_set_fattributes_cases s) as [[? ->]|[? ->]]; [left|right];
      simpl; split; (lia || done).
  - rewrite layer_set_fattributes.
    apply (combine_result_top m top bottom L r); done.
  - intros i Hi. rewrite layer_set_fattributes.
    by apply combine_result_above.
  - intros i Hi. rewrite layer_set_fattributes.
    by apply combine_result_below.
  - by rewrite nlay_set_fattributes.
  - apply well_formed_set_fattributes. by apply well_formed_combine_result.
Qed.

Lemma well_formed_two_layer_crust : well_formed two_layer_crust.
Proof. repeat split. Qed.

Lemma combine_layers_merges_witness :
  well_formed two_layer_crust ∧ vpvs_consistent two_layer_crust
  ∧ (0 < 1 < length (thickn two_layer_crust))%nat
  ∧ layer (state_of (combine_layers two_layer_crust 0 1)) 0
    = Some (mkLayer (total [qz 30000; qz 10000])
              (Some (weighted_average [qz 30000; qz 10000] [qz 2800; qz 3300]))
              (weighted_average [qz 30000; qz 10000] [qz 6000; qz 8000])
              (weighted_average [qz 30000; qz 10000] [qz 3600; qz 4500])
              (weighted_average [qz 30000; qz 10000] [qz 6000; qz 8000]
               / weighted_average [qz 30000; qz 10000] [qz 3600; qz 4500])
              1 0 0 0 0 0).
Proof.
  split; [repeat split|]. split; [reflexivity|]. split; [simpl; lia|].
  apply (combine_layers_merges two_layer_crust 0 1
           (mkLayer (qz 30000) (Some (qz 2800)) (qz 6000) (qz 3600)
                    (qz 6000 / qz 3600) 1 0 0 0 0 0)
           [qz 2800; qz 3300]).
  - repeat split.
  - reflexivity.
  - simpl; lia.
  - apply all_flagged_not_anisotropic. by repeat constructor.
  - apply (all_same_not_differs _ 0). by repeat constructor.
  - apply (all_same_not_differs _ 0). by repeat constructor.
  - reflexivity.
  - reflexivity.
Defined.

(** C5 as the claim has it fails on the ratio: two isotropic layers with
    one strike and one dip are merged, and the merged layer does not keep the
    ratio that layer [top] had. *)
Lemma combine_layers_ratio_counterexample :
  well_formed two_layer_crust
  ∧ ¬ anisotropic_in two_layer_crust 0 1
  ∧ ¬ differs_in (dip two_layer_crust) 0 1
  ∧ ¬ differs_in (strike two_layer_crust) 0 1
  ∧ ∃ m' r r',
      combine_layers two_layer_crust 0 1 = Normal m'
      ∧ layer two_layer_crust 0 = Some r
      ∧ layer m' 0 = Some r'
      ∧ r_vpvs r' ≠ r_vpvs r.
Proof.
  split; [repeat split|].
  split; [apply all_flagged_not_anisotropic; by repeat constructor|].
  split; [apply (all_same_not_differs _ 0); by repeat constructor|].
  split; [apply (all_same_not_differs _ 0); by repeat constructor|].
  eexists _, _, _.
  split; [vm_compute; reflexivity|].
  split; [vm_compute; reflexivity|].
  split; [vm_compute; reflexivity|].
  intros H. apply (f_equal this) in H. vm_compute in H. discriminate.
Qed.

Lemma combine_layers_refuses_witness :
  combine_layers turned_crust 0 1 = Raised ValueError turned_crust
  ∧ IndexError ≠ ValueError.
Proof.
  apply (combine_layers_refuses turned_crust 0 1 ValueError).
  right. split; [lia|]. split; [repeat split|]. split; [reflexivity|].
  right. right. exists 0%nat, 1%nat, 0, (qz 10).
  repeat split; try lia. discriminate.
Defined.

(** ** The mirror after each mutator *)

Lemma obind_Normal {S : Type} (o : outcome S) (k : S → outcome S) (s' : S) :
  obind o k = Normal s' → ∃ s, o = Normal s ∧ k s = Normal s'.
Proof. destruct o as [s|e s]; simpl; [eauto|done]. Qed.

Lemma lift_Normal {S A : Type} (s : S) (r : result A) (k : A → outcome S) (s' : S) :
  lift s r k = Normal s' → ∃ a, r = Ok a ∧ k a = Normal s'.
Proof. destruct r as [a|e]; simpl; [eauto|done]. Qed.

Lemma split_layer_normal (m m' : Model) (n : nat) :
  well_formed m → split_layer m n = Normal m' →
  well_formed m' ∧ mirror_in_sync m'.
Proof.
  intros Hwf H.
  destruct (decide (n < length (thickn m))%nat) as [Hn|Hn].
  - destruct (lookup_lt_is_Some_2 _ _ Hn) as [x Hx].
    rewrite (split_layer_runs m n x Hwf Hx) in H.
    apply _set_fattributes_normal in H; [done|].
    by apply well_formed_split_result.
  - unfold split_layer in H.
    rewrite (for_atts_on_att_err _ m IndexError) in H; [done|].
    apply duplicate_err. lia.
Qed.

Lemma np_delete_ok {A : Type} (l : list A) (n : nat) :
  (n < length l)%nat → np_delete l n = Ok (deleted n A l).
Proof. intros H. unfold np_delete. by rewrite decide_True. Qed.

Lemma length_deleted {A : Type} (l : list A) (n : nat) :
  (n < length l)%nat → length (deleted n A l) = (length l - 1)%nat.
Proof.
  intros H. unfold deleted. rewrite length_app, length_take, length_drop. lia.
Qed.

Lemma remove_layer_normal (m m' : Model) (n : nat) :
  well_formed m → remove_layer m n = Normal m' →
  well_formed m' ∧ mirror_in_sync m'.
Proof.
  intros Hwf H. unfold remove_layer in H.
  destruct (decide (n < length (thickn m))%nat) as [Hn|Hn].
  - rewrite (for_atts_on_att_ok _ (deleted n)) in H
      by (apply np_delete_ok; wf_solve).
    cbn [obind] in H.
    destruct Hwf as (Hnl & Hrho & Hvp & Hvs & Hk & Hflag & Hani & Htr & Hpl & Hst & Hdip).
    rewrite update_None in H
      by (fields; rewrite !length_deleted by lia; lia).
    apply _set_fattributes_normal in H; [done|].
    unfold well_formed. fields.
    rewrite length_zip_with, !length_deleted by lia. repeat split; lia.
  - rewrite (for_atts_on_att_err _ m IndexError) in H; [done|].
    unfold np_delete. by rewrite decide_False.
Qed.

Lemma combine_checks_Ok (m : Model) (top bottom : nat) :
  combine_checks m top bottom = Ok () →
  (top < bottom)%nat ∧ (top < length (dip m))%nat.
Proof.
  unfold combine_checks.
  destruct (decide (bottom ≤ top)%nat); [done|].
  destruct (negb (py_all _)); [done|].
  destruct (getitem (slice top (bottom + 1) (dip m)) 0) as [d0|e] eqn:E;
    [|done].
  intros _. split; [lia|].
  unfold getitem in E.
  destruct (slice top (bottom + 1) (dip m) !! 0%nat) as [d|] eqn:E'; [|done].
  unfold slice in E'. apply lookup_lt_Some in E'.
  rewrite length_take, length_drop in E'. lia.
Qed.

Lemma combine_body_overrun (L : merged) (top bottom : nat) (m : Model) :
  (top < bottom)%nat → (top < length (thickn m) ≤ bottom)%nat →
  ∃ m1, combine_body L top (bottom + 1) Athickn m = Raised IndexError m1.
Proof.
  intros Hlt Hlen. unfold combine_body.
  rewrite setitem_ok by lia. cbn [lift obind on_att]. fields.
  unfold np_delete_range.
  rewrite decide_False by lia.
  rewrite decide_False by (rewrite length_insert; lia).
  cbn [lift]. eauto.
Qed.

Lemma combine_layers_normal (m m' : Model) (top bottom : nat) :
  well_formed m → combine_layers m top bottom = Normal m' →
  well_formed m' ∧ mirror_in_sync m'.
Proof.
  intros Hwf H.
  destruct (combine_checks m top bottom) as [[]|e] eqn:Hc.
  2:{ by rewrite (combine_checks_raise _ _ _ _ Hc) in H. }
  destruct (combine_checks_Ok _ _ _ Hc) as [Hlt Htop].
  destruct (combine_layer m top (bottom + 1)) as [L|e] eqn:HL.
  2:{ unfold combine_layers in H. by rewrite Hc, HL in H. }
  destruct (decide (bottom < length (thickn m))%nat) as [Hb|Hb].
  - rewrite (combine_layers_runs m top bottom L) in H by (done || lia).
    apply _set_fattributes_normal in H; [done|].
    apply well_formed_combine_result; [done|lia].
  - unfold combine_layers in H. rewrite Hc, HL in H. cbn [lift] in H.
    unfold _useratts in H. cbn [for_atts] in H.
    destruct (combine_body_overrun L top bottom m) as [m1 Hm1];
      [lia|wf_solve|].
    by rewrite Hm1 in H.
Qed.

(** ** [change] *)

Lemma setitem_Ok {A : Type} (l l' : list A) (n : nat) (x : A) :
  setitem l n x = Ok l' → (n < length l)%nat ∧ l' = <[n:=x]> l.
Proof. unfold setitem. destruct (decide _); [|done]. by intros [= <-]. Qed.

Lemma getitem_Ok {A : Type} (l : list A) (n : nat) (x : A) :
  getitem l n = Ok x → l !! n = Some x.
Proof. unfold getitem. destruct (l !! n); [|done]. by intros [= <-]. Qed.

(** Every entry of [ATT] reads and stores one array of the model and leaves
    the others alone. *)
Lemma ATT_well_formed (k : list ascii) (a : attribute) (m : Model)
    (arr : list Qc) :
  ATT k = Some a → well_formed m → length arr = length (attr_get a m) →
  well_formed (attr_set a m arr).
Proof.
  unfold ATT. intros Ha Hwf Hlen.
  destruct Hwf as (Hnl & Hrho & Hvp & Hvs & Hk & Hflag & Hani & Htr & Hpl & Hst & Hdip).
  repeat (destruct (decide _) as [_|_] in Ha;
          [injection Ha as <-; cbn [attr_get attr_set] in *;
           unfold well_formed; fields; repeat split; lia|]).
  done.
Qed.

Lemma apply_directive_normal (d : directive) (m m' : Model) :
  well_formed m → apply_directive d m = Normal m' →
  well_formed m' ∧ mirror_in_sync m'.
Proof.
  intros Hwf H. unfold apply_directive in H.
  destruct (ATT (d_att d)) as [a|] eqn:Ha; [|done].
  apply lift_Normal in H as (arr & Hstore & H).
  assert (Harr : length arr = length (attr_get a m)).
  { destruct (decide (d_sign d = "="%char)).
    - apply setitem_Ok in Hstore as [_ ->]. apply length_insert.
    - destruct (getitem (attr_get a m) (d_lay d)) as [old|]; [|done].
      cbn [mbind result_bind] in Hstore.
      apply setitem_Ok in Hstore as [_ ->]. apply length_insert. }
  pose proof (ATT_well_formed _ _ m arr Ha Hwf Harr) as Hwf1.
  set (m1 := attr_set a m arr) in *.
  apply lift_Normal in H as (fl & Hfl & H).
  apply setitem_Ok in Hfl as [_ ->].
  apply lift_Normal in H as (an & _ & H).
  apply update_normal in H; [done|].
  destruct Hwf1 as (Hnl & Hrho & Hvp & Hvs & Hk & Hflag & Hani & Htr & Hpl & Hst & Hdip).
  destruct (decide (an ≠ 0)); unfold well_formed; fields;
    rewrite ?length_insert; repeat split; lia.
Qed.

Lemma change_loop_normal (commands : list (list ascii)) (n : option nat)
    (m m' : Model) :
  well_formed m →
  mirror_in_sync m
  ∨ existsb (λ c, negb (bool_decide (c = []))) commands = true →
  change_loop commands n m = Normal m' →
  well_formed m' ∧ mirror_in_sync m'.
Proof.
  revert n m. induction commands as [|command rest IH]; intros n m Hwf Hs H.
  - simpl in *. injection H as <-. destruct Hs as [Hs|Hs]; done.
  - cbn [change_loop] in H.
    destruct (decide (command = [])) as [->|Hne].
    + apply (IH n m); [done| |done].
      destruct Hs as [Hs|Hs]; [by left|]. right.
      cbn [existsb] in Hs. by rewrite bool_decide_eq_true_2 in Hs.
    + destruct (parse_command command n) as [[d n']|e]; [|done].
      apply obind_Normal in H as (m1 & Hd & H).
      apply apply_directive_normal in Hd as [Hwf1 Hsync1]; [|done].
      apply (IH n' m1); auto.
Qed.

(** C3. After each public mutator of [Model] that returns normally from a
    model whose arrays agree in length, the ten mirror arrays are the export
    view of the user attributes as they now are: each array padded with
    zeros to [maxlay] entries, with trend, plunge, strike and dip in radians.
    For [update], [split_layer], [remove_layer], [combine_layers] and a
    [change] with at least one directive this holds whatever the mirror was
    before; a [change] without a directive assigns nothing and keeps a
    mirror that was in step. *)
Theorem mirror_in_sync_after (op : mutator) (m m' : Model) :
  well_formed m →
  mirror_in_sync m ∨ reaches_update op = true →
  run op m = Normal m' →
  well_formed m' ∧ mirror_in_sync m'.
Proof.
  intros Hwf Hs H. destruct op as [f|commands|n|n|top bottom]; cbn [run] in H.
  - by apply (update_normal m m' f).
  - by apply (change_loop_normal _ None m m' Hwf Hs).
  - by apply (split_layer_normal m m' n).
  - by apply (remove_layer_normal m m' n).
  - by apply (combine_layers_normal m m' top bottom).
Qed.

(** ** The text of a directive *)

Lemma split_on_absent (sep : ascii) (s : list ascii) :
  sep ∉ s → split_on sep s = [s].
Proof.
  induction s as [|c s IH]; intros H; simpl; [done|].
  apply not_elem_of_cons in H as [Hc Hs].
  rewrite decide_False by done. by rewrite IH.
Qed.

Lemma split_on_once (sep : ascii) (s1 s2 : list ascii) :
  sep ∉ s1 → sep ∉ s2 → split_on sep (s1 ++ sep :: s2) = [s1; s2].
Proof.
  intros H1 H2. induction s1 as [|c s1 IH]; simpl.
  - rewrite decide_True by done. by rewrite split_on_absent.
  - apply not_elem_of_cons in H1 as [Hc Hs].
    rewrite decide_False by done. by rewrite IH.
Qed.

Lemma scan_digit_prefix (k ds : list ascii) (c : ascii) (i : nat)
    (n : option nat) :
  Forall (λ x, is_digit x = false) k → is_digit c = true →
  scan_digit (k ++ c :: ds) i n = Some (i + length k)%nat.
Proof.
  intros Hk Hc. revert i n.
  induction Hk as [|x k Hx Hk IH]; intros i n; simpl.
  - rewrite Hc. f_equal. lia.
  - rewrite Hx, IH. f_equal. lia.
Qed.

Lemma is_digit_cases (c : ascii) :
  is_digit c = true → c ∈ str "0123456789".
Proof. unfold is_digit. apply bool_decide_eq_true_1. Qed.

(** A decimal digit is no white space, no sign, no separator. *)
Lemma digit_is_plain (c : ascii) :
  is_digit c = true →
  is_space c = false ∧ c ≠ "_"%char ∧ c ≠ "="%char ∧ c ≠ "+"%char
  ∧ c ≠ "-"%char ∧ c ≠ ";"%char.
Proof.
  intros H. apply is_digit_cases in H. simpl in H.
  repeat (apply elem_of_cons in H as [->|H]; [by vm_compute|]).
  by apply elem_of_nil in H.
Qed.

Lemma all_digits_inv (ds : list ascii) :
  all_digits ds = true → ds ≠ [] ∧ Forall (λ c, is_digit c = true) ds.
Proof.
  unfold all_digits. rewrite andb_true_iff, negb_true_iff.
  intros [H1 H2]. split.
  - by apply bool_decide_eq_false in H1.
  - by apply Forall_forallb in H2 || (rewrite forallb_forall in H2;
      apply Forall_forall; intros x Hx; apply H2, list_elem_of_In, Hx).
Qed.

Lemma digits_not_elem (ds : list ascii) (c : ascii) :
  Forall (λ c, is_digit c = true) ds → is_digit c = false → c ∉ ds.
Proof.
  intros Hd Hc Hin. rewrite Forall_forall in Hd.
  rewrite (Hd c Hin) in Hc. done.
Qed.

Lemma lstrip_no_space (c : ascii) (s : list ascii) :
  is_space c = false → lstrip (c :: s) = c :: s.
Proof. intros H. simpl. by rewrite H. Qed.

Lemma strip_digits (ds : list ascii) :
  Forall (λ c, is_digit c = true) ds → strip ds = ds.
Proof.
  intros Hd. unfold strip.
  assert (Hl : ∀ s, Forall (λ c, is_digit c = true) s → lstrip s = s).
  { intros [|c s] Hs; [done|]. apply lstrip_no_space.
    apply Forall_cons in Hs as [Hc _]. by apply digit_is_plain in Hc as [? _]. }
  rewrite (Hl ds Hd), Hl, rev_involutive; [done|].
  by apply Forall_rev.
Qed.

Lemma py_int_digits (ds : list ascii) :
  all_digits ds = true → py_int ds = Ok (digits_value ds).
Proof.
  intros Hall. destruct (all_digits_inv ds Hall) as [Hne Hd].
  unfold py_int. rewrite (strip_digits ds Hd).
  destruct ds as [|c ds]; [done|].
  pose proof (Forall_inv Hd) as Hc.
  apply digit_is_plain in Hc as (_ & _ & _ & Hplus & Hminus & _).
  assert (Hsign : take_sign (c :: ds) = (false, c :: ds)).
  { unfold take_sign.
    destruct (decide (c = "-"%char)) as [->|?]; [done|].
    destruct (decide (c = "+"%char)) as [->|?]; [done|].
    destruct c as [[] [] [] [] [] [] [] []]; done. }
  rewrite Hsign.
  rewrite split_on_absent.
  2:{ apply digits_not_elem; [done|]. by vm_compute. }
  cbn [forallb]. rewrite Hall. cbn [andb concat]. by rewrite app_nil_r.
Qed.

Lemma ATT_keys (k : list ascii) (a : attribute) :
  ATT k = Some a →
  k ∈ [str "t"; str "vp"; str "vs"; str "psp"; str "pss"; str "s"; str "d";
       str "a"; str "tr"; str "pl"].
Proof.
  unfold ATT. intros H.
  repeat (destruct (decide _) as [->|_] in H; [set_solver|]).
  done.
Qed.

(** The keys hold no digit, no white space and none of [;=+-]. *)
Lemma key_facts (k : list ascii) (a : attribute) :
  ATT k = Some a →
  Forall (λ x, is_digit x = false) k ∧ strip k = k
  ∧ Forall (λ x, x ∉ str ";=+-") k.
Proof.
  intros H. apply ATT_keys in H.
  repeat (apply elem_of_cons in H as [->|H]; [compute_done|]).
  by apply elem_of_nil in H.
Qed.

Lemma sign_absent_before (k ds : list ascii) (a : attribute) (c : ascii) :
  ATT k = Some a → all_digits ds = true → c ∈ str ";=+-" → c ∉ k ++ ds.
Proof.
  intros Hk Hds Hc.
  destruct (key_facts k a Hk) as (_ & _ & Hplain).
  destruct (all_digits_inv ds Hds) as [_ Hd].
  rewrite not_elem_of_app. split.
  - intros Hin. rewrite Forall_forall in Hplain. by apply (Hplain c Hin).
  - apply digits_not_elem; [done|].
    simpl in Hc.
    repeat (apply elem_of_cons in Hc as [->|Hc]; [by vm_compute|]).
    by apply elem_of_nil in Hc.
Qed.

Lemma find_sign_text (k ds v : list ascii) (a : attribute) (sign : ascii) :
  ATT k = Some a → all_digits ds = true →
  sign ∈ str "=+-" → value_text sign v →
  find_sign (str "=+-") (k ++ ds ++ sign :: v) None
  = Some (sign, [k ++ ds; v]).
Proof.
  intros Hk Hds Hsign (Hsemi & Heq & Hplus & Hminus).
  assert (Hb : ∀ c, c ∈ str "=+-" → c ∉ k ++ ds).
  { intros c Hc. apply (sign_absent_before k ds a); [done|done|].
    by apply list_elem_of_further. }
  assert (Habs : ∀ c, c ∈ str "=+-" → c ≠ sign → c ∉ v →
            split_on c (k ++ ds ++ sign :: v) = [k ++ ds ++ sign :: v]).
  { intros c Hc Hne Hv. apply split_on_absent.
    rewrite app_assoc, not_elem_of_app, not_elem_of_cons.
    split; [by apply Hb|by split]. }
  assert (Honce : sign ∉ v →
            split_on sign (k ++ ds ++ sign :: v) = [k ++ ds; v]).
  { intros Hv. rewrite app_assoc. apply split_on_once; [by apply Hb|done]. }
  change (str "=+-") with ["="%char; "+"%char; "-"%char] in *.
  cbn [find_sign].
  apply elem_of_cons in Hsign as [->|Hsign].
  { rewrite Honce by done. by rewrite decide_True. }
  apply elem_of_cons in Hsign as [->|Hsign].
  { rewrite (Habs "="%char) by (done || compute_done).
    rewrite decide_False by (simpl; lia).
    rewrite Honce by (by apply Hplus). by rewrite decide_True. }
  apply elem_of_cons in Hsign as [->|Hsign]; [|by apply elem_of_nil in Hsign].
  rewrite (Habs "="%char) by (done || compute_done).
  rewrite decide_False by (simpl; lia).
  rewrite (Habs "+"%char) by (done || compute_done || by apply Hplus).
  rewrite decide_False by (simpl; lia).
  rewrite Honce by (by apply Hminus). by rewrite decide_True.
Qed.

(** The text of a directive is read back as its key, its layer, its sign
    and its value. *)
Lemma parse_command_text (k ds v : list ascii) (a : attribute) (sign : ascii)
    (q : Qc) (n : option nat) :
  ATT k = Some a → all_digits ds = true →
  sign ∈ str "=+-" → value_text sign v → py_float v = Ok q →
  parse_command (k ++ ds ++ sign :: v) n
  = Ok (mkDirective k (Z.to_nat (digits_value ds)) sign q, Some (length k)).
Proof.
  intros Hk Hds Hsign Hv Hq. unfold parse_command.
  rewrite (find_sign_text k ds v a sign) by done.
  destruct (key_facts k a Hk) as (Hnd & Hstrip & _).
  destruct (all_digits_inv ds Hds) as [Hne Hd].
  destruct ds as [|c ds']; [done|].
  rewrite (scan_digit_prefix k ds' c 0 n Hnd) by (by apply Forall_inv in Hd).
  cbn [Nat.add]. rewrite take_app_length, drop_app_length, Hstrip.
  rewrite (py_int_digits _ Hds). cbn [mbind result_bind].
  rewrite Hq. done.
Qed.

(** ** The effect of a directive *)

Lemma ATT_lens (k : list ascii) (a : attribute) :
  ATT k = Some a → lens_laws a.
Proof.
  unfold ATT. intros Ha.
  repeat (destruct (decide _) as [_|_] in Ha;
          [injection Ha as <-; split; cbn [attr_get attr_set];
           try (intros [] *; reflexivity); intros m Hwf; wf_solve|]).
  done.
Qed.

Lemma apply_directive_runs (m : Model) (k : list ascii) (a : attribute)
    (lay : nat) (sign : ascii) (q old : Qc) :
  well_formed m → ATT k = Some a → attr_get a m !! lay = Some old →
  apply_directive (mkDirective k lay sign q) m
  = update (stored a m lay (applied sign old (converted k q))) (fix_of k).
Proof.
  intros Hwf Ha Hold.
  pose proof (ATT_lens k a Ha) as [Hgs Hfs Hgf Hssf Hlen].
  assert (Hlay : (lay < length (thickn m))%nat).
  { rewrite <- (Hlen m Hwf). by eapply lookup_lt_Some. }
  unfold apply_directive. cbn [d_att d_lay d_sign d_inc]. rewrite Ha.
  fold (converted k q). fold (fix_of k).
  set (inc := converted k q).
  assert (Hstore :
    (if decide (sign = "="%char) then setitem (attr_get a m) lay inc
     else old' ← getitem (attr_get a m) lay;
          setitem (attr_get a m) lay
            (if decide (sign = "="%char) then inc
             else if decide (sign = "+"%char) then old' + inc else old' - inc))
    = Ok (<[lay:=applied sign old inc]> (attr_get a m))).
  { unfold applied. destruct (decide (sign = "="%char)).
    - apply setitem_ok. by eapply lookup_lt_Some.
    - rewrite (getitem_lookup _ _ _ Hold). cbn [mbind result_bind].
      apply setitem_ok. by eapply lookup_lt_Some. }
  rewrite Hstore. cbn [lift].
  set (m1 := attr_set a m (<[lay:=applied sign old inc]> (attr_get a m))).
  assert (Hwf1 : well_formed m1).
  { apply (ATT_well_formed k); [done|done|apply length_insert]. }
  assert (Hlen1 : length (thickn m1) = length (thickn m)).
  { rewrite <- (Hlen m1 Hwf1), <- (Hlen m Hwf). unfold m1.
    rewrite Hgs. apply length_insert. }
  assert (Hlay1 : (lay < length (flag m1))%nat ∧ (lay < length (ani m1))%nat).
  { destruct Hwf1 as (_ & _ & _ & _ & _ & Hf1 & Ha1 & _). lia. }
  rewrite setitem_ok by apply Hlay1. cbn [lift].
  assert (Hani : ani (set_flag m1 (<[lay:=1%Z]> (flag m1))) = ani m1)
    by (by destruct m1).
  rewrite Hani.
  destruct (getitem_ok (ani m1) lay) as (an & Han & ->); [apply Hlay1|].
  cbn [lift]. f_equal.
  unfold stored. fold m1. rewrite Han.
  change (default 0 (Some an)) with an. unfold flag_for.
  destruct (decide (an = 0)) as [->|Hne].
  - by rewrite decide_False by (by intros []).
  - rewrite decide_True by done.
    assert (Hfl : flag (set_flag m1 (<[lay:=1%Z]> (flag m1)))
                  = <[lay:=1%Z]> (flag m1)) by (by destruct m1).
    rewrite Hfl, list_insert_insert_eq. apply Hssf.
Qed.

Lemma update_fix_vs (m : Model) :
  length (vs m) = length (vpvs m) →
  update m (Some "vs"%string)
  = _set_fattributes (set_vp m (zip_with Qcmult (vs m) (vpvs m))).
Proof.
  intros H. unfold update, np_mul. cbn [String.eqb Ascii.eqb Bool.eqb].
  by rewrite np_binop_same.
Qed.

Lemma update_fix_vp (m : Model) :
  length (vp m) = length (vpvs m) →
  update m (Some "vp"%string)
  = _set_fattributes (set_vs m (zip_with Qcdiv (vp m) (vpvs m))).
Proof.
  intros H. unfold update, np_div. cbn [String.eqb Ascii.eqb Bool.eqb].
  by rewrite np_binop_same.
Qed.




Lemma obind_return {S : Type} (o : outcome S) : obind o Normal = o.
Proof. by destruct o. Qed.

Lemma change_one_directive (m : Model) (k ds v : list ascii) (a : attribute)
    (sign : ascii) (q : Qc) :
  ATT k = Some a → all_digits ds = true →
  sign ∈ str "=+-" → value_text sign v → py_float v = Ok q →
  change m (directive_text k ds sign v)
  = apply_directive (mkDirective k (Z.to_nat (digits_value ds)) sign q) m.
Proof.
  intros Hk Hds Hsign Hv Hq. unfold change, directive_text, str.
  rewrite list_ascii_of_string_of_list_ascii.
  assert (Hsemi : ";"%char ∉ k ++ ds ++ sign :: v).
  { rewrite app_assoc, not_elem_of_app, not_elem_of_cons.
    split; [|split].
    - apply (sign_absent_before k ds a); [done|done|compute_done].
    - intros <-. revert Hsign. compute_done.
    - apply Hv. }
  rewrite split_on_absent by done.
  cbn [change_loop].
  rewrite decide_False by (destruct k; [by destruct ds|done]).
  rewrite (parse_command_text k ds v a sign q) by done.
  change (change_loop [] (Some (length k))) with (@Normal Model).
  apply obind_return.
Qed.





Lemma mirror_in_sync_after_witness :
  mirror_in_sync (state_of (run (Change "t0+10") crust_and_mantle)).
Proof.
  apply (mirror_in_sync_after (Change "t0+10") crust_and_mantle).
  - repeat split.
  - right. reflexivity.
  - vm_compute. reflexivity.
Defined.

(** ** [Model.__init__] *)

(** C2, as the code has it.  The constructor raises, with [ValueError],
    exactly when [vp] and [vs] cannot be broadcast against each other (their
    lengths differ and neither is 1) or the thickness array is longer than
    [maxlay]; the length of the thickness array is not compared with those of
    [vp] and [vs].  Otherwise it returns a model that holds the three arrays
    as given. *)
Theorem Model_init_checks (thickn_ : list Qc) (rho_ : option (list Qc))
    (vp_ vs_ : list Qc) (flag_ : Z + list Z)
    (ani_ trend_ plunge_ strike_ dip_ : optarg) (maxlay_ : Z) :
  match Model_init thickn_ rho_ vp_ vs_ flag_ ani_ trend_ plunge_ strike_ dip_
                   maxlay_ with
  | Err e =>
      e = ValueError
      ∧ (¬ np_compatible (length vp_) (length vs_)
         ∨ (maxlay_ < Z.of_nat (length thickn_))%Z)
  | Ok m =>
      np_compatible (length vp_) (length vs_)
      ∧ (Z.of_nat (length thickn_) ≤ maxlay_)%Z
      ∧ thickn m = thickn_ ∧ vp m = vp_ ∧ vs m = vs_
      ∧ nlay m = Z.of_nat (length thickn_)
  end.
Proof.
  unfold Model_init, np_div.
  destruct (np_binop Qcdiv vp_ vs_) as [ratio|e] eqn:E.
  - cbn [mbind result_bind]. unfold _set_fattributes. cbn [nlay maxlay].
    assert (Hc : np_compatible (length vp_) (length vs_)).
    { destruct (decide (np_compatible (length vp_) (length vs_))) as [|Hn];
        [done|].
      unfold np_compatible in Hn.
      unfold np_binop in E. rewrite decide_False in E by tauto.
      destruct vp_ as [|? [|? ?]], vs_ as [|? [|? ?]]; simpl in *;
        try done; exfalso; apply Hn; auto. }
    destruct (decide (Z.of_nat (length thickn_) ≤ maxlay_)%Z).
    + repeat split; done.
    + split; [done|]. right. lia.
  - cbn [mbind result_bind]. apply np_binop_err in E as [-> Hn]. auto.
Qed.

(** C2 as the claim has it fails: a thickness array of two layers with
    velocity arrays of three is accepted. *)
Lemma Model_init_mismatch_counterexample :
  ∃ m, Model_init [qz 30000; qz 0] (Some [qz 2800; qz 3000; qz 3300])
         [qz 6000; qz 7000; qz 8000] [qz 3600; qz 4000; qz 4500]
         (inl 1%Z) ArgNone ArgNone ArgNone ArgNone ArgNone 15 = Ok m
       ∧ length (thickn m) = 2%nat ∧ length (vp m) = 3%nat
       ∧ length (vs m) = 3%nat.
Proof. eexists. split; [vm_compute; reflexivity|]. done. Qed.

(** ** [Geometry.__init__] *)

Lemma outer_grid_cons (b s : list Qc) (ss : Qc) :
  outer_grid b (ss :: s) = map (λ bb, (bb, ss)) b ++ outer_grid b s.
Proof.
  unfold outer_grid. cbn [mbind list_bind]. f_equal.
Qed.

Lemma length_outer_grid (b s : list Qc) :
  length (outer_grid b s) = (length b * length s)%nat.
Proof.
  induction s as [|ss s IH]; [simpl; lia|].
  rewrite outer_grid_cons, length_app, length_map, IH. simpl. lia.
Qed.

Lemma lookup_outer_grid (b s : list Qc) (i j : nat) (bb ss : Qc) :
  b !! i = Some bb → s !! j = Some ss →
  outer_grid b s !! (j * length b + i)%nat = Some (bb, ss).
Proof.
  intros Hb. revert j. induction s as [|s0 s IH]; intros j Hs; [done|].
  rewrite outer_grid_cons. destruct j as [|j]; simpl in Hs.
  - injection Hs as ->. rewrite lookup_app_l.
    + simpl. by rewrite list_lookup_fmap, Hb.
    + rewrite length_map. apply lookup_lt_Some in Hb. simpl. lia.
  - rewrite lookup_app_r by (rewrite length_map; simpl; lia).
    rewrite length_map.
    replace (S j * length b + i - length b)%nat with (j * length b + i)%nat
      by (simpl; lia).
    by apply IH.
Qed.

Lemma lookup_paired (b s : list Qc) (i : nat) (bb ss : Qc) :
  b !! i = Some bb → s !! i = Some ss → paired b s !! i = Some (bb, ss).
Proof. intros Hb Hs. unfold paired. by rewrite lookup_zip_with, Hb, Hs. Qed.

Lemma length_paired (b s : list Qc) :
  length b = length s → length (paired b s) = length b.
Proof. intros H. unfold paired. rewrite length_zip_with. lia. Qed.

Lemma samples_nonempty (b s : list Qc) :
  b ≠ [] → s ≠ [] → samples b s ≠ [].
Proof.
  intros Hb Hs H. apply (f_equal length) in H. unfold samples in H.
  destruct b as [|b0 b]; [done|]. destruct s as [|s0 s]; [done|].
  destruct (decide _).
  - rewrite length_outer_grid in H. simpl in H. lia.
  - done.
Qed.

Lemma broadcast_offset_ok (n : nat) (d0 : Qc) (d : list Qc) :
  broadcast_offset n (d0 :: d)
  = Ok (if decide (length (d0 :: d) ≠ n) then replicate n d0 else d0 :: d).
Proof. unfold broadcast_offset. by destruct (decide _). Qed.

(** The constructor on non-empty arguments that fit the capacity. *)
Lemma Geometry_init_runs (baz_ slow_ : Qc + list Qc) (d0 e0 : Qc)
    (dx_ dy_ : list Qc) (maxtr : Z) :
  let b := as_list baz_ in
  let s := as_list slow_ in
  b ≠ [] → s ≠ [] → (Z.of_nat (length (samples b s)) ≤ maxtr)%Z →
  ∃ g, Geometry_init baz_ slow_ (d0 :: dx_) (e0 :: dy_) maxtr = Ok g
       ∧ geom g = samples b s
       ∧ ntr g = length (samples b s)
       ∧ dx g = (if decide (length (d0 :: dx_) ≠ ntr g)
                 then replicate (ntr g) d0 else d0 :: dx_)
       ∧ dy g = (if decide (length (e0 :: dy_) ≠ ntr g)
                 then replicate (ntr g) e0 else e0 :: dy_).
Proof.
  intros b s Hb Hs Hfit. unfold Geometry_init. cbv zeta. fold b s.
  fold (samples b s).
  rewrite decide_False by (by apply samples_nonempty).
  rewrite !broadcast_offset_ok. cbn [mbind result_bind].
  rewrite !length_map.
  rewrite decide_True by done.
  eexists. split; [reflexivity|]. done.
Qed.

Lemma length_samples (b s : list Qc) :
  length (samples b s)
  = if decide (length b = length s) then length b
    else (length b * length s)%nat.
Proof.
  unfold samples. destruct (decide (length b = length s)) as [E|E].
  - rewrite decide_False by (by intros []). by apply length_paired.
  - rewrite decide_True by done. apply length_outer_grid.
Qed.

(** C4. [Geometry(baz, slow, dx, dy, maxtr)] with non-empty arguments and
    a sample count within [maxtr] returns, and its samples are: for
    back-azimuths and slownesses of different lengths, the full grid, of
    [len(baz) * len(slow)] samples, holding every pair (the pair of
    back-azimuth [i] and slowness [j] at position [j * len(baz) + i]); for
    equal lengths [n], the [n] pairs taken position by position. *)
Theorem Geometry_init_samples (baz_ slow_ : Qc + list Qc) (d0 e0 : Qc)
    (dx_ dy_ : list Qc) (maxtr : Z) :
  let b := as_list baz_ in
  let s := as_list slow_ in
  let count := if decide (length b = length s) then length b
               else (length b * length s)%nat in
  b ≠ [] → s ≠ [] → (Z.of_nat count ≤ maxtr)%Z →
  ∃ g, Geometry_init baz_ slow_ (d0 :: dx_) (e0 :: dy_) maxtr = Ok g
       ∧ ntr g = length (geom g)
       ∧ (length b ≠ length s →
          length (geom g) = (length b * length s)%nat
          ∧ ∀ i j bb ss, b !! i = Some bb → s !! j = Some ss →
              geom g !! (j * length b + i)%nat = Some (bb, ss))
       ∧ (length b = length s →
          length (geom g) = length b
          ∧ ∀ i bb ss, b !! i = Some bb → s !! i = Some ss →
              geom g !! i = Some (bb, ss)).
Proof.
  intros b s count Hb Hs Hfit.
  destruct (Geometry_init_runs baz_ slow_ d0 e0 dx_ dy_ maxtr Hb Hs)
    as (g & Hrun & Hgeom & Hntr & _).
  { fold b s. rewrite length_samples. exact Hfit. }
  fold b s in Hgeom, Hntr.
  exists g. split; [done|]. split; [by rewrite Hgeom|].
  rewrite Hgeom. unfold samples. split; intros Hlen.
  - rewrite decide_True by done. split; [apply length_outer_grid|].
    intros i j bb ss. apply lookup_outer_grid.
  - rewrite decide_False by (by intros []). split; [by apply length_paired|].
    intros i bb ss. apply lookup_paired.
Qed.

Lemma Geometry_init_samples_witness :
  ∃ g, Geometry_init (inr [qz 0; qz 90; qz 180]) (inr [qz 4; qz 6])
         [0] [0] 500 = Ok g
       ∧ length (geom g) = 6%nat.
Proof.
  destruct (Geometry_init_samples (inr [qz 0; qz 90; qz 180])
              (inr [qz 4; qz 6]) 0 0 [] [] 500)
    as (g & Hrun & _ & Houter & _); [done|done|simpl; lia|].
  exists g. split; [exact Hrun|]. apply Houter. simpl. lia.
Defined.

(** C10. For non-empty back-azimuths and slownesses and a sample count
    within [maxtr]: with both offset arrays non-empty the constructor
    returns whatever their lengths, an offset array whose length differs
    from the number of samples [ntr] being replaced by [ntr] copies of its
    first entry and one of length [ntr] being kept; with an empty offset
    array, which has no first entry, it raises [IndexError]. *)
Theorem Geometry_init_offsets (baz_ slow_ : Qc + list Qc) (dx_ dy_ : list Qc)
    (maxtr : Z) :
  let b := as_list baz_ in
  let s := as_list slow_ in
  let count := if decide (length b = length s) then length b
               else (length b * length s)%nat in
  b ≠ [] → s ≠ [] → (Z.of_nat count ≤ maxtr)%Z →
  match dx_, dy_ with
  | d0 :: _, e0 :: _ =>
      ∃ g, Geometry_init baz_ slow_ dx_ dy_ maxtr = Ok g
           ∧ ntr g = count
           ∧ (length dx_ ≠ count → dx g = replicate count d0)
           ∧ (length dx_ = count → dx g = dx_)
           ∧ (length dy_ ≠ count → dy g = replicate count e0)
           ∧ (length dy_ = count → dy g = dy_)
  | _, _ => Geometry_init baz_ slow_ dx_ dy_ maxtr = Err IndexError
  end.
Proof.
  intros b s count Hb Hs Hfit.
  assert (Hcount : length (samples b s) = count)
    by (by rewrite length_samples).
  assert (Hne : samples b s ≠ []) by (by apply samples_nonempty).
  assert (Hpos : count ≠ 0%nat)
    by (rewrite <- Hcount; by destruct (samples b s)).
  assert (Hempty : dx_ = [] ∨ dy_ = [] →
                   Geometry_init baz_ slow_ dx_ dy_ maxtr = Err IndexError).
  { intros Hd.
    assert (Hnone : broadcast_offset count [] = Err IndexError).
    { unfold broadcast_offset. rewrite decide_True by (simpl; lia). done. }
    unfold Geometry_init. cbv zeta. fold b s. fold (samples b s).
    rewrite decide_False by done. rewrite !length_map, Hcount.
    destruct dx_ as [|d0 dx_]; [by rewrite Hnone|].
    rewrite broadcast_offset_ok. cbn [mbind result_bind].
    destruct Hd as [Hd| ->]; [done|]. by rewrite Hnone. }
  destruct dx_ as [|d0 dx_]; [apply Hempty; by left|].
  destruct dy_ as [|e0 dy_]; [apply Hempty; by right|].
  destruct (Geometry_init_runs baz_ slow_ d0 e0 dx_ dy_ maxtr Hb Hs)
    as (g & Hrun & _ & Hntr & Hdx & Hdy).
  { fold b s. by rewrite Hcount. }
  fold b s in Hntr. rewrite Hcount in Hntr. rewrite Hntr in Hdx, Hdy.
  exists g. split; [done|]. split; [done|].
  repeat split; intros Hlen.
  - by rewrite decide_True in Hdx.
  - by rewrite decide_False in Hdx by (by intros []).
  - by rewrite decide_True in Hdy.
  - by rewrite decide_False in Hdy by (by intros []).
Qed.

Lemma Geometry_init_offsets_witness :
  ∃ g, Geometry_init (inr [qz 0; qz 90; qz 180]) (inr [qz 4; qz 6])
         [qz 5; qz 7] [0] 500 = Ok g
       ∧ dx g = replicate 6 (qz 5).
Proof.
  destruct (Geometry_init_offsets (inr [qz 0; qz 90; qz 180])
              (inr [qz 4; qz 6]) [qz 5; qz 7] [0] 500)
    as (g & Hrun & _ & Hdx & _); [done|done|simpl; lia|].
  exists g. split; [exact Hrun|]. apply Hdx. simpl. lia.
Defined.

(** C10 as the claim has it fails: an offset array of length 0, which
    differs from the six samples, is not broadcast; the constructor raises
    [IndexError]. *)
Lemma Geometry_init_empty_offsets_counterexample :
  length ([] : list Qc) ≠ 6%nat
  ∧ Geometry_init (inr [qz 0; qz 90; qz 180]) (inr [qz 4; qz 6]) [] [0] 500
    = Err IndexError.
Proof. split; [done|]. vm_compute. reflexivity. Qed.

(** ** The filter-coefficient cache *)

Section CacheFacts.
Context {N : Numerics}.

Lemma lookup_hit (order : Z) (corners : list Qc) (c : cache)
    (ba : list Qc * list Qc) :
  cached_coefficients c !! (order, corners) = Some ba →
  _get_cached_bandpass_coefs order corners c = (Ok ba, c).
Proof. intros H. unfold _get_cached_bandpass_coefs. cbv zeta. by rewrite H. Qed.

(** The three ways a look-up can go: the key is in the dictionary; it is
    not and the design returns; it is not and the design raises. *)
Lemma lookup_cases (order : Z) (corners : list Qc) (c : cache) :
  let ck := (order, corners) in
  (∃ ba, cached_coefficients c !! ck = Some ba
         ∧ _get_cached_bandpass_coefs order corners c = (Ok ba, c))
  ∨ (cached_coefficients c !! ck = None
     ∧ ∃ ba, butter (length (design_calls c)) order corners = Ok ba
         ∧ _get_cached_bandpass_coefs order corners c
           = (Ok ba, mkCache (<[ck:=ba]> (cached_coefficients c))
                             (design_calls c ++ [ck])))
  ∨ (cached_coefficients c !! ck = None
     ∧ ∃ e, butter (length (design_calls c)) order corners = Err e
         ∧ _get_cached_bandpass_coefs order corners c
           = (Err e, mkCache (cached_coefficients c) (design_calls c ++ [ck]))).
Proof.
  intros ck. unfold _get_cached_bandpass_coefs. cbv zeta. fold ck.
  destruct (cached_coefficients c !! ck) as [ba|] eqn:E.
  - left. by exists ba.
  - right.
    destruct (butter (length (design_calls c)) order corners) as [ba|e].
    + left. split; [done|]. by exists ba.
    + right. split; [done|]. by exists e.
Qed.

Lemma designs_of_snoc (k ck : Z * list Qc)
    (d : gmap (Z * list Qc) (list Qc * list Qc)) (c : cache) :
  designs_of k (mkCache d (design_calls c ++ [ck]))
  = (designs_of k c + if decide (ck = k) then 1 else 0)%nat.
Proof.
  unfold designs_of. cbn [design_calls].
  rewrite filter_app, length_app. f_equal.
  rewrite filter_cons, filter_nil. by destruct (decide (ck = k)).
Qed.

Lemma held_insert (k ck : Z * list Qc) (ba : list Qc * list Qc)
    (c : cache) (calls : list (Z * list Qc)) :
  held k (mkCache (<[ck:=ba]> (cached_coefficients c)) calls)
  = if decide (ck = k) then 1%nat else held k c.
Proof.
  unfold held. cbn [cached_coefficients].
  destruct (decide (ck = k)) as [->|Hne].
  - by rewrite lookup_insert_eq.
  - by rewrite lookup_insert_ne.
Qed.

Lemma holds_designs_insert (order : Z) (corners : list Qc)
    (ba : list Qc * list Qc) (k : nat) (c : cache)
    (calls : list (Z * list Qc)) :
  holds_designs c → butter k order corners = Ok ba →
  holds_designs (mkCache (<[(order, corners):=ba]> (cached_coefficients c))
                         calls).
Proof.
  intros Hc Hk o cs x. cbn [cached_coefficients].
  destruct (decide ((order, corners) = (o, cs))) as [[= <- <-]|Hne].
  - rewrite lookup_insert_eq. intros [= <-]. by exists k.
  - rewrite lookup_insert_ne by done. apply Hc.
Qed.

(** A run of look-ups from any dictionary. *)
Lemma lookups_run (keys : list (Z * list Qc)) (c0 : cache) :
  let rs := (lookups keys c0).1 in
  let c := (lookups keys c0).2 in
  length rs = length keys
  ∧ cached_coefficients c0 ⊆ cached_coefficients c
  ∧ (∀ i k r, keys !! i = Some k → rs !! i = Some (Ok r) →
       cached_coefficients c !! k = Some r)
  ∧ (∀ k r, cached_coefficients c0 !! k = Some r →
       ∀ i, keys !! i = Some k → rs !! i = Some (Ok r))
  ∧ (∀ i j k r, (i < j)%nat → keys !! i = Some k → keys !! j = Some k →
       rs !! i = Some (Ok r) → rs !! j = Some (Ok r))
  ∧ (∀ k, (designs_of k c + held k c0
           = designs_of k c0 + failures_of k keys rs + held k c)%nat)
  ∧ (∀ k, k ∈ design_calls c → k ∈ design_calls c0 ∨ k ∈ keys)
  ∧ (∀ i k e, keys !! i = Some k → rs !! i = Some (Err e) →
       ∃ n, butter n k.1 k.2 = Err e)
  ∧ (holds_designs c0 → holds_designs c).
Proof.
  revert c0. induction keys as [|[order corners] rest IH]; intros c0.
  - cbn [lookups fst snd]. repeat split; try done.
    + intros k. cbn [failures_of]. lia.
    + intros k Hk. by left.
  - cbn [lookups].
    set (ck := (order, corners)).
    assert (Hstep : ∃ r c1,
      _get_cached_bandpass_coefs order corners c0 = (r, c1)
      ∧ cached_coefficients c0 ⊆ cached_coefficients c1
      ∧ (∀ ba, r = Ok ba → cached_coefficients c1 !! ck = Some ba)
      ∧ (∀ ba, cached_coefficients c0 !! ck = Some ba → r = Ok ba)
      ∧ (∀ k, (designs_of k c1 + held k c0
               = designs_of k c0
                 + (if decide (ck = k)
                    then match r with Err _ => 1 | Ok _ => 0 end else 0)
                 + held k c1)%nat)
      ∧ (∀ k, k ∈ design_calls c1 → k ∈ design_calls c0 ∨ k = ck)
      ∧ (∀ e, r = Err e → ∃ n, butter n order corners = Err e)
      ∧ (holds_designs c0 → holds_designs c1)).
    { destruct (lookup_cases order corners c0)
        as [(ba & Hc & ->)|[(Hc & ba & Hb & ->)|(Hc & e & Hb & ->)]];
        fold ck in Hc; eexists _, _; (split; [reflexivity|]).
      - split; [done|]. split; [by intros ? [= <-]|].
        split; [intros ba' Hba'; congruence|].
        split; [intros k; destruct (decide (ck = k)); cbv iota; lia|].
        split; [by left|]. done.
      - cbn [cached_coefficients design_calls].
        split; [by apply insert_subseteq|].
        split; [intros ? [= <-]; apply lookup_insert_eq|].
        split; [congruence|].
        split.
        { intros k. rewrite designs_of_snoc, held_insert. fold ck.
          destruct (decide (ck = k)) as [<-|Hne]; [|cbv iota; lia].
          unfold held at 1. rewrite Hc. lia. }
        split.
        { intros k Hk. apply elem_of_app in Hk as [Hk|Hk]; [by left|].
          right. by apply list_elem_of_singleton in Hk. }
        split; [done|].
        intros Hd.
        by apply (holds_designs_insert _ _ _ (length (design_calls c0))).
      - cbn [cached_coefficients design_calls].
        split; [done|]. split; [done|]. split; [congruence|].
        split.
        { intros k. rewrite designs_of_snoc.
          unfold held. cbn [cached_coefficients]. fold ck.
          destruct (decide (ck = k)); cbv iota; lia. }
        split.
        { intros k Hk. apply elem_of_app in Hk as [Hk|Hk]; [by left|].
          right. by apply list_elem_of_singleton in Hk. }
        split; [|by intros Hd].
        intros ? [= <-]. by exists (length (design_calls c0)). }
    destruct Hstep as (r & c1 & -> & Hsub1 & Hin1 & Hhit1 & Hcount1 & Hcalls1
                       & Hfail1 & Hdes1).
    specialize (IH c1).
    destruct (lookups rest c1) as [rs c] eqn:Hrun. cbn [fst snd] in IH |- *.
    destruct IH as (Hlen & Hsub & Hres & Hhit & Hlater & Hcount & Hcalls
                    & Hfail & Hdes).
    split; [simpl; by rewrite Hlen|].
    split; [by etrans|].
    split.
    { intros [|i] k x Hk Hx; simpl in Hk, Hx.
      - injection Hk as <-. injection Hx as ->.
        apply (lookup_weaken _ _ _ _ (Hin1 x eq_refl) Hsub).
      - by apply (Hres i). }
    split.
    { intros k x Hk0 [|i] Hk; simpl in Hk |- *.
      - injection Hk as <-. by rewrite (Hhit1 x Hk0).
      - apply (Hhit k x); [|done]. by apply (lookup_weaken _ _ _ _ Hk0). }
    split.
    { intros [|i] [|j] k x Hij Hi Hj Hx; simpl in Hi, Hj, Hx |- *; try lia.
      - injection Hi as <-. injection Hx as ->.
        by apply (Hhit ck x (Hin1 x eq_refl)).
      - apply (Hlater i j k x); [lia|done..]. }
    split.
    { intros k. specialize (Hcount k). specialize (Hcount1 k).
      cbn [failures_of]. lia. }
    split.
    { intros k Hk. destruct (Hcalls k Hk) as [Hk1|Hk1].
      - destruct (Hcalls1 k Hk1) as [?| ->]; [by left|]. right. left.
      - right. by right. }
    split; [|by intros Hd; apply Hdes, Hdes1].
    intros [|i] k e Hk He; simpl in Hk, He.
    + injection Hk as <-. injection He as ->. by apply Hfail1.
    + by apply (Hfail i).
Qed.

Lemma failures_of_zero {A : Type} (k : Z * list Qc) (keys : list (Z * list Qc))
    (rs : list (result A)) :
  (∀ i e, keys !! i = Some k → rs !! i ≠ Some (Err e)) →
  failures_of k keys rs = 0%nat.
Proof.
  revert rs. induction keys as [|k' keys IH]; intros [|r rs] H; try done.
  cbn [failures_of]. rewrite IH.
  - destruct (decide (k' = k)) as [->|]; [|done].
    destruct r as [|e]; [done|]. by destruct (H 0%nat e).
  - intros i e Hi. apply (H (S i) e Hi).
Qed.

End CacheFacts.

(** C9. Any run of look-ups from the empty dictionary, each look-up with
    its own result.  Two look-ups with the same [(order, corners)] that
    return, return the same coefficient pair, whatever a second design would
    have produced, and after a look-up that returned every later look-up of
    that key returns.  Every pair returned is still in the dictionary under
    its key at the end.  The design function was called for a key once for
    every look-up of that key that raised, and once more if the dictionary
    holds the key at the end; so at most once for a key whose design never
    raises, and only for keys asked for.  The dictionary holds at the end
    only pairs that the design function returned for their key. *)
Theorem cache_lookups {N : Numerics} (keys : list (Z * list Qc)) :
  let rs := (lookups keys empty_cache).1 in
  let c := (lookups keys empty_cache).2 in
  length rs = length keys
  ∧ (∀ i j k ri rj,
       keys !! i = Some k → keys !! j = Some k →
       rs !! i = Some (Ok ri) → rs !! j = Some (Ok rj) → ri = rj)
  ∧ (∀ i j k r, (i < j)%nat → keys !! i = Some k → keys !! j = Some k →
       rs !! i = Some (Ok r) → rs !! j = Some (Ok r))
  ∧ (∀ i k r, keys !! i = Some k → rs !! i = Some (Ok r) →
       cached_coefficients c !! k = Some r)
  ∧ (∀ k, designs_of k c = (failures_of k keys rs + held k c)%nat)
  ∧ (∀ k, (∀ n, ∃ ba, butter n k.1 k.2 = Ok ba) → (designs_of k c ≤ 1)%nat)
  ∧ (∀ k, k ∈ design_calls c → k ∈ keys)
  ∧ holds_designs c.
Proof.
  intros rs c.
  destruct (lookups_run keys empty_cache)
    as (Hlen & _ & Hres & _ & Hlater & Hcount & Hcalls & Hfail & Hdes).
  fold rs c in Hlen, Hres, Hlater, Hcount, Hcalls, Hfail, Hdes.
  assert (Hc : ∀ k, designs_of k c = (failures_of k keys rs + held k c)%nat).
  { intros k. specialize (Hcount k).
    change (designs_of k empty_cache) with 0%nat in Hcount.
    change (held k empty_cache) with 0%nat in Hcount. lia. }
  split; [done|]. split.
  { intros i j k ri rj Hi Hj Hri Hrj.
    pose proof (Hres i k ri Hi Hri). pose proof (Hres j k rj Hj Hrj).
    congruence. }
  split; [done|]. split; [done|]. split; [done|]. split.
  - intros k Hd. rewrite Hc, failures_of_zero.
    + unfold held. destruct (cached_coefficients c !! k); lia.
    + intros i e Hi He. destruct (Hfail i k e Hi He) as [n Hn].
      destruct (Hd n) as [ba Hba]. congruence.
  - split.
    + intros k Hk. destruct (Hcalls k Hk) as [Hk'|]; [|done].
      by apply elem_of_nil in Hk'.
    + apply Hdes. intros order corners ba Hin.
      cbn [cached_coefficients empty_cache] in Hin.
      by rewrite lookup_empty in Hin.
Qed.

(** C9 as the claim has it fails: a key with a corner above the Nyquist
    frequency, for which the design raises, is designed at each of its two
    look-ups. *)
Lemma cache_redesign_counterexample :
  let k := (2%Z, [qz 1 / qz 20; qz 3 / qz 2]) in
  let run := lookups (N := strict_numerics) [k; k] empty_cache in
  run.1 = [Err ValueError; Err ValueError]
  ∧ design_calls run.2 = [k; k]
  ∧ designs_of k run.2 = 2%nat.
Proof. cbv zeta. repeat split; vm_compute; reflexivity. Qed.

(** ** The batch against the full pipeline *)

Section BandpassFacts.
Context {N : Numerics}.

Lemma bandpass_hit (dt fmin fmax : Qc) (arr b a : list Qc) (c : cache) :
  cached_coefficients c !! (2%Z, [qz 2 * dt * fmin; qz 2 * dt * fmax])
  = Some (b, a) →
  _bandpass dt fmin fmax arr c = (Ok (zero_phase b a arr), c).
Proof.
  intros H. unfold _bandpass. cbv zeta. by rewrite (lookup_hit _ _ _ _ H).
Qed.

(** When the design for the corners succeeds, the first call of
    [_bandpass] fixes the coefficients and the cache for all later calls. *)
Lemma bandpass_settles (dt fmin fmax : Qc) (c : cache) :
  (∀ n, ∃ ba, butter n 2 [qz 2 * dt * fmin; qz 2 * dt * fmax] = Ok ba) →
  ∃ b a c1, filters_with dt fmin fmax b a c1 c
            ∧ filters_with dt fmin fmax b a c1 c1.
Proof.
  intros Hd.
  set (key := (2%Z, [qz 2 * dt * fmin; qz 2 * dt * fmax])).
  destruct (cached_coefficients c !! key) as [[b a]|] eqn:E.
  - exists b, a, c. split; intros arr; by apply bandpass_hit.
  - destruct (Hd (length (design_calls c))) as [[b a] Hba].
    exists b, a,
      (mkCache (<[key:=(b, a)]> (cached_coefficients c)) (design_calls c ++ [key])).
    split; intros arr.
    + unfold _bandpass, _get_cached_bandpass_coefs. cbv zeta.
      fold key. by rewrite E, Hba.
    + apply bandpass_hit. cbn [cached_coefficients]. fold key.
      apply lookup_insert_eq.
Qed.

(** The first call of [_bandpass] for corners that are not in the
    dictionary, the design returning [b], [a]: this and every later call
    filter with [b], [a], and the dictionary has the one new entry. *)
Lemma bandpass_first (dt fmin fmax : Qc) (b a : list Qc) (c : cache) :
  let key := (2%Z, [qz 2 * dt * fmin; qz 2 * dt * fmax]) in
  let c1 := mkCache (<[key:=(b, a)]> (cached_coefficients c))
                    (design_calls c ++ [key]) in
  cached_coefficients c !! key = None →
  butter (length (design_calls c)) 2 [qz 2 * dt * fmin; qz 2 * dt * fmax]
  = Ok (b, a) →
  filters_with dt fmin fmax b a c1 c ∧ filters_with dt fmin fmax b a c1 c1.
Proof.
  intros key c1 Hmiss Hba. split; intros arr.
  - unfold _bandpass, _get_cached_bandpass_coefs. cbv zeta.
    fold key. by rewrite Hmiss, Hba.
  - apply bandpass_hit. cbn [cached_coefficients c1]. fold key.
    apply lookup_insert_eq.
Qed.

End BandpassFacts.

Section BatchFacts.
Context {N : Numerics} {L : NumericsLaws N}.

Lemma length_fftshift {A : Type} (x : list A) : length (fftshift x) = length x.
Proof.
  unfold fftshift. rewrite length_app, length_drop, length_take.
  assert (length x / 2 ≤ length x)%nat by (apply Nat.Div0.div_le_upper_bound; lia).
  lia.
Qed.

Lemma length_column (arr : ndarray3) (c npts n : nat) :
  length (column arr c npts n) = npts.
Proof. unfold column. by rewrite length_map, length_seq. Qed.

Lemma length_receiver_function (num den : list Qc) :
  length num = length den →
  length (receiver_function num den) = length num.
Proof.
  intros H. unfold receiver_function.
  rewrite length_fftshift, length_map, length_ifft, length_zip_with,
    !length_fft. lia.
Qed.

Lemma length_zero_phase (b a arr : list Qc) :
  length (zero_phase b a arr) = length arr.
Proof.
  unfold zero_phase.
  by rewrite length_rev, length_lfilter, length_rev, length_lfilter, length_map.
Qed.

Lemma spectral_division_fft (num den : list Qc) :
  length num = length den →
  spectral_division (fft num) (fft den) = Ok (receiver_function num den).
Proof.
  intros H. unfold spectral_division.
  rewrite np_binop_same by (rewrite !length_fft; done). done.
Qed.

Lemma map_lookup_seq (v : list Qc) :
  map (λ k, default 0 (v !! k)) (seq 0 (length v)) = v.
Proof.
  apply list_eq. intros i. rewrite list_lookup_fmap.
  destruct (decide (i < length v)%nat) as [Hi|Hi].
  - rewrite lookup_seq_lt by done. simpl.
    destruct (lookup_lt_is_Some_2 v i Hi) as [x ->]. done.
  - rewrite lookup_seq_ge by lia. simpl. symmetry.
    apply lookup_ge_None. lia.
Qed.

Lemma set_row3_ok (out : ndarray3) (n r : nat) (v : list Qc) :
  (n < shape0 out)%nat → (r < shape1 out)%nat → length v = shape2 out →
  ∃ out', set_row3 out n r v = Ok out'
    ∧ shape0 out' = shape0 out ∧ shape1 out' = shape1 out
    ∧ shape2 out' = shape2 out
    ∧ row3 out' n r = v
    ∧ ∀ n' r', ¬ (n' = n ∧ r' = r) → row3 out' n' r' = row3 out n' r'.
Proof.
  intros Hn Hr Hv. unfold set_row3.
  rewrite decide_True by done. rewrite decide_True by (by left).
  eexists. split; [reflexivity|]. cbn [shape0 shape1 shape2].
  repeat split.
  - transitivity (map (λ k, default 0 (v !! k)) (seq 0 (length v)));
      [|apply map_lookup_seq].
    rewrite Hv. unfold row3. cbn [shape2 at3].
    apply map_ext. intros k.
    rewrite decide_True by done. by rewrite decide_True.
  - intros n' r' Hne. unfold row3. cbn [shape2 at3].
    apply map_ext. intros k. by rewrite decide_False.
Qed.

End BatchFacts.

Section BatchLoop.
Context {N : Numerics} {L : NumericsLaws N}.
Variables (dt fmin fmax : Qc) (b a : list Qc) (c1 : cache).
Variables (arr : ndarray3) (npts : nat).
Hypothesis settled : filters_with dt fmin fmax b a c1 c1.

Lemma batch_row_ok (out : ndarray3) (cx : cache) (n r c : nat) :
  filters_with dt fmin fmax b a c1 cx →
  (n < shape0 out)%nat → (r < shape1 out)%nat → shape2 out = npts →
  ∃ out',
    batch_row dt fmin fmax (fft (column arr c npts n))
              (fft (column arr 0 npts n)) n r (mkBatch None out cx)
    = mkBatch None out' c1
    ∧ shape0 out' = shape0 out ∧ shape1 out' = shape1 out
    ∧ shape2 out' = shape2 out
    ∧ row3 out' n r = filtered_rf b a arr npts n c
    ∧ ∀ n' r', ¬ (n' = n ∧ r' = r) → row3 out' n' r' = row3 out n' r'.
Proof.
  intros Hcx Hn Hr Hs. unfold batch_row. cbn [b_out b_cache].
  rewrite spectral_division_fft by (by rewrite !length_column).
  rewrite Hcx.
  destruct (set_row3_ok out n r
              (zero_phase b a (receiver_function (column arr c npts n)
                                                 (column arr 0 npts n))))
    as (out' & -> & H0 & H1 & H2 & Hrow & Hother); [done|done| |].
  { rewrite length_zero_phase, length_receiver_function, length_column;
      [done|by rewrite !length_column]. }
  exists out'. repeat split; done.
Qed.

Lemma batch_loop_spec (ns : list nat) (out : ndarray3) (cx : cache) :
  filters_with dt fmin fmax b a c1 cx →
  NoDup ns → (∀ n, n ∈ ns → (n < shape0 out)%nat) →
  shape1 out = 2%nat → shape2 out = npts →
  let s := batch_loop dt fmin fmax arr npts ns (mkBatch None out cx) in
  b_error s = None
  ∧ b_cache s = (if decide (ns = []) then cx else c1)
  ∧ (∀ n, n ∈ ns →
       row3 (b_out s) n 0 = filtered_rf b a arr npts n 1
       ∧ row3 (b_out s) n 1 = filtered_rf b a arr npts n 2)
  ∧ (∀ n r, n ∉ ns → row3 (b_out s) n r = row3 out n r).
Proof.
  revert out cx.
  induction ns as [|n ns IH]; intros out cx Hcx Hnd Hlt Hs1 Hs2 s.
  - subst s. simpl. split; [done|]. split; [done|]. split; [|done].
    intros m Hm. by apply elem_of_nil in Hm.
  - subst s. cbn [batch_loop].
    fold (column arr 0 npts n) (column arr 1 npts n) (column arr 2 npts n).
    destruct (batch_row_ok out cx n 0 1 Hcx) as (o1 & -> & A0 & A1 & A2 & Ar & Ao);
      [apply Hlt; left|lia|done|].
    cbn [b_error].
    destruct (batch_row_ok o1 c1 n 1 2 settled) as (o2 & -> & B0 & B1 & B2 & Br & Bo);
      [rewrite A0; apply Hlt; left|lia|congruence|].
    cbn [b_error].
    apply NoDup_cons in Hnd as [Hnotin Hnd].
    destruct (IH o2 c1 settled Hnd) as (He & Hc & Hrows & Hrest).
    { intros m Hm. rewrite B0, A0. apply Hlt. by right. }
    { congruence. }
    { congruence. }
    split; [done|]. split.
    { rewrite decide_False by done. rewrite Hc. by destruct (decide _). }
    split.
    + intros m Hm. apply elem_of_cons in Hm as [->|Hm]; [|by apply Hrows].
      rewrite !Hrest by done. split.
      * rewrite Bo by lia. done.
      * done.
    + intros m r Hm. apply not_elem_of_cons in Hm as [Hne Hm].
      rewrite Hrest by done. rewrite Bo by tauto. apply Ao. tauto.
Qed.

End BatchLoop.

(** ** The trace unpacker *)

Lemma bind_singleton {A B : Type} (f : A → B) (l : list A) :
  (x ← l; [f x]) = map f l.
Proof. reflexivity. Qed.

Lemma length_bind_const {A B : Type} (g : A → list B) (l : list A) (m : nat) :
  (∀ x, length (g x) = m) → length (l ≫= g) = (length l * m)%nat.
Proof.
  intros Hg. induction l as [|x l IH]; [done|].
  change ((x :: l) ≫= g) with (g x ++ (l ≫= g)).
  rewrite length_app, Hg, IH. simpl. lia.
Qed.

Lemma zip_with_bind {A B C D : Type} (f : B → C → D) (l : list A)
    (g : A → list B) (h : A → list C) :
  (∀ x, length (g x) = length (h x)) →
  zip_with f (l ≫= g) (l ≫= h) = l ≫= (λ x, zip_with f (g x) (h x)).
Proof.
  intros Hlen. induction l as [|x l IH]; [done|].
  change ((x :: l) ≫= g) with (g x ++ (l ≫= g)).
  change ((x :: l) ≫= h) with (h x ++ (l ≫= h)).
  rewrite zip_with_app by apply Hlen. by rewrite IH.
Qed.

Lemma zip_with_maps {A B C D : Type} (f : B → C → D) (g : A → B) (h : A → C)
    (l : list A) :
  zip_with f (map g l) (map h l) = map (λ x, f (g x) (h x)) l.
Proof. induction l as [|x l IH]; [done|]. simpl. by rewrite IH. Qed.

Lemma replicate_as_map (n : nat) (j : nat) :
  replicate n j = map (λ _, j) (seq 0 n).
Proof.
  generalize 0%nat. induction n as [|n IH]; intros k; [done|].
  simpl. by rewrite (IH (S k)).
Qed.

Lemma filter_bind {A B : Type} (P : B → Prop) `{∀ x, Decision (P x)}
    (g : A → list B) (l : list A) :
  filter P (l ≫= g) = l ≫= (λ x, filter P (g x)).
Proof.
  induction l as [|x l IH]; [done|].
  change ((x :: l) ≫= g) with (g x ++ (l ≫= g)).
  rewrite filter_app. by rewrite IH.
Qed.

Lemma filter_all {A : Type} (P : A → Prop) `{∀ x, Decision (P x)} (l : list A) :
  Forall P l → filter P l = l.
Proof.
  induction 1 as [|x l Hx Hl IH]; [done|].
  rewrite filter_cons_True by done. by rewrite IH.
Qed.

Lemma filter_none {A : Type} (P : A → Prop) `{∀ x, Decision (P x)} (l : list A) :
  Forall (λ x, ¬ P x) l → filter P l = [].
Proof.
  induction 1 as [|x l Hx Hl IH]; [done|].
  by rewrite filter_cons_False by done.
Qed.

Lemma bind_skip {B : Type} (g : nat → list B) (n : nat) (l : list nat) :
  n ∉ l → (l ≫= λ j, if decide (j = n) then g j else []) = [].
Proof.
  induction l as [|j l IH]; intros Hn; [done|].
  apply not_elem_of_cons in Hn as [Hne Hn].
  change (((if decide (j = n) then g j else [])
           ++ (l ≫= λ j, if decide (j = n) then g j else [])) = []).
  rewrite decide_False by done. by rewrite IH.
Qed.

Lemma bind_pick {B : Type} (g : nat → list B) (n start len : nat) :
  (start ≤ n < start + len)%nat →
  (seq start len ≫= λ j, if decide (j = n) then g j else []) = g n.
Proof.
  revert start. induction len as [|len IH]; intros start Hn; [lia|].
  change (((if decide (start = n) then g start else [])
           ++ (seq (S start) len ≫= λ j, if decide (j = n) then g j else []))
          = g n).
  destruct (decide (start = n)) as [->|Hne].
  - rewrite bind_skip; [apply app_nil_r|].
    intros Hin%list_elem_of_In%in_seq. lia.
  - simpl. apply IH. lia.
Qed.

Lemma foldr_max_app (l k : list nat) :
  foldr Nat.max 0%nat (l ++ k)
  = Nat.max (foldr Nat.max 0%nat l) (foldr Nat.max 0%nat k).
Proof. induction l as [|x l IH]; simpl; [done|]. rewrite IH. lia. Qed.

Lemma foldr_max_replicate (n j : nat) :
  (0 < n)%nat → foldr Nat.max 0%nat (replicate n j) = j.
Proof.
  intros H. induction n as [|n IH]; [lia|]. simpl.
  destruct n; simpl in *; [lia|]. rewrite IH by lia. lia.
Qed.

Lemma max_trace_index (npts k : nat) :
  (0 < npts)%nat →
  foldr Nat.max 0%nat (seq 0 (S k) ≫= replicate npts) = k.
Proof.
  intros Hn. induction k as [|k IH].
  - cbn [seq mbind list_bind]. rewrite app_nil_r.
    by apply foldr_max_replicate.
  - rewrite seq_S, bind_app, foldr_max_app, IH.
    cbn [Nat.add mbind list_bind]. rewrite app_nil_r.
    rewrite foldr_max_replicate by done. lia.
Qed.

Lemma trace_count (npts n : nat) :
  (0 < npts)%nat → (0 < n)%nat →
  S (foldr Nat.max 0%nat (seq 0 n ≫= replicate npts)) = n.
Proof.
  intros Hp Hn. destruct n as [|k]; [lia|]. by rewrite max_trace_index.
Qed.

Lemma mapM_result_ok {A B : Type} (f : A → result B) (g : A → B) (l : list A) :
  (∀ x, x ∈ l → f x = Ok (g x)) → mapM f l = Ok (map g l).
Proof.
  induction l as [|x l IH]; intros H; [done|].
  cbn [mapM]. rewrite (H x) by left. cbn [mbind result_bind].
  rewrite IH by (intros y Hy; apply H; by right). done.
Qed.

Section Unpacker.
Variables (arr : ndarray3) (geom_ : list (Qc * Qc)) (dt shift : Qc).
Variables (npts ntr_ : nat).
Hypothesis three_components : (3 ≤ shape0 arr)%nat.
Hypothesis samples_fit : (npts ≤ shape1 arr)%nat.
Hypothesis traces_fit : (ntr_ ≤ shape2 arr)%nat.
Hypothesis some_samples : (0 < npts)%nat.
Hypothesis some_traces : (0 < ntr_)%nat.
Hypothesis geometry_fits : (ntr_ ≤ length geom_)%nat.

Lemma crop_ok (c : nat) :
  (c < 3)%nat → crop arr c npts ntr_ = Ok (mkArray2 npts ntr_ (at3 arr c)).
Proof.
  intros Hc. unfold crop. rewrite decide_True by lia.
  by rewrite !Nat.min_l by lia.
Qed.

Lemma reshape_ok (c : nat) :
  reshape_F (mkArray2 npts ntr_ (at3 arr c)) (npts * ntr_)
  = Ok (seq 0 ntr_ ≫= column arr c npts).
Proof.
  unfold reshape_F. cbn [rows cols at2]. by rewrite decide_True.
Qed.

Lemma bind_ext_all {A B : Type} (g h : A → list B) (l : list A) :
  (∀ x, g x = h x) → l ≫= g = l ≫= h.
Proof.
  intros H. induction l as [|x l IH]; [done|].
  change (g x ++ (l ≫= g) = h x ++ (l ≫= h)). by rewrite H, IH.
Qed.

Lemma rows_of_columns (j : nat) :
  zip_with (λ '(a, b) '(c, i), mkRow a b c i)
           (zip (column arr 0 npts j) (column arr 1 npts j))
           (zip (column arr 2 npts j) (replicate npts j))
  = frame_rows arr npts j.
Proof.
  unfold column, frame_rows. rewrite replicate_as_map.
  by rewrite !zip_with_maps.
Qed.

Lemma frame_is_rows :
  DataFrame (seq 0 ntr_ ≫= column arr 0 npts) (seq 0 ntr_ ≫= column arr 1 npts)
            (seq 0 ntr_ ≫= column arr 2 npts) (seq 0 ntr_ ≫= replicate npts)
  = Ok (seq 0 ntr_ ≫= frame_rows arr npts).
Proof.
  unfold DataFrame.
  rewrite !(length_bind_const _ _ npts)
    by (intros; by rewrite ?length_column, ?length_replicate).
  rewrite decide_True by done. f_equal.
  rewrite (zip_with_bind pair (seq 0 ntr_) (column arr 0 npts)
             (column arr 1 npts))
    by (intros; by rewrite !length_column).
  rewrite (zip_with_bind pair (seq 0 ntr_) (column arr 2 npts)
             (replicate npts))
    by (intros; by rewrite length_column, length_replicate).
  rewrite zip_with_bind
    by (intros; by rewrite !length_zip_with, !length_column, length_replicate).
  apply bind_ext_all. apply rows_of_columns.
Qed.

Lemma length_frame_rows (j : nat) : length (frame_rows arr npts j) = npts.
Proof. unfold frame_rows. by rewrite length_map, length_seq. Qed.

Lemma frame_rows_itr (j : nat) :
  map itr (frame_rows arr npts j) = replicate npts j.
Proof.
  unfold frame_rows. rewrite replicate_as_map, map_map. done.
Qed.

Lemma frame_rows_select (n : nat) :
  (n < ntr_)%nat →
  filter (λ r, itr r = n) (seq 0 ntr_ ≫= frame_rows arr npts)
  = frame_rows arr npts n.
Proof.
  intros Hn. rewrite filter_bind.
  rewrite (bind_ext_all _ (λ j, if decide (j = n) then frame_rows arr npts j
                                else [])).
  - apply bind_pick. lia.
  - intros j. destruct (decide (j = n)) as [->|Hne].
    + apply filter_all. unfold frame_rows. apply Forall_forall.
      intros r Hr%list_elem_of_In%in_map_iff. by destruct Hr as (i & <- & _).
    + apply filter_none. unfold frame_rows. apply Forall_forall.
      intros r Hr%list_elem_of_In%in_map_iff. by destruct Hr as (i & <- & _).
Qed.

Lemma frame_rows_columns (n : nat) :
  map trace1 (frame_rows arr npts n) = column arr 0 npts n
  ∧ map trace2 (frame_rows arr npts n) = column arr 1 npts n
  ∧ map trace3 (frame_rows arr npts n) = column arr 2 npts n.
Proof. unfold frame_rows, column. by rewrite !map_map. Qed.

Lemma map_bind {A B C : Type} (f : B → C) (g : A → list B) (l : list A) :
  map f (l ≫= g) = l ≫= (λ x, map f (g x)).
Proof.
  induction l as [|x l IH]; [done|].
  change (map f (g x ++ (l ≫= g)) = map f (g x) ++ (l ≫= λ x, map f (g x))).
  by rewrite map_app, IH.
Qed.

(** [read_traces] with [rot = 2] on an array that holds the three
    components, [npts] samples and [ntr] traces, with a geometry entry per
    trace: one stream per trace, in order. *)
Lemma read_traces_unpacks :
  read_traces arr geom_ dt 2 shift npts ntr_
  = Ok (map (unpacked arr geom_ dt shift npts) (seq 0 ntr_)).
Proof.
  unfold read_traces.
  rewrite !crop_ok by lia. cbn [mbind result_bind].
  rewrite !reshape_ok. cbn [mbind result_bind].
  change (seq 0 ntr_ ≫= λ tr : nat, replicate npts tr)
    with (seq 0 ntr_ ≫= replicate npts).
  rewrite frame_is_rows. cbn [mbind result_bind].
  change (component_names 2) with (Ok (str "PVH")).
  cbn [mbind result_bind].
  rewrite decide_False.
  2:{ intros Hnil. apply (f_equal length) in Hnil.
      rewrite (length_bind_const _ _ npts) in Hnil by apply length_frame_rows.
      rewrite length_seq in Hnil. simpl in Hnil. nia. }
  cbn [mbind result_bind].
  rewrite map_bind.
  rewrite (bind_ext_all _ (replicate npts)) by apply frame_rows_itr.
  rewrite trace_count by done.
  apply mapM_result_ok. intros n Hn%list_elem_of_In%in_seq.
  rewrite !frame_rows_select by lia.
  destruct (frame_rows_columns n) as (-> & -> & ->).
  destruct (getitem_ok geom_ n) as (g & Hg & ->); [lia|].
  cbn [mbind result_bind]. unfold unpacked. rewrite Hg.
  rewrite length_frame_rows. reflexivity.
Qed.

End Unpacker.

(** ** [calculate_rfs] on the unpacked traces *)

Lemma mapM_map_Forall2 {A B C : Type} (f : A → result B) (g : C → A)
    (P : C → B → Prop) (l : list C) :
  (∀ x, x ∈ l → ∃ y, f (g x) = Ok y ∧ P x y) →
  ∃ ys, mapM f (map g l) = Ok ys ∧ Forall2 P l ys.
Proof.
  induction l as [|x l IH]; intros H.
  - exists []. split; [done|constructor].
  - destruct (H x) as (y & Hy & HP); [left|].
    destruct IH as (ys & Hys & HF); [intros z Hz; apply H; by right|].
    exists (y :: ys). split; [|by constructor].
    cbn [map mapM]. rewrite Hy. cbn [mbind result_bind]. by rewrite Hys.
Qed.

Lemma component_of_channel (pre : string) (c : ascii) :
  component_of (channel_name pre c) = Some c.
Proof.
  unfold component_of, channel_name, str.
  induction pre as [|x pre IH]; [done|].
  simpl. rewrite last_cons. simpl in IH. by rewrite IH.
Qed.

Lemma select_cons (tr : Trace) (stream : Stream) (c : ascii) :
  select (tr :: stream) c
  = if decide (component_of (st_channel (stats tr)) = Some c)
    then tr :: select stream c else select stream c.
Proof. reflexivity. Qed.

Section FullPipeline.
Context {N : Numerics} {L : NumericsLaws N}.
Variables (arr : ndarray3) (geom_ : list (Qc * Qc)) (dt shift : Qc).
Variables (npts : nat).

Lemma calculate_rfs_unpacked (ns : list nat) :
  ∃ rfs, calculate_rfs (map (unpacked arr geom_ dt shift npts) ns) 2 "P"
         = Ok rfs
       ∧ Forall2 (rfs_of arr npts) ns rfs.
Proof.
  unfold calculate_rfs.
  change (rf_components 2) with (Ok (str "VHP")). cbn [mbind result_bind].
  apply mapM_map_Forall2. intros n _.
  unfold unpacked. cbv zeta.
  set (g := default _ _). set (tx := map _ (seq 0 npts)).
  remember (column arr 0 npts n) as t0 eqn:E0.
  remember (column arr 1 npts n) as t1 eqn:E1.
  remember (column arr 2 npts n) as t2 eqn:E2.
  assert (length t1 = length t0) as H1 by (subst; by rewrite !length_column).
  assert (length t2 = length t0) as H2 by (subst; by rewrite !length_column).
  clearbody g tx.
  change (getitem (?x :: ?l) 0) with (Ok x) at 1. cbn [mbind result_bind].
  change (getitem (str "VHP") 0) with (Ok "V"%char). cbn [mbind result_bind].
  change (getitem (str "VHP") 1) with (Ok "H"%char). cbn [mbind result_bind].
  change (getitem (str "VHP") 2) with (Ok "P"%char). cbn [mbind result_bind].
  rewrite !select_cons. cbn [stats st_channel].
  rewrite !component_of_channel.
  repeat (case_decide; [try discriminate|try congruence]).
  change (getitem (?x :: ?l) 0) with (Ok x). cbn [mbind result_bind].
  change (String.eqb "P" "P") with true. cbv iota. cbn [data].
  rewrite !spectral_division_fft by done. cbn [mbind result_bind].
  eexists. split; [reflexivity|].
  eexists _, _. split; [reflexivity|]. by subst.
Qed.


End FullPipeline.

(** ** [filtered_rf_array] and the full pipeline *)

Section Refinement.
Context {N : Numerics} {L : NumericsLaws N}.
Variables (dt fmin fmax : Qc) (b a : list Qc) (c1 : cache).
Variables (arr : ndarray3) (npts : nat).
Hypothesis settled : filters_with dt fmin fmax b a c1 c1.

Lemma filtered_rf_array_spec (out : ndarray3) (ntr_ : nat) (cx : cache) :
  filters_with dt fmin fmax b a c1 cx →
  (3 ≤ shape0 arr)%nat → (npts ≤ shape1 arr)%nat → (ntr_ ≤ shape2 arr)%nat →
  shape0 out = ntr_ → shape1 out = 2%nat → shape2 out = npts →
  let s := filtered_rf_array arr out ntr_ npts dt fmin fmax cx in
  b_error s = None
  ∧ b_cache s = (if decide (seq 0 ntr_ = []) then cx else c1)
  ∧ ∀ n, (n < ntr_)%nat →
      row3 (b_out s) n 0 = filtered_rf b a arr npts n 1
      ∧ row3 (b_out s) n 1 = filtered_rf b a arr npts n 2.
Proof.
  intros Hcx H0 H1 H2 S0 S1 S2 s. subst s. unfold filtered_rf_array, crop.
  rewrite !decide_True by lia. cbn [mbind result_bind rows cols].
  rewrite !Nat.min_l by lia.
  destruct (batch_loop_spec dt fmin fmax b a c1 arr npts settled
              (seq 0 ntr_) out cx Hcx) as (He & Hc & Hrows & _);
    [apply NoDup_seq| |done|done|].
  { intros n Hn%elem_of_seq. lia. }
  split; [done|]. split; [done|].
  intros n Hn. apply Hrows, elem_of_seq. lia.
Qed.

End Refinement.

Section AgainstFullPipeline.
Context {N : Numerics} {L : NumericsLaws N}.
Variables (arr : ndarray3) (geom_ : list (Qc * Qc)) (dt shift fmin fmax : Qc).
Variables (npts ntr_ : nat).
Hypothesis three_components : (3 ≤ shape0 arr)%nat.
Hypothesis samples_fit : (npts ≤ shape1 arr)%nat.
Hypothesis traces_fit : (ntr_ ≤ shape2 arr)%nat.
Hypothesis some_samples : (0 < npts)%nat.
Hypothesis some_traces : (0 < ntr_)%nat.
Hypothesis geometry_fits : (ntr_ ≤ length geom_)%nat.

Lemma zero_phase_rfs (b a : list Qc) (ns : list nat) (rfs : list Stream) :
  Forall2 (rfs_of arr npts) ns rfs →
  mapM (λ rfstream : Stream,
          rfr ← getitem rfstream 0;
          rft ← getitem rfstream 1;
          Ok (zero_phase b a (data rfr), zero_phase b a (data rft)))
       rfs
  = Ok (map (λ n, (filtered_rf b a arr npts n 1, filtered_rf b a arr npts n 2))
            ns).
Proof.
  induction 1 as [|n st ns rfs (rfr & rft & -> & Hr & Ht) HF IH]; [done|].
  cbn [mapM map].
  change (getitem [rfr; rft] 0) with (Ok rfr).
  change (getitem [rfr; rft] 1) with (Ok rft).
  cbn [mbind result_bind]. rewrite IH. cbn [mbind result_bind mret result_ret].
  unfold filtered_rf. by rewrite Hr, Ht.
Qed.

(** The full pipeline with the [k]-th design of the library: it raises
    what the design raises, and otherwise returns the two zero-phase
    filtered receiver functions of every trace. *)
Lemma full_pipeline_runs (k : nat) :
  full_pipeline arr geom_ shift ntr_ npts dt fmin fmax k
  = match butter k 2 [qz 2 * dt * fmin; qz 2 * dt * fmax] with
    | Ok (b, a) =>
        Ok (map (λ n, (filtered_rf b a arr npts n 1,
                       filtered_rf b a arr npts n 2)) (seq 0 ntr_))
    | Err e => Err e
    end.
Proof.
  unfold full_pipeline.
  rewrite (read_traces_unpacks arr geom_ dt shift npts ntr_) by assumption.
  cbn [mbind result_bind].
  destruct (calculate_rfs_unpacked arr geom_ dt shift npts (seq 0 ntr_))
    as (rfs & -> & HF).
  cbn [mbind result_bind].
  destruct (butter k 2 _) as [[b a]|e]; [|done].
  cbn [mbind result_bind fst snd]. by apply zero_phase_rfs.
Qed.

(** A design that raises at the first receiver function of the batch. *)
Lemma batch_design_raises (arr_out : ndarray3) (c : cache) (e : exn) :
  cached_coefficients c !! (2%Z, [qz 2 * dt * fmin; qz 2 * dt * fmax]) = None →
  butter (length (design_calls c)) 2 [qz 2 * dt * fmin; qz 2 * dt * fmax]
  = Err e →
  filtered_rf_array arr arr_out ntr_ npts dt fmin fmax c
  = mkBatch (Some e) arr_out
      (mkCache (cached_coefficients c)
         (design_calls c ++ [(2%Z, [qz 2 * dt * fmin; qz 2 * dt * fmax])])).
Proof.
  intros Hmiss Hfail. unfold filtered_rf_array, crop.
  rewrite !decide_True by lia. cbn [mbind result_bind rows cols].
  destruct (ntr_ `min` shape2 arr)%nat as [|k] eqn:E; [lia|].
  cbn [seq batch_loop]. cbv zeta.
  set (nrows := (npts `min` shape1 arr)%nat).
  fold (column arr 0 nrows 0) (column arr 1 nrows 0) (column arr 2 nrows 0).
  assert (Hrow :
    batch_row dt fmin fmax (fft (column arr 1 nrows 0))
      (fft (column arr 0 nrows 0)) 0 0 (mkBatch None arr_out c)
    = mkBatch (Some e) arr_out
        (mkCache (cached_coefficients c)
           (design_calls c
            ++ [(2%Z, [qz 2 * dt * fmin; qz 2 * dt * fmax])]))).
  { unfold batch_row. cbn [b_out b_cache].
    rewrite spectral_division_fft by (by rewrite !length_column).
    unfold _bandpass, _get_cached_bandpass_coefs. cbv zeta.
    by rewrite Hmiss, Hfail. }
  rewrite Hrow. reflexivity.
Qed.

End AgainstFullPipeline.

(** C1. The batch against the full pipeline.  On a solver output with the
    three components, at least [npts] samples and [ntr] traces, one
    geometry entry per trace, a positive trace and sample count, an output
    array of shape [(ntr, 2, npts)] and a dictionary that holds only
    designs of the library (as it still does afterwards):

    - when [filtered_rf_array] returns, there is a design [k] of the
      library with which the full pipeline, that is [read_traces] with
      [rot = 2], then [calculate_rfs] with wave type [P], then the
      Butterworth band-pass of order 2 at the corners
      [(2*dt*fmin, 2*dt*fmax)] applied zero-phase, returns one pair of
      receiver functions per trace, and for every trace index [n] below
      [ntr] that pair is [(arr_out[n, 0, :], arr_out[n, 1, :])], its first
      receiver function in row 0 and its second in row 1;
    - [filtered_rf_array] raises only when the corners are not in the
      dictionary and the design for them raises; the full pipeline with
      that design raises the same exception, and nothing was written to
      [arr_out]. *)
Theorem filtered_rf_array_refines {N : Numerics} {L : NumericsLaws N}
    (sspread_arr arr_out : ndarray3) (geom_ : list (Qc * Qc)) (shift : Qc)
    (ntr_ npts : nat) (dt fmin fmax : Qc) (c : cache) :
  (3 ≤ shape0 sspread_arr)%nat →
  (npts ≤ shape1 sspread_arr)%nat →
  (ntr_ ≤ shape2 sspread_arr)%nat →
  (0 < npts)%nat → (0 < ntr_)%nat →
  (ntr_ ≤ length geom_)%nat →
  shape0 arr_out = ntr_ → shape1 arr_out = 2%nat → shape2 arr_out = npts →
  holds_designs c →
  let s := filtered_rf_array sspread_arr arr_out ntr_ npts dt fmin fmax c in
  let corners := [qz 2 * dt * fmin; qz 2 * dt * fmax] in
  holds_designs (b_cache s)
  ∧ match b_error s with
    | None =>
        ∃ k rfs,
          full_pipeline sspread_arr geom_ shift ntr_ npts dt fmin fmax k
          = Ok rfs
          ∧ length rfs = ntr_
          ∧ ∀ n, (n < ntr_)%nat →
              rfs !! n = Some (row3 (b_out s) n 0, row3 (b_out s) n 1)
    | Some e =>
        cached_coefficients c !! (2%Z, corners) = None
        ∧ butter (length (design_calls c)) 2 corners = Err e
        ∧ full_pipeline sspread_arr geom_ shift ntr_ npts dt fmin fmax
            (length (design_calls c)) = Err e
        ∧ b_out s = arr_out
    end.
Proof.
  intros H0 H1 H2 Hp Ht Hg S0 S1 S2 Hc s corners.
  set (key := (2%Z, corners)).
  assert (Hreturns : ∀ (b a : list Qc) (c1 : cache) (k : nat),
    filters_with dt fmin fmax b a c1 c → filters_with dt fmin fmax b a c1 c1 →
    butter k 2 corners = Ok (b, a) → holds_designs c1 →
    holds_designs (b_cache s)
    ∧ match b_error s with
      | None =>
          ∃ k rfs,
            full_pipeline sspread_arr geom_ shift ntr_ npts dt fmin fmax k
            = Ok rfs
            ∧ length rfs = ntr_
            ∧ ∀ n, (n < ntr_)%nat →
                rfs !! n = Some (row3 (b_out s) n 0, row3 (b_out s) n 1)
      | Some e =>
          cached_coefficients c !! key = None
          ∧ butter (length (design_calls c)) 2 corners = Err e
          ∧ full_pipeline sspread_arr geom_ shift ntr_ npts dt fmin fmax
              (length (design_calls c)) = Err e
          ∧ b_out s = arr_out
      end).
  { intros b a c1 k Hcx Hc1 Hk Hd1.
    destruct (filtered_rf_array_spec dt fmin fmax b a c1 sspread_arr npts Hc1
                arr_out ntr_ c Hcx H0 H1 H2 S0 S1 S2) as (He & Hcache & Hrows).
    fold s in He, Hcache, Hrows. rewrite He. split.
    { rewrite Hcache. by destruct (decide _). }
    exists k,
      (map (λ n, (filtered_rf b a sspread_arr npts n 1,
                  filtered_rf b a sspread_arr npts n 2)) (seq 0 ntr_)).
    split; [|split].
    - rewrite (full_pipeline_runs sspread_arr geom_ dt shift fmin fmax npts
                 ntr_) by assumption.
      fold corners. by rewrite Hk.
    - by rewrite length_map, length_seq.
    - intros n Hn. rewrite list_lookup_fmap, lookup_seq_lt by done.
      destruct (Hrows n Hn) as [-> ->]. done. }
  destruct (cached_coefficients c !! key) as [[b a]|] eqn:Ekey.
  - destruct (Hc 2%Z corners (b, a) Ekey) as [k Hk].
    apply (Hreturns b a c k); [| |done|done];
      intros x; by apply bandpass_hit.
  - destruct (butter (length (design_calls c)) 2 corners) as [[b a]|e] eqn:Eb.
    + destruct (bandpass_first dt fmin fmax b a c Ekey Eb) as [Hcx Hc1].
      apply (Hreturns b a _ (length (design_calls c)) Hcx Hc1 Eb).
      by apply (holds_designs_insert _ _ _ (length (design_calls c))).
    + assert (Hs : s = mkBatch (Some e) arr_out
                         (mkCache (cached_coefficients c)
                                  (design_calls c ++ [key]))).
      { apply (batch_design_raises sspread_arr geom_ dt fmin fmax npts ntr_);
          (done || lia). }
      rewrite Hs. cbn [b_error b_out b_cache]. split; [exact Hc|].
      split; [done|]. split; [done|]. split; [|done].
      rewrite (full_pipeline_runs sspread_arr geom_ dt shift fmin fmax npts
                 ntr_) by assumption.
      fold corners. by rewrite Eb.
Qed.

#[export] Instance sample_numerics_laws : NumericsLaws sample_numerics.
Proof.
  split; intros; cbn [fft ifft lfilter sample_numerics]; apply length_map.
Qed.

Lemma filtered_rf_array_refines_witness :
  let s := filtered_rf_array (N := sample_numerics) sample_traces sample_out
             2 3 (qz 1 / qz 40) (qz 1 / qz 20) (qz 1 / qz 2) empty_cache in
  b_error s = None
  ∧ ∃ k rfs,
      full_pipeline (N := sample_numerics) sample_traces sample_geometry
        (qz 0) 2 3 (qz 1 / qz 40) (qz 1 / qz 20) (qz 1 / qz 2) k
      = Ok rfs
      ∧ length rfs = 2%nat
      ∧ ∀ n, (n < 2)%nat →
          rfs !! n = Some (row3 (b_out s) n 0, row3 (b_out s) n 1).
Proof.
  intros s.
  destruct (filtered_rf_array_refines (N := sample_numerics)
              sample_traces sample_out sample_geometry (qz 0) 2 3
              (qz 1 / qz 40) (qz 1 / qz 20) (qz 1 / qz 2) empty_cache)
    as [_ H]; try (simpl; lia); try reflexivity.
  { intros order corners ba Hin. cbn [cached_coefficients empty_cache] in Hin.
    by rewrite lookup_empty in Hin. }
  fold s in H. destruct (b_error s) as [e|].
  - destruct H as (_ & Hb & _). discriminate Hb.
  - split; [done|]. exact H.
Defined.

(** * More of the module *)

(** ** The constructor establishes the invariants *)




(** ** [Model.times] *)

Lemma length_cumsum_from (acc : Qc) (l : list Qc) :
  length (cumsum_from acc l) = length l.
Proof. revert acc. induction l as [|x l IH]; intros acc; simpl; by rewrite ?IH. Qed.

Lemma lookup_cumsum_from (acc : Qc) (l : list Qc) (i : nat) :
  (i < length l)%nat →
  cumsum_from acc l !! i = Some (acc + total (take (S i) l)).
Proof.
  revert acc i. induction l as [|x l IH]; intros acc i Hi; [simpl in Hi; lia|].
  destruct i as [|i].
  - simpl. destruct l; simpl; f_equal; ring.
  - cbn [cumsum_from]. rewrite lookup_cons. rewrite IH by (simpl in Hi; lia).
    f_equal. change (take (S (S i)) (x :: l)) with (x :: take (S i) l).
    unfold total. cbn [foldr]. ring.
Qed.

Lemma length_np_cumsum (l : list Qc) : length (np_cumsum l) = length l.
Proof. destruct l; simpl; by rewrite ?length_cumsum_from. Qed.

Lemma lookup_np_cumsum (l : list Qc) (i : nat) :
  (i < length l)%nat → np_cumsum l !! i = Some (total (take (S i) l)).
Proof.
  destruct l as [|x l]; intros Hi; [simpl in Hi; lia|].
  destruct i as [|i].
  - simpl. f_equal. unfold total. destruct l; simpl; ring.
  - cbn [np_cumsum]. rewrite lookup_cons.
    rewrite lookup_cumsum_from by (simpl in Hi; lia). done.
Qed.

Lemma length_removelast {A : Type} (l : list A) :
  length (removelast l) = (length l - 1)%nat.
Proof.
  induction l as [|x [|y l] IH]; [done|done|].
  change (removelast (x :: y :: l)) with (x :: removelast (y :: l)).
  cbn [length] in *. lia.
Qed.

Lemma lookup_removelast {A : Type} (l : list A) (i : nat) :
  (i + 1 < length l)%nat → removelast l !! i = l !! i.
Proof.
  revert i. induction l as [|x [|y l] IH]; intros i Hi;
    [simpl in Hi; lia|simpl in Hi; lia|].
  change (removelast (x :: y :: l)) with (x :: removelast (y :: l)).
  destruct i as [|i]; [done|]. rewrite !lookup_cons. apply IH.
  cbn [length] in *. lia.
Qed.

Lemma times_runs (m : Model) :
  length (vs m) = length (thickn m) → length (vp m) = length (thickn m) →
  times m = Ok (removelast (np_cumsum (delays m))).
Proof.
  intros Hs Hp. unfold times, np_div.
  rewrite !np_binop_same by congruence. cbn [mbind result_bind].
  rewrite np_binop_same by (rewrite !length_zip_with; lia). done.
Qed.

Lemma length_delays (m : Model) :
  length (vs m) = length (thickn m) → length (vp m) = length (thickn m) →
  length (delays m) = length (thickn m).
Proof. intros Hs Hp. unfold delays. rewrite !length_zip_with. lia. Qed.

Lemma times_values (m : Model) :
  well_formed m →
  ∃ l, times m = Ok l
     ∧ length l = (length (thickn m) - 1)%nat
     ∧ ∀ i, (i + 1 < length (thickn m))%nat →
         l !! i = Some (total (take (S i) (delays m))).
Proof.
  intros Hwf.
  assert (Hs : length (vs m) = length (thickn m)) by wf_solve.
  assert (Hp : length (vp m) = length (thickn m)) by wf_solve.
  eexists. split; [by apply times_runs|]. split.
  - by rewrite length_removelast, length_np_cumsum, length_delays.
  - intros i Hi.
    rewrite lookup_removelast
      by (rewrite length_np_cumsum, length_delays by done; lia).
    apply lookup_np_cumsum. rewrite length_delays by done. lia.
Qed.

(** X2. [Model.times] on a model whose arrays agree in length: one arrival
    time for each interface, that is one less than there are layers (none
    for a model without layers), and the time at interface [i] is the sum of
    the delays [thickn/vs - thickn/vp] of the layers [0 .. i]. *)
Theorem times_arrivals (m : Model) :
  well_formed m →
  ∃ l, times m = Ok l
     ∧ length l = (length (thickn m) - 1)%nat
     ∧ ∀ i, (i + 1 < length (thickn m))%nat →
         l !! i = Some (total (take (S i) (delays m))).
Proof. apply times_values. Qed.

Lemma times_arrivals_witness :
  ∃ l, times crust_and_mantle = Ok l ∧ length l = 1%nat
     ∧ l !! 0%nat = Some (total (take 1 (delays crust_and_mantle))).
Proof.
  destruct (times_arrivals crust_and_mantle) as (l & Hl & Hlen & Hi).
  - repeat split.
  - exists l. split; [exact Hl|]. split; [exact Hlen|].
    apply Hi. simpl. lia.
Defined.










(** ** [split_layer] and [remove_layer] at the bounds *)

(** X4. [split_layer(n)] with [n] at or beyond the number of thickness entries
    raises [IndexError] at the first attribute and leaves the model as it
    was. *)
Theorem split_layer_out_of_range (m : Model) (n : nat) :
  (length (thickn m) ≤ n)%nat → split_layer m n = Raised IndexError m.
Proof.
  intros Hn. unfold split_layer.
  rewrite (for_atts_on_att_err _ m IndexError); [done|].
  by apply duplicate_err.
Qed.

Lemma split_layer_out_of_range_witness :
  split_layer crust_and_mantle 2 = Raised IndexError crust_and_mantle.
Proof. apply split_layer_out_of_range. simpl. lia. Defined.

(** X5. [remove_layer(n)] with [n] at or beyond the number of thickness entries
    raises [IndexError] at the first attribute and leaves the model as it
    was. *)
Theorem remove_layer_out_of_range (m : Model) (n : nat) :
  (length (thickn m) ≤ n)%nat → remove_layer m n = Raised IndexError m.
Proof.
  intros Hn. unfold remove_layer.
  rewrite (for_atts_on_att_err _ m IndexError); [done|].
  unfold np_delete. rewrite decide_False by lia. done.
Qed.

Lemma remove_layer_out_of_range_witness :
  remove_layer crust_and_mantle 2 = Raised IndexError crust_and_mantle.
Proof. apply remove_layer_out_of_range. simpl. lia. Defined.

(** ** [remove_layer] *)

Lemma remove_layer_runs (m : Model) (n : nat) :
  well_formed m → (n < length (thickn m))%nat →
  remove_layer m n = _set_fattributes (remove_result m n).
Proof.
  intros Hwf Hn. unfold remove_layer.
  rewrite (for_atts_on_att_ok _ (deleted n))
    by (apply np_delete_ok; wf_solve).
  cbn [obind].
  destruct Hwf as (Hnl & Hrho & Hvp & Hvs & Hk & Hflag & Hani & Htr & Hpl & Hst & Hdip).
  rewrite update_None by (fields; rewrite !length_deleted by lia; lia).
  reflexivity.
Qed.

Lemma deleted_delete {A : Type} (n : nat) (l : list A) :
  deleted n A l = delete n l.
Proof. unfold deleted. by rewrite delete_take_drop. Qed.

Lemma lookup_deleted_lt {A : Type} (n i : nat) (l : list A) :
  (i < n)%nat → deleted n A l !! i = l !! i.
Proof. intros H. rewrite deleted_delete. by apply list_lookup_delete_lt. Qed.

Lemma lookup_deleted_ge {A : Type} (n i : nat) (l : list A) :
  (n ≤ i)%nat → deleted n A l !! i = l !! S i.
Proof. intros H. rewrite deleted_delete. by apply list_lookup_delete_ge. Qed.

Lemma total_deleted (l : list Qc) (n : nat) (x : Qc) :
  l !! n = Some x → total (deleted n Qc l) = total l - x.
Proof.
  intros H. rewrite <- (take_drop_middle l n x H) at 2. unfold deleted.
  rewrite !total_app. unfold total at 4. cbn [foldr]. fold (total (drop (S n) l)).
  ring.
Qed.

Lemma remove_result_before (m : Model) (n i : nat) :
  vpvs_consistent m → (i < n)%nat →
  layer (remove_result m n) i = layer m i.
Proof.
  intros Hc Hi. apply layer_ext; unfold remove_result;
    cbn [set_vpvs set_nlay map_fields thickn rho vp vs vpvs flag ani trend
         plunge strike dip];
    try (by apply lookup_deleted_lt).
  rewrite Hc. apply lookup_zip_div_ext; by apply lookup_deleted_lt.
Qed.

Lemma remove_result_after (m : Model) (n i : nat) :
  vpvs_consistent m → (n ≤ i)%nat →
  layer (remove_result m n) i = layer m (S i).
Proof.
  intros Hc Hi. apply layer_ext; unfold remove_result;
    cbn [set_vpvs set_nlay map_fields thickn rho vp vs vpvs flag ani trend
         plunge strike dip];
    try (by apply lookup_deleted_ge).
  rewrite Hc. apply lookup_zip_div_ext; by apply lookup_deleted_ge.
Qed.

Lemma well_formed_remove_result (m : Model) (n : nat) :
  well_formed m → (n < length (thickn m))%nat →
  well_formed (remove_result m n).
Proof.
  intros Hwf Hn.
  destruct Hwf as (Hnl & Hrho & Hvp & Hvs & Hk & Hflag & Hani & Htr & Hpl & Hst & Hdip).
  unfold well_formed, remove_result. fields.
  rewrite length_zip_with, !length_deleted by lia. repeat split; lia.
Qed.

(** X6. [remove_layer(n)] on a model whose arrays agree in length and whose ratio
    array is the current [vp / vs], for a layer [n] of the model: the layers
    above [n] keep their rows, the layers below move up by one, the layer
    count drops by one and the total thickness by the thickness of layer
    [n].  The call raises only when the remaining layers exceed the
    capacity, and the attributes are then as described all the same. *)
Theorem remove_layer_deletes (m : Model) (n : nat) (x : Qc) :
  well_formed m → vpvs_consistent m → thickn m !! n = Some x →
  let m' := state_of (remove_layer m n) in
  ((nlay m - 1 ≤ maxlay m)%Z ∧ remove_layer m n = Normal m'
   ∨ (maxlay m < nlay m - 1)%Z ∧ remove_layer m n = Raised ValueError m')
  ∧ (∀ i, (i < n)%nat → layer m' i = layer m i)
  ∧ (∀ i, (n ≤ i)%nat → layer m' i = layer m (S i))
  ∧ nlay m' = (nlay m - 1)%Z
  ∧ total (thickn m') = total (thickn m) - x
  ∧ well_formed m'.
Proof.
  intros Hwf Hc Hx m'.
  assert (Hn : (n < length (thickn m))%nat) by by eapply lookup_lt_Some.
  subst m'. rewrite (remove_layer_runs m n Hwf Hn).
  split; [|split; [|split; [|split; [|split]]]].
  - destruct (_set_fattributes_cases (remove_result m n)) as [[? E]|[? E]];
      [left|right]; (split; [exact H|exact E]).
  - intros i Hi. rewrite layer_set_fattributes. by apply remove_result_before.
  - intros i Hi. rewrite layer_set_fattributes. by apply remove_result_after.
  - by rewrite nlay_set_fattributes.
  - rewrite thickn_set_fattributes. by apply total_deleted.
  - by apply well_formed_set_fattributes, well_formed_remove_result.
Qed.

Lemma remove_layer_deletes_witness :
  let m' := state_of (remove_layer two_layer_crust 0) in
  remove_layer two_layer_crust 0 = Normal m'
  ∧ layer m' 0 = layer two_layer_crust 1
  ∧ nlay m' = 1%Z
  ∧ total (thickn m') = total (thickn two_layer_crust) - qz 30000.
Proof.
  destruct (remove_layer_deletes two_layer_crust 0 (qz 30000))
    as (Hrun & _ & Hafter & Hn & Ht & _).
  - repeat split.
  - reflexivity.
  - reflexivity.
  - split; [|split; [apply Hafter; lia|split; [exact Hn|exact Ht]]].
    destruct Hrun as [[_ E]|[Hlt _]]; [exact E|].
    exfalso. vm_compute in Hlt. discriminate.
Defined.

(** ** [split_layer] undone by [combine_layers] *)

Lemma slice_pair {A : Type} (l : list A) (n : nat) (a b : A) :
  l !! n = Some a → l !! S n = Some b → slice n (n + 1 + 1) l = [a; b].
Proof.
  intros Ha Hb. unfold slice.
  replace (n + 1 + 1 - n)%nat with 2%nat by lia.
  rewrite (drop_S l a n Ha), (drop_S l b (S n) Hb). done.
Qed.

Lemma vpvs_consistent_set_fattributes (m : Model) :
  vpvs_consistent m → vpvs_consistent (state_of (_set_fattributes m)).
Proof. unfold _set_fattributes. by destruct (decide _). Qed.

Lemma vpvs_consistent_split_result (m : Model) (n : nat) (x : Qc) :
  vpvs_consistent (split_result m n x).
Proof. reflexivity. Qed.

Lemma double_nonzero (t : Qc) : t ≠ 0 → t + t ≠ 0.
Proof.
  intros Ht H. assert (H2 : t * (1 + 1) = 0) by (rewrite <- H; ring).
  apply Qcmult_integral in H2 as [H2|H2]; [done|discriminate].
Qed.

Lemma average_of_halves (t v : Qc) :
  t ≠ 0 →
  weighted_average [t / qz 2; t / qz 2] [v; v] = v.
Proof.
  intros Ht. unfold weighted_average, total. cbn [zip_with foldr].
  rewrite qz_two. field. split; [discriminate|by apply double_nonzero].
Qed.

Lemma total_of_halves (t : Qc) : total [t / qz 2; t / qz 2] = t.
Proof. unfold total. cbn [foldr]. rewrite qz_two. field. discriminate. Qed.

(** X7. [split_layer(n)] followed by [combine_layers(n, n + 1)] gives the model
    back.  For a model whose arrays agree in length, whose ratio array is the
    current [vp / vs] and which has room for one more layer, and a layer [n]
    that is isotropic, has a density and a thickness other than zero: both
    calls return, and afterwards every layer has the row it had before, the
    layer count is the old one and the mirror is in sync. *)
Theorem split_then_combine (m : Model) (n : nat) (r : layer_row) (dens : Qc) :
  well_formed m → vpvs_consistent m →
  layer m n = Some r →
  r_thickn r ≠ 0 → r_flag r ≠ 0%Z → r_rho r = Some dens →
  (nlay m + 1 ≤ maxlay m)%Z →
  ∃ m1 m2,
    split_layer m n = Normal m1
    ∧ combine_layers m1 n (n + 1) = Normal m2
    ∧ (∀ i, layer m2 i = layer m i)
    ∧ nlay m2 = nlay m
    ∧ well_formed m2 ∧ mirror_in_sync m2.
Proof.
  intros Hwf Hc Hr Ht Hf Hrho Hcap.
  pose proof (proj1 (layer_Some m n r) Hr)
    as (Lt & Lr & Lp & Ls & Lk & Lf & La & Ltr & Lpl & Lsk & Ld).
  assert (Hn : (n < length (thickn m))%nat) by by eapply lookup_lt_Some.
  set (s := split_result m n (r_thickn r)).
  assert (Hwfs : well_formed s) by by apply well_formed_split_result.
  assert (Hs : split_layer m n = Normal (state_of (_set_fattributes s))).
  { rewrite (split_layer_runs m n _ Hwf Lt). fold s.
    destruct (_set_fattributes_cases s) as [[_ E]|[Hlt _]]; [exact E|].
    unfold s, split_result in Hlt. cbn [set_vpvs set_nlay nlay maxlay] in Hlt.
    cbn [set_thickn map_fields maxlay] in Hlt. lia. }
  set (m1 := state_of (_set_fattributes s)) in *.
  assert (Hwf1 : well_formed m1) by by apply well_formed_set_fattributes.
  assert (Hc1 : vpvs_consistent m1)
    by apply vpvs_consistent_set_fattributes, vpvs_consistent_split_result.
  assert (Hlayers1 : ∀ i, layer m1 i = layer s i)
    by (intros i; apply layer_set_fattributes).
  assert (Hlen1 : length (thickn m1) = S (length (thickn m))).
  { unfold m1. rewrite thickn_set_fattributes. unfold s, split_result.
    cbn [set_vpvs set_nlay set_thickn thickn map_fields].
    rewrite !length_insert, length_doubled by done. done. }
  set (half := with_thickn r (r_thickn r / qz 2)).
  assert (Htop : layer m1 n = Some half).
  { rewrite Hlayers1. apply split_result_halves; auto. }
  assert (Hbot : layer m1 (S n) = Some half).
  { rewrite Hlayers1. apply split_result_halves; auto. }
  pose proof (proj1 (layer_Some m1 n half) Htop)
    as (Tt & Tr & Tp & Ts & Tk & Tf & Ta & Ttr & Tpl & Tsk & Td).
  pose proof (proj1 (layer_Some m1 (S n) half) Hbot)
    as (Bt & Br & Bp & Bs & Bk & Bf & Ba & Btr & Bpl & Bsk & Bd).
  cbn [half with_thickn r_thickn r_rho r_vp r_vs r_vpvs r_flag r_ani r_trend
       r_plunge r_strike r_dip] in *.
  assert (Hrange : (n < n + 1 < length (thickn m1))%nat) by lia.
  assert (Hchk : combine_checks m1 n (n + 1) = Ok ()).
  { apply combine_checks_pass; try done.
    - intros (i & Hi & Hz). assert (i = n ∨ i = S n) as [->| ->] by lia;
        congruence.
    - intros (i & j & x & y & Hi & Hj & Hx & Hy & Hne).
      assert (i = n ∨ i = S n) as [->| ->] by lia;
        assert (j = n ∨ j = S n) as [->| ->] by lia; congruence.
    - intros (i & j & x & y & Hi & Hj & Hx & Hy & Hne).
      assert (i = n ∨ i = S n) as [->| ->] by lia;
        assert (j = n ∨ j = S n) as [->| ->] by lia; congruence. }
  pose proof (combine_layer_ok m1 n (n + 1) [dens; dens] Hwf1 Hrange) as HL.
  rewrite (slice_pair (rho m1) n _ _ Tr Br) in HL.
  rewrite Hrho in HL. specialize (HL eq_refl). cbv zeta in HL.
  rewrite (slice_pair (thickn m1) n _ _ Tt Bt) in HL.
  rewrite (slice_pair (vp m1) n _ _ Tp Bp) in HL.
  rewrite (slice_pair (vs m1) n _ _ Ts Bs) in HL.
  rewrite !average_of_halves, total_of_halves in HL by done.
  set (L := mkMerged (r_thickn r) (r_vp r) (r_vs r) dens) in HL.
  set (c := combine_result m1 n (n + 1) L).
  assert (Hwfc : well_formed c) by by apply well_formed_combine_result.
  assert (Hnc : nlay c = nlay m).
  { unfold c, combine_result. cbn [nlay]. unfold m1.
    rewrite nlay_set_fattributes. unfold s, split_result.
    cbn [set_vpvs set_nlay nlay]. lia. }
  assert (Hmc : maxlay c = maxlay m).
  { unfold c, combine_result. cbn [maxlay]. unfold m1, _set_fattributes.
    destruct (decide _); reflexivity. }
  assert (Hrun : combine_layers m1 n (n + 1)
                 = Normal (state_of (_set_fattributes c))).
  { rewrite (combine_layers_runs m1 n (n + 1) L Hwf1 Hrange Hchk HL). fold c.
    destruct (_set_fattributes_cases c) as [[_ E]|[Hlt _]]; [exact E|lia]. }
  exists m1, (state_of (_set_fattributes c)).
  split; [exact Hs|]. split; [exact Hrun|].
  split; [|split; [|split]].
  - intros i. rewrite layer_set_fattributes.
    destruct (lt_eq_lt_dec i n) as [[Hi|Hi]|Hi].
    + unfold c. rewrite combine_result_above by done.
      rewrite Hlayers1. by apply split_result_before.
    + subst i. unfold c.
      rewrite (combine_result_top m1 n (n + 1) L _ Hwf1 Hrange Htop).
      cbn [L l_thickn l_rho l_vp l_vs with_thickn r_flag r_ani r_trend
           r_plunge r_strike r_dip].
      rewrite Hr. f_equal. destruct r as [t ro p sv k fl a tr pl sk d].
      cbn [r_thickn r_rho r_vp r_vs r_vpvs r_flag r_ani r_trend r_plunge
           r_strike r_dip] in *.
      subst ro. f_equal.
      rewrite Hc in Lk. rewrite (lookup_zip_div _ _ _ _ _ Lp Ls) in Lk.
      by injection Lk.
    + unfold c. rewrite combine_result_below by done.
      rewrite Hlayers1. unfold s.
      rewrite split_result_after by (done || lia).
      f_equal. lia.
  - by rewrite nlay_set_fattributes.
  - by apply well_formed_set_fattributes.
  - destruct (_set_fattributes_cases c) as [[_ E]|[Hlt _]]; [|lia].
    by destruct (_set_fattributes_normal c _ Hwfc E).
Qed.

Lemma split_then_combine_witness :
  ∃ m1 m2,
    split_layer two_layer_crust 0 = Normal m1
    ∧ combine_layers m1 0 1 = Normal m2
    ∧ (∀ i, layer m2 i = layer two_layer_crust i)
    ∧ nlay m2 = 2%Z.
Proof.
  destruct (split_then_combine two_layer_crust 0
              (mkLayer (qz 30000) (Some (qz 2800)) (qz 6000) (qz 3600)
                       (qz 6000 / qz 3600) 1 0 0 0 0 0) (qz 2800))
    as (m1 & m2 & H1 & H2 & H3 & H4 & _).
  - repeat split.
  - reflexivity.
  - reflexivity.
  - discriminate.
  - discriminate.
  - reflexivity.
  - vm_compute. discriminate.
  - exists m1, m2. split; [exact H1|]. split; [exact H2|].
    split; [exact H3|exact H4].
Defined.

(** ** [combine_layers] with a bottom beyond the model *)

Lemma slice_to_end {A : Type} (l : list A) (top bot : nat) :
  (length l ≤ bot)%nat → slice top bot l = drop top l.
Proof.
  intros H. unfold slice. apply take_ge. rewrite length_drop. lia.
Qed.

Lemma combine_checks_beyond (m : Model) (top bottom : nat) :
  well_formed m → (top + 1 < length (thickn m) ≤ bottom)%nat →
  combine_checks m top bottom
  = combine_checks m top (length (thickn m) - 1).
Proof.
  intros Hwf Hr. unfold combine_checks.
  rewrite !decide_False by lia.
  rewrite !(slice_to_end _ top (bottom + 1)) by wf_solve.
  rewrite !(slice_to_end _ top (length (thickn m) - 1 + 1)) by wf_solve.
  done.
Qed.

Lemma combine_layer_beyond (m : Model) (top bottom : nat) :
  well_formed m → (length (thickn m) ≤ bottom)%nat →
  combine_layer m top (bottom + 1)
  = combine_layer m top (length (thickn m) - 1 + 1).
Proof.
  intros Hwf Hr. unfold combine_layer.
  rewrite !(slice_to_end _ top (bottom + 1)) by wf_solve.
  rewrite !(slice_to_end _ top (length (thickn m) - 1 + 1)) by wf_solve.
  done.
Qed.

(** X8. [combine_layers(top, bottom)] with [bottom] at or beyond the layer
    count, for a [top] with at least one layer below it, on layers that pass
    the checks: the call raises [IndexError] at the deletion of the rows,
    after the thickness of layer [top] has been overwritten with the sum of
    the thicknesses from [top] to the last layer.  Nothing else has
    changed; the layer count and the mirror are those from before the
    call. *)
Theorem combine_layers_beyond (m : Model) (top bottom : nat)
    (dens : list Qc) :
  well_formed m → (top + 1 < length (thickn m) ≤ bottom)%nat →
  ¬ anisotropic_in m top bottom →
  ¬ differs_in (dip m) top bottom → ¬ differs_in (strike m) top bottom →
  drop top (rho m) = map Some dens →
  combine_layers m top bottom
  = Raised IndexError
      (set_thickn m (<[top:=total (drop top (thickn m))]> (thickn m))).
Proof.
  intros Hwf Hr Hiso Hdip Hstrike Hrho.
  set (last := (length (thickn m) - 1)%nat).
  assert (Hin : (top < last < length (thickn m))%nat) by (unfold last; lia).
  assert (Hsub : ∀ i, (top ≤ i ≤ last)%nat → (top ≤ i ≤ bottom)%nat)
    by (unfold last; lia).
  assert (Hchk : combine_checks m top bottom = Ok ()).
  { rewrite combine_checks_beyond by done. fold last.
    apply combine_checks_pass; try done.
    - intros (i & Hi & Hf). apply Hiso. exists i. auto.
    - intros (i & j & x & y & Hi & Hj & H). apply Hdip.
      exists i, j, x, y. auto.
    - intros (i & j & x & y & Hi & Hj & H). apply Hstrike.
      exists i, j, x, y. auto. }
  pose proof (combine_layer_ok m top last dens Hwf Hin) as HL.
  rewrite (slice_to_end (rho m)) in HL by (unfold last; wf_solve).
  specialize (HL Hrho). cbv zeta in HL.
  rewrite (slice_to_end (thickn m)) in HL by (unfold last; lia).
  unfold combine_layers. rewrite Hchk. cbn [lift].
  rewrite combine_layer_beyond by (done || lia). fold last.
  rewrite HL. cbn [lift].
  unfold _useratts. cbn [for_atts].
  unfold combine_body at 1. cbn [l_thickn].
  rewrite setitem_ok by lia. cbn [lift obind on_att]. fields.
  unfold np_delete_range.
  rewrite decide_False by lia.
  rewrite decide_False by (rewrite length_insert; lia).
  reflexivity.
Qed.

Lemma combine_layers_beyond_witness :
  combine_layers two_layer_crust 0 2
  = Raised IndexError
      (set_thickn two_layer_crust
         (<[0%nat:=total (thickn two_layer_crust)]> (thickn two_layer_crust))).
Proof.
  apply (combine_layers_beyond two_layer_crust 0 2 [qz 2800; qz 3300]).
  - repeat split.
  - simpl; lia.
  - apply all_flagged_not_anisotropic. by repeat constructor.
  - apply (all_same_not_differs _ 0). by repeat constructor.
  - apply (all_same_not_differs _ 0). by repeat constructor.
  - reflexivity.
Defined.

(** ** [update] *)

(** X9. [update()] without a velocity to hold fixed is idempotent: a second
    call right after the first ends as the first did, with the same
    attributes and the same mirror, whether the first returned or raised for
    want of capacity. *)
Theorem update_idempotent (m : Model) :
  length (vp m) = length (vs m) →
  update (state_of (update m None)) None = update m None.
Proof.
  intros H. rewrite (update_None m H).
  destruct m as [nl t r p s k f a tr pl sk d ml ft fr fp fs ff fa ftr fpl fsk fd].
  cbn [vp vs] in H.
  unfold _set_fattributes. flat.
  destruct (decide (nl ≤ ml)%Z) as [Hle|Hgt]; cbn [state_of].
  - rewrite update_None by done. unfold _set_fattributes. flat.
    rewrite decide_True by done. reflexivity.
  - rewrite update_None by done. unfold _set_fattributes. flat.
    rewrite decide_False by done. reflexivity.
Qed.

Lemma update_idempotent_witness :
  update (state_of (update two_layer_crust None)) None
  = update two_layer_crust None.
Proof. apply update_idempotent. reflexivity. Defined.

(** ** [change]: what it refuses *)

Lemma plain_sign_absent (k ds : list ascii) (c : ascii) :
  plain_key k → all_digits ds = true → c ∈ str ";=+-" → c ∉ k ++ ds.
Proof.
  intros (_ & _ & Hplain) Hds Hc.
  destruct (all_digits_inv ds Hds) as [_ Hd].
  rewrite not_elem_of_app. split.
  - intros Hin. rewrite Forall_forall in Hplain. by apply (Hplain c Hin).
  - apply digits_not_elem; [done|].
    simpl in Hc.
    repeat (apply elem_of_cons in Hc as [->|Hc]; [by vm_compute|]).
    by apply elem_of_nil in Hc.
Qed.

Lemma find_sign_plain (k ds v : list ascii) (sign : ascii) :
  plain_key k → all_digits ds = true →
  sign ∈ str "=+-" → value_text sign v →
  find_sign (str "=+-") (k ++ ds ++ sign :: v) None
  = Some (sign, [k ++ ds; v]).
Proof.
  intros Hk Hds Hsign (Hsemi & Heq & Hplus & Hminus).
  assert (Hb : ∀ c, c ∈ str "=+-" → c ∉ k ++ ds).
  { intros c Hc. apply plain_sign_absent; [done|done|].
    by apply list_elem_of_further. }
  assert (Hone : ∀ c, c ∈ str "=+-" → c ≠ sign → c ∉ v →
            length (split_on c (k ++ ds ++ sign :: v)) ≠ 2%nat).
  { intros c Hc Hne Hv. rewrite split_on_absent; [simpl; lia|].
    rewrite app_assoc, not_elem_of_app, not_elem_of_cons.
    split; [by apply Hb|by split]. }
  assert (Htwo : sign ∉ v →
            split_on sign (k ++ ds ++ sign :: v) = [k ++ ds; v]).
  { intros Hv. rewrite app_assoc. apply split_on_once; [by apply Hb|done]. }
  change (str "=+-") with ["="%char; "+"%char; "-"%char] in *.
  cbn [find_sign].
  destruct (decide (sign = "="%char)) as [->|Hn1].
  { rewrite Htwo by done. by rewrite decide_True. }
  rewrite decide_False by (apply Hone; [compute_done|done|done]).
  destruct (decide (sign = "+"%char)) as [->|Hn2].
  { rewrite Htwo by (by apply Hplus). by rewrite decide_True. }
  rewrite decide_False
    by (apply Hone; [compute_done|done|by apply Hplus]).
  assert (sign = "-"%char) as ->.
  { repeat (apply elem_of_cons in Hsign as [->|Hsign]; [done|]).
    by apply elem_of_nil in Hsign. }
  rewrite Htwo by (by apply Hminus). by rewrite decide_True.
Qed.

Lemma parse_command_plain (k ds v : list ascii) (sign : ascii) (q : Qc)
    (n : option nat) :
  plain_key k → all_digits ds = true →
  sign ∈ str "=+-" → value_text sign v → py_float v = Ok q →
  parse_command (k ++ ds ++ sign :: v) n
  = Ok (mkDirective k (Z.to_nat (digits_value ds)) sign q, Some (length k)).
Proof.
  intros Hk Hds Hsign Hv Hq. unfold parse_command.
  rewrite (find_sign_plain k ds v sign) by done.
  destruct Hk as (Hnd & Hstrip & _).
  destruct (all_digits_inv ds Hds) as [Hne Hd].
  destruct ds as [|c ds']; [done|].
  rewrite (scan_digit_prefix k ds' c 0 n Hnd) by (by apply Forall_inv in Hd).
  cbn [Nat.add]. rewrite take_app_length, drop_app_length, Hstrip.
  rewrite (py_int_digits _ Hds). cbn [mbind result_bind].
  rewrite Hq. done.
Qed.

Lemma change_one_plain (m : Model) (k ds v : list ascii) (sign : ascii)
    (q : Qc) :
  plain_key k → all_digits ds = true →
  sign ∈ str "=+-" → value_text sign v → py_float v = Ok q →
  change m (directive_text k ds sign v)
  = apply_directive (mkDirective k (Z.to_nat (digits_value ds)) sign q) m.
Proof.
  intros Hk Hds Hsign Hv Hq. unfold change, directive_text, str.
  rewrite list_ascii_of_string_of_list_ascii.
  assert (Hsemi : ";"%char ∉ k ++ ds ++ sign :: v).
  { rewrite app_assoc, not_elem_of_app, not_elem_of_cons.
    split; [|split].
    - apply plain_sign_absent; [done|done|compute_done].
    - intros <-. revert Hsign. compute_done.
    - apply Hv. }
  rewrite split_on_absent by done.
  cbn [change_loop].
  rewrite decide_False by (destruct k; [by destruct ds|done]).
  rewrite (parse_command_plain k ds v sign q) by done.
  change (change_loop [] (Some (length k))) with (@Normal Model).
  apply obind_return.
Qed.

(** X10. A directive whose key is not in the table: [change] raises [KeyError]
    and leaves the model as it was.  The key is any text without digits,
    without white space at its ends and without [;=+-]; the layer number and
    the value are well formed. *)
Theorem change_unknown_key (m : Model) (k ds v : list ascii) (sign : ascii)
    (q : Qc) :
  plain_key k → ATT k = None → all_digits ds = true →
  sign ∈ str "=+-" → value_text sign v → py_float v = Ok q →
  change m (directive_text k ds sign v) = Raised KeyError m.
Proof.
  intros Hk Hnone Hds Hsign Hv Hq.
  rewrite (change_one_plain m k ds v sign q) by done.
  unfold apply_directive. cbn [d_att]. by rewrite Hnone.
Qed.

Lemma change_unknown_key_witness :
  change crust_and_mantle "rho0=3" = Raised KeyError crust_and_mantle.
Proof.
  apply (change_unknown_key crust_and_mantle (str "rho") (str "0") (str "3")
           "="%char (qz 3)).
  - compute_done.
  - reflexivity.
  - reflexivity.
  - compute_done.
  - compute_done.
  - vm_compute. f_equal. by apply Qc_is_canon.
Defined.

(** X11. A directive for a layer that the model does not have: [change] raises
    [IndexError] at the assignment and leaves the model as it was. *)
Theorem change_layer_out_of_range (m : Model) (k ds v : list ascii)
    (a : attribute) (sign : ascii) (q : Qc) :
  well_formed m →
  ATT k = Some a → all_digits ds = true →
  sign ∈ str "=+-" → value_text sign v → py_float v = Ok q →
  (length (thickn m) ≤ Z.to_nat (digits_value ds))%nat →
  change m (directive_text k ds sign v) = Raised IndexError m.
Proof.
  intros Hwf Hk Hds Hsign Hv Hq Hlay.
  rewrite (change_one_directive m k ds v a sign q) by done.
  pose proof (ATT_lens k a Hk) as [_ _ _ _ Hlen].
  specialize (Hlen m Hwf).
  unfold apply_directive. cbn [d_att d_lay d_sign d_inc]. rewrite Hk.
  destruct (decide (sign = "="%char)).
  - unfold setitem. destruct (decide (_ < _)%nat); [lia|done].
  - unfold getitem. by rewrite (lookup_ge_None_2 (attr_get a m)) by lia.
Qed.

Lemma change_layer_out_of_range_witness :
  change crust_and_mantle "vp2+1" = Raised IndexError crust_and_mantle.
Proof.
  apply (change_layer_out_of_range crust_and_mantle (str "vp") (str "2")
           (str "1") (mkAttribute vp set_vp) "+"%char (qz 1)).
  - repeat split.
  - reflexivity.
  - reflexivity.
  - compute_done.
  - compute_done.
  - vm_compute. f_equal. by apply Qc_is_canon.
  - vm_compute. lia.
Defined.

(** X12. A command without any of the signs [=], [+], [-]: [change] raises
    [ValueError] at the unpacking of the split and leaves the model as it
    was. *)
Theorem change_without_sign (m : Model) (command : list ascii) :
  command ≠ [] →
  (∀ c, c ∈ str ";=+-" → c ∉ command) →
  change m (string_of_list_ascii command) = Raised ValueError m.
Proof.
  intros Hne Habs. unfold change, str.
  rewrite list_ascii_of_string_of_list_ascii.
  rewrite split_on_absent by (apply Habs; compute_done).
  cbn [change_loop]. rewrite decide_False by done.
  unfold parse_command.
  change (str "=+-") with ["="%char; "+"%char; "-"%char].
  cbn [find_sign].
  rewrite !split_on_absent by (apply Habs; compute_done).
  cbn [length]. rewrite !decide_False by lia. done.
Qed.

Lemma change_without_sign_witness :
  change crust_and_mantle "t0 10" = Raised ValueError crust_and_mantle.
Proof.
  apply (change_without_sign crust_and_mantle (str "t0 10")).
  - discriminate.
  - intros c Hc. simpl in Hc.
    repeat (apply elem_of_cons in Hc as [->|Hc]; [compute_done|]).
    by apply elem_of_nil in Hc.
Defined.

(** ** [change]: the semicolon is sequential composition *)

Lemma split_on_nonempty (sep : ascii) (s : list ascii) : split_on sep s ≠ [].
Proof.
  induction s as [|c s IH]; simpl; [done|].
  destruct (decide (c = sep)); [done|]. by destruct (split_on sep s).
Qed.

Lemma split_on_app (sep : ascii) (s1 s2 : list ascii) :
  split_on sep (s1 ++ sep :: s2) = split_on sep s1 ++ split_on sep s2.
Proof.
  induction s1 as [|c s1 IH]; simpl.
  - by rewrite decide_True.
  - destruct (decide (c = sep)); [by rewrite IH|].
    rewrite IH. pose proof (split_on_nonempty sep s1) as Hne.
    by destruct (split_on sep s1).
Qed.

Lemma str_append (s1 s2 : string) : str (s1 +:+ s2) = str s1 ++ str s2.
Proof.
  unfold str. induction s1 as [|c s1 IH]; simpl; [done|]. by rewrite IH.
Qed.

(** The local variable [n] that one command leaves to the next decides at
    most which exception a command without key and layer raises. *)
Lemma parse_command_local (command : list ascii) (n n' : option nat) :
  parse_command command n = parse_command command n'
  ∨ ∃ e e', parse_command command n = Err e
            ∧ parse_command command n' = Err e'.
Proof.
  unfold parse_command.
  destruct (find_sign (str "=+-") command None)
    as [[sign [|attlay [|inc [|? ?]]]]|]; try (by left).
  destruct attlay as [|c rest].
  - right. cbn [scan_digit].
    assert (H : ∀ o : option nat, ∃ e,
      match o with
      | Some k =>
          lay ← py_int (drop k []);
          inc_ ← py_float inc;
          Ok (mkDirective (strip (take k [])) (Z.to_nat lay) sign inc_, Some k)
      | None => Err NameError
      end = Err e).
    { intros [k|]; [|by eexists]. rewrite drop_nil.
      change (py_int []) with (@Err Z ValueError). by eexists. }
    destruct (H n) as [e He], (H n') as [e' He']. by exists e, e'.
  - left. cbn [scan_digit]. by destruct (is_digit c).
Qed.

Lemma agree_refl {S : Type} (o : outcome S) : agree o o.
Proof. by destruct o. Qed.

Lemma change_loop_local (commands : list (list ascii)) (n n' : option nat)
    (m : Model) :
  agree (change_loop commands n m) (change_loop commands n' m).
Proof.
  revert n n' m. induction commands as [|c rest IH]; intros n n' m.
  - done.
  - cbn [change_loop]. destruct (decide (c = [])); [apply IH|].
    destruct (parse_command_local c n n') as [->|(e & e' & -> & ->)].
    + apply agree_refl.
    + done.
Qed.

Lemma change_loop_app (c1 c2 : list (list ascii)) (n : option nat) (m : Model) :
  match change_loop c1 n m with
  | Normal m1 => ∃ n1, change_loop (c1 ++ c2) n m = change_loop c2 n1 m1
  | Raised e s => change_loop (c1 ++ c2) n m = Raised e s
  end.
Proof.
  revert n m. induction c1 as [|c c1 IH]; intros n m.
  - by exists n.
  - cbn [change_loop app]. destruct (decide (c = [])); [apply IH|].
    destruct (parse_command c n) as [[d n']|e]; [|done].
    destruct (apply_directive d m) as [m1|e s]; [|done].
    cbn [obind]. apply IH.
Qed.

(** X13. A command string [s1;s2] is [s1] followed by [s2].  When [change(s1)]
    returns, [change(s1;s2)] ends with the model that [change(s2)] gives
    from there, returning when it returns and raising when it raises (the
    kind of the exception may differ for a command that starts with its
    sign).  When [change(s1)] raises, [change(s1;s2)] raises the same
    exception with the same model: the directives before the failing one
    stay applied, those after it are not run. *)
Theorem change_sequence (m : Model) (s1 s2 : string) :
  match change m s1 with
  | Normal m1 => agree (change m (s1 +:+ ";" +:+ s2)) (change m1 s2)
  | Raised e s => change m (s1 +:+ ";" +:+ s2) = Raised e s
  end.
Proof.
  unfold change. rewrite str_append.
  change (str (";" +:+ s2)) with (";"%char :: str s2).
  rewrite split_on_app.
  pose proof (change_loop_app (split_on ";" (str s1)) (split_on ";" (str s2))
                None m) as H.
  destruct (change_loop (split_on ";" (str s1)) None m) as [m1|e s];
    [|exact H].
  destruct H as [n1 ->]. apply change_loop_local.
Qed.

(** ** [change]: the two ratio keys *)

Lemma state_fields_set_fattributes (m : Model) :
  let m' := state_of (_set_fattributes m) in
  vp m' = vp m ∧ vs m' = vs m ∧ vpvs m' = vpvs m ∧ flag m' = flag m.
Proof. unfold _set_fattributes. by destruct (decide _). Qed.

(** X14. The directives that edit the velocity ratio.  On a model whose
    arrays agree in length and fit the capacity, for a layer [lay] of the
    model: [psp lay SIGN VAL] sets the ratio of the layer, keeps [vs] and
    recomputes every [vp] as [vs * vpvs]; [pss lay SIGN VAL] sets the ratio
    of the layer, keeps [vp] and recomputes every [vs] as [vp / vpvs].  The
    value is applied as it is written, without the factor 1000. *)
Theorem change_ratio (m : Model) (ds v : list ascii) (sign : ascii)
    (q old : Qc) :
  well_formed m → (nlay m ≤ maxlay m)%Z →
  all_digits ds = true → sign ∈ str "=+-" → value_text sign v →
  py_float v = Ok q →
  vpvs m !! Z.to_nat (digits_value ds) = Some old →
  let lay := Z.to_nat (digits_value ds) in
  let ratio := <[lay:=applied sign old q]> (vpvs m) in
  (∃ m', change m (directive_text (str "psp") ds sign v) = Normal m'
       ∧ vpvs m' = ratio ∧ vs m' = vs m
       ∧ vp m' = zip_with Qcmult (vs m) ratio)
  ∧ (∃ m', change m (directive_text (str "pss") ds sign v) = Normal m'
       ∧ vpvs m' = ratio ∧ vp m' = vp m
       ∧ vs m' = zip_with Qcdiv (vp m) ratio).
Proof.
  intros Hwf Hcap Hds Hsign Hv Hq Hold lay ratio.
  assert (Hlen : length ratio = length (vpvs m))
    by (unfold ratio; apply length_insert).
  split.
  - rewrite (change_one_directive m (str "psp") ds v
               (mkAttribute vpvs set_vpvs) sign q) by done.
    fold lay.
    rewrite (apply_directive_runs m (str "psp") (mkAttribute vpvs set_vpvs)
               lay sign q old Hwf eq_refl Hold).
    change (converted (str "psp") q) with q.
    change (fix_of (str "psp")) with (Some "vs"%string).
    set (s := stored _ m lay _).
    assert (Hs : vpvs s = ratio ∧ vs s = vs m ∧ vp s = vp m
                 ∧ nlay s = nlay m ∧ maxlay s = maxlay m)
      by (by destruct m).
    destruct Hs as (Hk & Hvs & Hvp & Hn & Hm).
    rewrite update_fix_vs by (rewrite Hk, Hvs, Hlen; wf_solve).
    set (r := set_vp s _).
    destruct (_set_fattributes_cases r) as [[_ E]|[Hlt _]].
    2:{ unfold r in Hlt. cbn [set_vp nlay maxlay] in Hlt. lia. }
    eexists. split; [exact E|].
    destruct (state_fields_set_fattributes r) as (-> & -> & -> & _).
    unfold r. cbn [set_vp vp vs vpvs]. by rewrite Hk, Hvs.
  - rewrite (change_one_directive m (str "pss") ds v
               (mkAttribute vpvs set_vpvs) sign q) by done.
    fold lay.
    rewrite (apply_directive_runs m (str "pss") (mkAttribute vpvs set_vpvs)
               lay sign q old Hwf eq_refl Hold).
    change (converted (str "pss") q) with q.
    change (fix_of (str "pss")) with (Some "vp"%string).
    set (s := stored _ m lay _).
    assert (Hs : vpvs s = ratio ∧ vs s = vs m ∧ vp s = vp m
                 ∧ nlay s = nlay m ∧ maxlay s = maxlay m)
      by (by destruct m).
    destruct Hs as (Hk & Hvs & Hvp & Hn & Hm).
    rewrite update_fix_vp by (rewrite Hk, Hvp, Hlen; wf_solve).
    set (r := set_vs s _).
    destruct (_set_fattributes_cases r) as [[_ E]|[Hlt _]].
    2:{ unfold r in Hlt. cbn [set_vs nlay maxlay] in Hlt. lia. }
    eexists. split; [exact E|].
    destruct (state_fields_set_fattributes r) as (-> & -> & -> & _).
    unfold r. cbn [set_vs vp vs vpvs]. by rewrite Hk, Hvp.
Qed.

Lemma change_ratio_witness :
  ∃ m', change crust_and_mantle "psp0=2" = Normal m'
      ∧ vs m' = vs crust_and_mantle
      ∧ vp m' = zip_with Qcmult (vs crust_and_mantle)
                  (<[0%nat:=qz 2]> (vpvs crust_and_mantle)).
Proof.
  destruct (change_ratio crust_and_mantle (str "0") (str "2") "="%char (qz 2)
              (qz 6000 / qz 3600))
    as [(m' & Hrun & _ & Hvs & Hvp) _].
  - repeat split.
  - vm_compute. discriminate.
  - reflexivity.
  - compute_done.
  - compute_done.
  - vm_compute. f_equal. by apply Qc_is_canon.
  - reflexivity.
  - exists m'. split; [exact Hrun|]. split; [exact Hvs|exact Hvp].
Defined.

(** ** [Geometry.__init__]: refusals and the export arrays *)

Lemma samples_empty (b s : list Qc) :
  b = [] ∨ s = [] → samples b s = [].
Proof.
  intros H. apply length_zero_iff_nil. rewrite length_samples.
  destruct (decide (length b = length s)) as [E|E].
  - destruct H as [->| ->]; [done|]. by rewrite E.
  - destruct H as [->| ->]; simpl; lia.
Qed.

Lemma broadcast_offset_empty (n : nat) :
  n ≠ 0%nat → broadcast_offset n [] = Err IndexError.
Proof. intros H. unfold broadcast_offset. by rewrite decide_True. Qed.

(** X15. When the constructor of [Geometry] fails and when it does not.  It
    raises [ValueError] for an empty back-azimuth or slowness array (the
    unpacking of the transposed samples); otherwise [IndexError] for an
    empty offset array; otherwise [ValueError] for more samples than
    [maxtr]; and it returns in every other case. *)
Theorem Geometry_init_refuses (baz_ slow_ : Qc + list Qc) (dx_ dy_ : list Qc)
    (maxtr : Z) :
  let b := as_list baz_ in
  let s := as_list slow_ in
  match Geometry_init baz_ slow_ dx_ dy_ maxtr with
  | Err e =>
      (b = [] ∨ s = []) ∧ e = ValueError
      ∨ b ≠ [] ∧ s ≠ [] ∧ (dx_ = [] ∨ dy_ = []) ∧ e = IndexError
      ∨ b ≠ [] ∧ s ≠ [] ∧ dx_ ≠ [] ∧ dy_ ≠ []
        ∧ (maxtr < Z.of_nat (length (samples b s)))%Z ∧ e = ValueError
  | Ok g =>
      b ≠ [] ∧ s ≠ [] ∧ dx_ ≠ [] ∧ dy_ ≠ []
      ∧ (Z.of_nat (length (samples b s)) ≤ maxtr)%Z
      ∧ geom g = samples b s
  end.
Proof.
  intros b s. unfold Geometry_init. cbv zeta. fold b s. fold (samples b s).
  destruct (decide (b = [])) as [Hb|Hb].
  { rewrite decide_True by (apply samples_empty; by left). left. auto. }
  destruct (decide (s = [])) as [Hs|Hs].
  { rewrite decide_True by (apply samples_empty; by right). left. auto. }
  pose proof (samples_nonempty b s Hb Hs) as Hne.
  rewrite decide_False by done. rewrite !length_map.
  assert (Hn : length (samples b s) ≠ 0%nat)
    by (by destruct (samples b s)).
  destruct dx_ as [|d0 dx_].
  { rewrite broadcast_offset_empty by done. right. left. auto. }
  rewrite broadcast_offset_ok. cbn [mbind result_bind].
  destruct dy_ as [|e0 dy_].
  { rewrite broadcast_offset_empty by done. right. left. auto. }
  rewrite broadcast_offset_ok. cbn [mbind result_bind].
  destruct (decide (Z.of_nat (length (samples b s)) ≤ maxtr)%Z).
  - repeat split; done.
  - right. right. repeat split; (done || lia).
Qed.

Lemma length_broadcast_offset (n : nat) (d d' : list Qc) :
  broadcast_offset n d = Ok d' → length d' = n.
Proof.
  unfold broadcast_offset. destruct (decide (length d ≠ n)) as [H|H].
  - destruct (getitem d 0); [|done]. cbn [mbind result_bind].
    intros [= <-]. apply length_replicate.
  - intros [= <-]. by destruct (decide (length d = n)).
Qed.

(** X16. What a [Geometry] holds after construction.  The trace count is the
    number of samples, and the back-azimuths, slownesses and both offset
    arrays have one entry per sample.  The four export arrays have [maxtr]
    entries: the back-azimuths in radians, the slownesses scaled by
    [1e-3], and the offsets as they are, each followed by zeros. *)
Theorem Geometry_init_export (baz_ slow_ : Qc + list Qc) (dx_ dy_ : list Qc)
    (maxtr : Z) (g : Geometry) :
  Geometry_init baz_ slow_ dx_ dy_ maxtr = Ok g →
  let pad := (Z.to_nat maxtr - ntr g)%nat in
  (0 < ntr g ≤ Z.to_nat maxtr)%nat
  ∧ ntr g = length (geom g)
  ∧ baz g = map fst (geom g) ∧ slow g = map snd (geom g)
  ∧ length (dx g) = ntr g ∧ length (dy g) = ntr g
  ∧ fbaz g = map degrees_to_radians (baz g) ++ replicate pad 0
  ∧ fslow g = map (λ x, x * (1 / qz 1000)) (slow g) ++ replicate pad 0
  ∧ fdx g = dx g ++ replicate pad 0
  ∧ fdy g = dy g ++ replicate pad 0
  ∧ length (fbaz g) = Z.to_nat maxtr ∧ length (fslow g) = Z.to_nat maxtr
  ∧ length (fdx g) = Z.to_nat maxtr ∧ length (fdy g) = Z.to_nat maxtr.
Proof.
  unfold Geometry_init. cbv zeta.
  set (ge := if decide _ then outer_grid _ _ else paired _ _).
  destruct (decide (ge = [])) as [|Hne]; [done|].
  rewrite !length_map.
  destruct (broadcast_offset (length ge) dx_) as [dx1|] eqn:Ex; [|done].
  destruct (broadcast_offset (length ge) dy_) as [dy1|] eqn:Ey; [|done].
  cbn [mbind result_bind].
  destruct (decide (Z.of_nat (length ge) ≤ maxtr)%Z) as [Hfit|]; [|done].
  intros [= <-]. cbn [ntr geom baz slow dx dy fbaz fslow fdx fdy].
  apply length_broadcast_offset in Ex, Ey.
  assert (Hpos : (0 < length ge)%nat) by (destruct ge; [done|simpl; lia]).
  replace (Z.to_nat (maxtr - Z.of_nat (length ge)))
    with (Z.to_nat maxtr - length ge)%nat by lia.
  rewrite to_radians_padded, !map_app.
  assert (Hz : map (λ x : Qc, x * (1 / qz 1000))
                 (np_zeros (Z.to_nat maxtr - length ge))
               = replicate (Z.to_nat maxtr - length ge) 0).
  { unfold np_zeros. induction (Z.to_nat maxtr - length ge)%nat as [|k IH];
      [done|]. simpl. rewrite IH. f_equal. ring. }
  rewrite Hz. unfold np_zeros.
  rewrite !length_app, !length_map, !length_replicate, Ex, Ey.
  repeat split; lia.
Qed.

Lemma Geometry_init_export_witness :
  ∃ g, Geometry_init (inr [qz 0; qz 90; qz 180]) (inr [qz 4 / qz 100; qz 8 / qz 100])
         [qz 0] [qz 0] 500 = Ok g
     ∧ ntr g = 6%nat ∧ length (fbaz g) = 500%nat ∧ length (dx g) = 6%nat.
Proof.
  destruct (Geometry_init (inr [qz 0; qz 90; qz 180])
              (inr [qz 4 / qz 100; qz 8 / qz 100]) [qz 0] [qz 0] 500)
    as [g|e] eqn:E; [|by vm_compute in E].
  exists g. split; [reflexivity|].
  destruct (Geometry_init_export _ _ _ _ _ g E)
    as (_ & Hn & _ & _ & Hdx & _ & _ & _ & _ & _ & Hfb & _).
  split; [|split; [exact Hfb|]].
  - rewrite Hn. vm_compute in E. injection E as <-. reflexivity.
  - rewrite Hdx, Hn. vm_compute in E. injection E as <-. reflexivity.
Defined.

Lemma unzip_paired (b s : list Qc) :
  length b = length s →
  map fst (paired b s) = b ∧ map snd (paired b s) = s.
Proof.
  unfold paired. revert s. induction b as [|x b IH]; intros [|y s] H;
    try done.
  cbn [zip_with map fst snd]. destruct (IH s) as [-> ->]; [by injection H|].
  done.
Qed.

Lemma unzip_outer_grid (b s : list Qc) :
  map fst (outer_grid b s) = (_ ← s; b)
  ∧ map snd (outer_grid b s) = (ss ← s; replicate (length b) ss).
Proof.
  induction s as [|ss s [IH1 IH2]]; [done|].
  rewrite outer_grid_cons, !map_app, IH1, IH2, !map_map. cbn [fst snd].
  split.
  - change ((_ ← ss :: s; b)) with (b ++ (_ ← s; b)). f_equal.
    apply map_id.
  - change ((x ← ss :: s; replicate (length b) x))
      with (replicate (length b) ss ++ (x ← s; replicate (length b) x)).
    f_equal. clear. induction b as [|x b IH]; [done|]. simpl. by rewrite IH.
Qed.

(** X17. The back-azimuth and slowness arrays of a [Geometry].  For
    arguments of one length they are the arguments themselves; for
    arguments of different lengths the back-azimuths are the argument once
    for each slowness, and the slownesses are each repeated once for each
    back-azimuth. *)
Theorem Geometry_init_axes (baz_ slow_ : Qc + list Qc) (dx_ dy_ : list Qc)
    (maxtr : Z) (g : Geometry) :
  Geometry_init baz_ slow_ dx_ dy_ maxtr = Ok g →
  let b := as_list baz_ in
  let s := as_list slow_ in
  if decide (length b = length s) then baz g = b ∧ slow g = s
  else baz g = (_ ← s; b) ∧ slow g = (ss ← s; replicate (length b) ss).
Proof.
  unfold Geometry_init. cbv zeta.
  set (b := as_list baz_). set (s := as_list slow_).
  set (ge := if decide _ then outer_grid _ _ else paired _ _).
  destruct (decide (ge = [])) as [|Hne]; [done|].
  destruct (broadcast_offset _ dx_) as [dx1|]; [|done].
  destruct (broadcast_offset _ dy_) as [dy1|]; [|done].
  cbn [mbind result_bind].
  destruct (decide (_ ≤ maxtr)%Z); [|done].
  intros [= <-]. cbn [baz slow]. unfold ge.
  destruct (decide (length b = length s)) as [E|E].
  - rewrite decide_False by (by intros []). by apply unzip_paired.
  - rewrite decide_True by done. apply unzip_outer_grid.
Qed.

Lemma Geometry_init_axes_witness :
  ∃ g, Geometry_init (inr [qz 0; qz 90; qz 180])
         (inr [qz 4 / qz 100; qz 8 / qz 100]) [qz 0] [qz 0] 500 = Ok g
     ∧ baz g = [qz 0; qz 90; qz 180; qz 0; qz 90; qz 180]
     ∧ slow g = [qz 4 / qz 100; qz 4 / qz 100; qz 4 / qz 100;
                 qz 8 / qz 100; qz 8 / qz 100; qz 8 / qz 100].
Proof.
  destruct (Geometry_init (inr [qz 0; qz 90; qz 180])
              (inr [qz 4 / qz 100; qz 8 / qz 100]) [qz 0] [qz 0] 500)
    as [g|e] eqn:E; [|by vm_compute in E].
  exists g. split; [reflexivity|].
  exact (Geometry_init_axes _ _ _ _ _ g E).
Defined.

(** ** [read_traces] for every rotation *)

Lemma component_names_cases (rot : Z) (names : list ascii) :
  component_names rot = Ok names →
  (rot = 0%Z ∧ names = str "NEZ") ∨ (rot = 1%Z ∧ names = str "RTZ")
  ∨ (rot = 2%Z ∧ names = str "PVH").
Proof.
  unfold component_names. repeat case_decide; intros [= <-]; auto.
Qed.

Lemma component_names_invalid (rot : Z) :
  rot ≠ 0%Z → rot ≠ 1%Z → rot ≠ 2%Z → component_names rot = Err Exception.
Proof. intros. unfold component_names. by rewrite !decide_False. Qed.

Lemma mapM_result_err {A B : Type} (f : A → result B) (l1 l2 : list A)
    (x : A) (e : exn) :
  (∀ y, y ∈ l1 → ∃ z, f y = Ok z) → f x = Err e →
  mapM f (l1 ++ x :: l2) = Err e.
Proof.
  intros Hok Hx. induction l1 as [|y l1 IH]; cbn [app mapM].
  - by rewrite Hx.
  - destruct (Hok y) as [z ->]; [left|]. cbn [mbind result_bind].
    rewrite IH by (intros w Hw; apply Hok; by right). done.
Qed.

Lemma mapM_result_ext {A B : Type} (f g : A → result B) (l : list A) :
  (∀ x, x ∈ l → f x = g x) → mapM f l = mapM g l.
Proof.
  induction l as [|x l IH]; intros H; [done|].
  cbn [mapM]. rewrite (H x) by left.
  rewrite IH by (intros y Hy; apply H; by right). done.
Qed.

Section AnyRotation.
Variables (arr : ndarray3) (geom_ : list (Qc * Qc)) (dt shift : Qc).
Variables (npts ntr_ : nat) (rot : Z).
Hypothesis three_components : (3 ≤ shape0 arr)%nat.
Hypothesis samples_fit : (0 < npts ≤ shape1 arr)%nat.
Hypothesis traces_fit : (0 < ntr_ ≤ shape2 arr)%nat.

Lemma crop_fits (c : nat) :
  (c < 3)%nat → crop arr c npts ntr_ = Ok (mkArray2 npts ntr_ (at3 arr c)).
Proof.
  intros Hc. unfold crop. rewrite decide_True by lia.
  by rewrite !Nat.min_l by lia.
Qed.

Lemma frame_rows_pick (n : nat) :
  (n < ntr_)%nat →
  filter (λ r, itr r = n) (seq 0 ntr_ ≫= frame_rows arr npts)
  = frame_rows arr npts n.
Proof.
  intros Hn.
  apply (frame_rows_select arr (replicate ntr_ (0, 0)) npts ntr_);
    rewrite ?length_replicate; lia.
Qed.

(** Up to the geometry look-up, [read_traces] is a loop over the trace
    indices that picks the columns of the array. *)
Lemma read_traces_loop (names : list ascii) :
  component_names rot = Ok names →
  read_traces arr geom_ dt rot shift npts ntr_
  = mapM (λ i, _ ← getitem geom_ i;
               Ok (unpacked_as names arr geom_ dt shift npts i))
         (seq 0 ntr_).
Proof.
  intros Hnames. unfold read_traces.
  rewrite !crop_fits by lia. cbn [mbind result_bind].
  rewrite !reshape_ok. cbn [mbind result_bind].
  change (seq 0 ntr_ ≫= λ tr : nat, replicate npts tr)
    with (seq 0 ntr_ ≫= replicate npts).
  rewrite frame_is_rows. cbn [mbind result_bind].
  rewrite Hnames. cbn [mbind result_bind].
  rewrite decide_False.
  2:{ intros Hnil. apply (f_equal length) in Hnil.
      rewrite (length_bind_const _ _ npts) in Hnil by apply length_frame_rows.
      rewrite length_seq in Hnil. simpl in Hnil. nia. }
  cbn [mbind result_bind].
  rewrite map_bind.
  rewrite (bind_ext_all _ (replicate npts)) by apply frame_rows_itr.
  rewrite trace_count by lia.
  apply mapM_result_ext. intros n Hn%list_elem_of_In%in_seq.
  rewrite !frame_rows_pick by lia.
  destruct (frame_rows_columns arr npts n) as (-> & -> & ->).
  destruct (getitem geom_ n) as [g|e] eqn:Hg; [|done].
  apply getitem_Ok in Hg.
  cbn [mbind result_bind]. unfold unpacked_as. rewrite Hg.
  rewrite length_frame_rows, !length_column.
  apply component_names_cases in Hnames
    as [[_ ->]|[[_ ->]|[_ ->]]]; reflexivity.
Qed.

Lemma read_traces_streams (names : list ascii) :
  component_names rot = Ok names → (ntr_ ≤ length geom_)%nat →
  read_traces arr geom_ dt rot shift npts ntr_
  = Ok (map (unpacked_as names arr geom_ dt shift npts) (seq 0 ntr_)).
Proof.
  intros Hnames Hg. rewrite (read_traces_loop names Hnames).
  apply mapM_result_ok. intros n Hn%list_elem_of_In%in_seq.
  destruct (getitem_ok geom_ n) as (g & _ & ->); [lia|]. done.
Qed.

Lemma read_traces_short (names : list ascii) :
  component_names rot = Ok names → (length geom_ < ntr_)%nat →
  read_traces arr geom_ dt rot shift npts ntr_ = Err IndexError.
Proof.
  intros Hnames Hg. rewrite (read_traces_loop names Hnames).
  replace ntr_ with (length geom_ + S (ntr_ - length geom_ - 1))%nat by lia.
  rewrite seq_app. cbn [seq Nat.add].
  apply mapM_result_err.
  - intros n Hn%list_elem_of_In%in_seq.
    destruct (getitem_ok geom_ n) as (g & _ & ->); [lia|]. by eexists.
  - unfold getitem. by rewrite lookup_ge_None_2.
Qed.

End AnyRotation.

Lemma read_traces_Ok_shape (arr : ndarray3) (geom_ : list (Qc * Qc))
    (dt shift : Qc) (npts ntr_ : nat) (rot : Z) (streams : list Stream) :
  read_traces arr geom_ dt rot shift npts ntr_ = Ok streams →
  (3 ≤ shape0 arr)%nat ∧ (0 < npts ≤ shape1 arr)%nat
  ∧ (0 < ntr_ ≤ shape2 arr)%nat
  ∧ ∃ names, component_names rot = Ok names.
Proof.
  intros H. unfold read_traces in H.
  destruct (crop arr 0 npts ntr_) as [a1|] eqn:C0; [|done].
  cbn [mbind result_bind] in H.
  destruct (reshape_F a1 _) as [t1|] eqn:R1; [|done].
  cbn [mbind result_bind] in H.
  destruct (crop arr 1 npts ntr_) as [a2|] eqn:C1; [|done].
  cbn [mbind result_bind] in H.
  destruct (reshape_F a2 _) as [t2|] eqn:R2; [|done].
  cbn [mbind result_bind] in H.
  destruct (crop arr 2 npts ntr_) as [a3|] eqn:C2; [|done].
  cbn [mbind result_bind] in H.
  destruct (reshape_F a3 _) as [t3|] eqn:R3; [|done].
  cbn [mbind result_bind] in H.
  destruct (DataFrame _ _ _ _) as [df|] eqn:D; [|done].
  cbn [mbind result_bind] in H.
  destruct (component_names rot) as [names|] eqn:N; [|done].
  cbn [mbind result_bind] in H.
  destruct (decide (df = [])) as [|Hdf]; [done|].
  unfold crop in C0, C2.
  destruct (decide (2 < shape0 arr)%nat) as [H2|]; [|done].
  destruct (decide (0 < shape0 arr)%nat) as [_|]; [|done].
  injection C0 as <-. clear C2.
  unfold reshape_F in R1. cbn [rows cols] in R1.
  destruct (decide _) as [Hsize|] in R1; [|done]. clear R1.
  assert (Hpos : (npts * ntr_ ≠ 0)%nat).
  { intros Hz. apply Hdf. unfold DataFrame in D.
    destruct (decide _) in D; [|done]. injection D as <-.
    assert (Hit : (seq 0 ntr_ ≫= λ tr : nat, replicate npts tr) = []).
    { apply length_zero_iff_nil.
      rewrite (length_bind_const _ _ npts) by (intros; apply length_replicate).
      rewrite length_seq. lia. }
    rewrite Hit. by destruct t3, t1, t2. }
  assert (Hp : (0 < npts)%nat) by (destruct npts; [simpl in Hpos|]; lia).
  assert (Ht : (0 < ntr_)%nat) by (destruct ntr_; lia).
  set (a := (npts `min` shape1 arr)%nat) in *.
  set (b := (ntr_ `min` shape2 arr)%nat) in *.
  assert (Ha : (a ≤ npts)%nat ∧ (a ≤ shape1 arr)%nat) by (unfold a; lia).
  assert (Hb : (b ≤ ntr_)%nat ∧ (b ≤ shape2 arr)%nat) by (unfold b; lia).
  assert (Hfit : (npts ≤ shape1 arr)%nat ∧ (ntr_ ≤ shape2 arr)%nat).
  { split.
    - destruct (decide (npts ≤ shape1 arr)%nat) as [|Hn]; [done|].
      assert (a * b ≤ a * ntr_)%nat by (apply Nat.mul_le_mono_l; lia).
      assert (a * ntr_ < npts * ntr_)%nat
        by (apply Nat.mul_lt_mono_pos_r; unfold a; lia).
      lia.
    - destruct (decide (ntr_ ≤ shape2 arr)%nat) as [|Hn]; [done|].
      assert (a * b ≤ npts * b)%nat by (apply Nat.mul_le_mono_r; lia).
      assert (npts * b < npts * ntr_)%nat
        by (apply Nat.mul_lt_mono_pos_l; unfold b; lia).
      lia. }
  split; [lia|]. split; [lia|]. split; [lia|]. by exists names.
Qed.

Lemma read_traces_Ok (arr : ndarray3) (geom_ : list (Qc * Qc))
    (dt shift : Qc) (npts ntr_ : nat) (rot : Z) (streams : list Stream) :
  read_traces arr geom_ dt rot shift npts ntr_ = Ok streams →
  (3 ≤ shape0 arr)%nat ∧ (0 < npts ≤ shape1 arr)%nat
  ∧ (0 < ntr_ ≤ shape2 arr)%nat ∧ (ntr_ ≤ length geom_)%nat
  ∧ ∃ names, component_names rot = Ok names
      ∧ streams = map (unpacked_as names arr geom_ dt shift npts)
                      (seq 0 ntr_).
Proof.
  intros H.
  destruct (read_traces_Ok_shape _ _ _ _ _ _ _ _ H)
    as (H0 & H1 & H2 & names & Hn).
  destruct (decide (ntr_ ≤ length geom_)%nat) as [Hg|Hg].
  - rewrite (read_traces_streams arr geom_ dt shift npts ntr_ rot
               H0 H1 H2 names Hn Hg) in H.
    injection H as <-. repeat split; try lia. by exists names.
  - rewrite (read_traces_short arr geom_ dt shift npts ntr_ rot
               H0 H1 H2 names Hn) in H by lia. done.
Qed.


(** X19. The exceptions of [read_traces] on an array with the three components
    and positive counts: [ValueError] from the reshaping when the array has
    fewer samples or traces than asked for; otherwise [Exception] for a
    rotation ID other than 0, 1, 2; otherwise [IndexError] when the geometry
    has fewer entries than there are traces. *)
Theorem read_traces_refuses (arr : ndarray3) (geom_ : list (Qc * Qc))
    (dt shift : Qc) (npts ntr_ : nat) (rot : Z) :
  (3 ≤ shape0 arr)%nat → (0 < npts)%nat → (0 < ntr_)%nat →
  let r := read_traces arr geom_ dt rot shift npts ntr_ in
  ((shape1 arr < npts)%nat ∨ (shape2 arr < ntr_)%nat → r = Err ValueError)
  ∧ ((npts ≤ shape1 arr)%nat → (ntr_ ≤ shape2 arr)%nat →
     (rot ≠ 0%Z ∧ rot ≠ 1%Z ∧ rot ≠ 2%Z → r = Err Exception)
     ∧ (rot = 0%Z ∨ rot = 1%Z ∨ rot = 2%Z → (length geom_ < ntr_)%nat →
        r = Err IndexError)).
Proof.
  intros H0 Hp Ht r. subst r. split.
  - intros Hbig. unfold read_traces.
    set (a := (npts `min` shape1 arr)%nat).
    set (b := (ntr_ `min` shape2 arr)%nat).
    assert (C : ∀ c, (c < 3)%nat →
              crop arr c npts ntr_ = Ok (mkArray2 a b (at3 arr c))).
    { intros c Hc. unfold crop. by rewrite decide_True by lia. }
    assert (R : ∀ c, reshape_F (mkArray2 a b (at3 arr c)) (npts * ntr_)
                     = Err ValueError);
      [|rewrite !C by lia; cbn [mbind result_bind]; by rewrite !R].
    intros c. unfold reshape_F. cbn [rows cols].
    destruct (decide (a * b = npts * ntr_)%nat) as [E|E]; [exfalso|done].
    destruct Hbig.
    + assert (a * b ≤ a * ntr_)%nat
        by (apply Nat.mul_le_mono_l; unfold b; lia).
      assert (a * ntr_ < npts * ntr_)%nat
        by (apply Nat.mul_lt_mono_pos_r; unfold a; lia).
      lia.
    + assert (a * b ≤ npts * b)%nat
        by (apply Nat.mul_le_mono_r; unfold a; lia).
      assert (npts * b < npts * ntr_)%nat
        by (apply Nat.mul_lt_mono_pos_l; unfold b; lia).
      lia.
  - intros H1 H2. split.
    + intros (R0 & R1 & R2). unfold read_traces.
      rewrite !(crop_fits arr npts ntr_) by lia. cbn [mbind result_bind].
      rewrite !reshape_ok. cbn [mbind result_bind].
      change (seq 0 ntr_ ≫= λ tr : nat, replicate npts tr)
        with (seq 0 ntr_ ≫= replicate npts).
      rewrite frame_is_rows. cbn [mbind result_bind].
      by rewrite component_names_invalid.
    + intros Hrot Hg.
      assert (∃ names, component_names rot = Ok names) as [names Hn].
      { unfold component_names.
        destruct Hrot as [->|[->| ->]]; by eexists. }
      by apply (read_traces_short arr geom_ dt shift npts ntr_ rot
                  H0 ltac:(lia) ltac:(lia) names).
Qed.

Lemma read_traces_refuses_witness :
  read_traces sample_traces sample_geometry (qz 1) 2 (qz 0) 5 2
  = Err ValueError
  ∧ read_traces sample_traces sample_geometry (qz 1) 3 (qz 0) 3 2
    = Err Exception
  ∧ read_traces sample_traces [] (qz 1) 2 (qz 0) 3 2 = Err IndexError.
Proof.
  split; [|split].
  - apply (read_traces_refuses sample_traces sample_geometry (qz 1) (qz 0)
             5 2 2); simpl; lia.
  - apply (read_traces_refuses sample_traces sample_geometry (qz 1) (qz 0)
             3 2 3); simpl; lia.
  - apply (read_traces_refuses sample_traces [] (qz 1) (qz 0) 3 2 2);
      simpl; lia.
Defined.

(** ** [calculate_rfs] for every rotation and wave type *)

Lemma mapM_result_inv {A B : Type} (f : A → result B) (l : list A)
    (ys : list B) :
  mapM f l = Ok ys → Forall2 (λ x y, f x = Ok y) l ys.
Proof.
  revert ys. induction l as [|x l IH]; intros ys H.
  - injection H as <-. constructor.
  - cbn [mapM] in H. destruct (f x) as [y|] eqn:Hy; [|done].
    cbn [mbind result_bind] in H.
    destruct (mapM f l) as [ys'|]; [|done].
    injection H as <-. constructor; [done|by apply IH].
Qed.

Lemma rf_components_cases (rot : Z) (cmpts : list ascii) :
  rf_components rot = Ok cmpts →
  (rot = 1%Z ∧ cmpts = str "RTZ") ∨ (rot = 2%Z ∧ cmpts = str "VHP").
Proof.
  unfold rf_components. repeat case_decide; intros [= <-]; auto.
Qed.

Section CalculateRfs.
Context {N : Numerics}.

Lemma calculate_rfs_Ok (streams rfs : list Stream) (rot : Z)
    (wvtype : string) :
  calculate_rfs streams rot wvtype = Ok rfs →
  ∃ c0 c1 c2,
    (rot = 1%Z ∧ [c0; c1; c2] = str "RTZ"
     ∨ rot = 2%Z ∧ [c0; c1; c2] = str "VHP")
    ∧ length rfs = length streams
    ∧ Forall (rf_pair c0 c1) rfs
    ∧ (streams ≠ [] → known_wvtype wvtype).
Proof.
  unfold calculate_rfs. intros H.
  destruct (rf_components rot) as [cmpts|] eqn:Hc; [|done].
  cbn [mbind result_bind] in H.
  apply mapM_result_inv in H.
  assert (∃ c0 c1 c2, cmpts = [c0; c1; c2]
            ∧ (rot = 1%Z ∧ [c0; c1; c2] = str "RTZ"
               ∨ rot = 2%Z ∧ [c0; c1; c2] = str "VHP"))
    as (c0 & c1 & c2 & -> & Hrot).
  { apply rf_components_cases in Hc as [[-> ->]|[-> ->]];
      eexists _, _, _; (split; [reflexivity|]); auto. }
  exists c0, c1, c2. split; [exact Hrot|].
  split; [symmetry; by eapply Forall2_length|].
  assert (Hbody : Forall2 (λ (stream rf : Stream),
            rf_pair c0 c1 rf ∧ known_wvtype wvtype) streams rfs).
  { induction H as [|stream rf streams rfs Hrf _ IH]; constructor;
      [|exact IH]. clear IH.
    destruct (getitem stream 0) as [tr0|]; [|done].
    cbn [mbind result_bind] in Hrf.
    change (getitem [c0; c1; c2] 0) with (Ok c0) in Hrf.
    change (getitem [c0; c1; c2] 1) with (Ok c1) in Hrf.
    change (getitem [c0; c1; c2] 2) with (Ok c2) in Hrf.
    cbn [mbind result_bind] in Hrf.
    destruct (getitem (select stream c0) 0) as [rtr|]; [|done].
    cbn [mbind result_bind] in Hrf.
    destruct (getitem (select stream c1) 0) as [ttr|]; [|done].
    cbn [mbind result_bind] in Hrf.
    destruct (getitem (select stream c2) 0) as [ztr|]; [|done].
    cbn [mbind result_bind] in Hrf. cbv zeta in Hrf.
    match type of Hrf with
    | (?r ≫= _) = _ => destruct r as [[d1 d2]|] eqn:Hw; [|done]
    end.
    cbn [mbind result_bind] in Hrf. injection Hrf as <-.
    split.
    - eexists _, _. split; [reflexivity|]. done.
    - unfold known_wvtype.
      destruct (String.eqb_spec wvtype "P"); [auto|].
      destruct (String.eqb_spec wvtype "SV"); [auto|].
      destruct (String.eqb_spec wvtype "SH"); [auto|]. done. }
  split.
  - clear H. induction Hbody as [|? ? ? ? [Hp _] _ IH]; by constructor.
  - intros Hne. destruct Hbody as [|? ? ? ? [_ Hw] _]; done.
Qed.

(** X20. When [calculate_rfs] returns: the rotation ID is 1 or 2; there is one
    stream of receiver functions per stream of traces; each holds two
    traces, named [RFR], [RFT] for rotation 1 and [RFV], [RFH] for rotation
    2, with their sample counts; and, unless there was no stream at all,
    the wave type is one of [P], [SV], [SH]. *)
Theorem calculate_rfs_returns (streams rfs : list Stream) (rot : Z)
    (wvtype : string) :
  calculate_rfs streams rot wvtype = Ok rfs →
  ∃ c0 c1 c2,
    (rot = 1%Z ∧ [c0; c1; c2] = str "RTZ"
     ∨ rot = 2%Z ∧ [c0; c1; c2] = str "VHP")
    ∧ length rfs = length streams
    ∧ Forall (rf_pair c0 c1) rfs
    ∧ (streams ≠ [] → known_wvtype wvtype).
Proof. apply calculate_rfs_Ok. Qed.

End CalculateRfs.

Section ShearWaves.
Context {N : Numerics}.

(** X21. The receiver functions of the shear wave types.  Of each stream,
    [calculate_rfs] takes the first trace with component code [c0] as the
    radial and the first with [c1] as the transverse one; for wave type
    [SV] the transverse receiver function it returns is all zeros, as long
    as the transverse trace, and for [SH] the radial one is; in both the
    two receiver functions carry the back-azimuth, slowness and sampling
    interval of the traces they come from. *)
Theorem calculate_rfs_shear (streams rfs : list Stream) (rot : Z)
    (wvtype : string) (c0 c1 c2 : ascii) :
  rf_components rot = Ok [c0; c1; c2] →
  calculate_rfs streams rot wvtype = Ok rfs →
  Forall2 (λ (stream rf : Stream),
    ∃ rtr ttr rfr rft,
      getitem (select stream c0) 0 = Ok rtr
      ∧ getitem (select stream c1) 0 = Ok ttr
      ∧ rf = [rfr; rft]
      ∧ (wvtype = "SV"%string → data rft = np_zeros (length (data ttr)))
      ∧ (wvtype = "SH"%string → data rfr = np_zeros (length (data rtr)))
      ∧ st_baz (stats rfr) = st_baz (stats rtr)
      ∧ st_slow (stats rfr) = st_slow (stats rtr)
      ∧ st_delta (stats rfr) = st_delta (stats rtr)
      ∧ st_baz (stats rft) = st_baz (stats ttr)
      ∧ st_slow (stats rft) = st_slow (stats ttr)
      ∧ st_delta (stats rft) = st_delta (stats ttr))
    streams rfs.
Proof.
  unfold calculate_rfs. intros -> H. cbn [mbind result_bind] in H.
  apply mapM_result_inv in H.
  induction H as [|stream rf streams rfs Hrf _ IH]; constructor; [|exact IH].
  clear IH.
  destruct (getitem stream 0) as [tr0|]; [|done].
  cbn [mbind result_bind] in Hrf.
  change (getitem [c0; c1; c2] 0) with (Ok c0) in Hrf.
  change (getitem [c0; c1; c2] 1) with (Ok c1) in Hrf.
  change (getitem [c0; c1; c2] 2) with (Ok c2) in Hrf.
  cbn [mbind result_bind] in Hrf.
  destruct (getitem (select stream c0) 0) as [rtr|]; [|done].
  cbn [mbind result_bind] in Hrf.
  destruct (getitem (select stream c1) 0) as [ttr|]; [|done].
  cbn [mbind result_bind] in Hrf.
  destruct (getitem (select stream c2) 0) as [ztr|]; [|done].
  cbn [mbind result_bind] in Hrf. cbv zeta in Hrf.
  match type of Hrf with
  | (?r ≫= _) = _ => destruct r as [[d1 d2]|] eqn:Hw; [|done]
  end.
  cbn [mbind result_bind] in Hrf. injection Hrf as <-.
  eexists rtr, ttr, _, _.
  split; [reflexivity|]. split; [reflexivity|]. split; [reflexivity|].
  cbn [retitled data stats st_baz st_slow st_delta fst snd].
  split; [|split; [|done]].
  - intros ->. cbn in Hw.
    destruct (spectral_division _ _) in Hw; [|done].
    by injection Hw as _ <-.
  - intros ->. cbn in Hw.
    destruct (spectral_division _ _) in Hw; [|done].
    by injection Hw as <- _.
Qed.

End ShearWaves.

Lemma calculate_rfs_returns_witness :
  ∃ rfs, calculate_rfs (N := sample_numerics) sample_streams 1 "SV" = Ok rfs
       ∧ length rfs = 2%nat
       ∧ Forall (rf_pair "R" "T") rfs.
Proof.
  destruct (calculate_rfs (N := sample_numerics) sample_streams 1 "SV")
    as [rfs|e] eqn:E; [|by vm_compute in E].
  exists rfs. split; [reflexivity|].
  destruct (calculate_rfs_returns (N := sample_numerics) _ _ _ _ E)
    as (c0 & c1 & c2 & Hrot & Hlen & Hpairs & _).
  destruct Hrot as [[_ Hc]|[Hc _]]; [|done].
  injection Hc as -> -> ->. split; [exact Hlen|exact Hpairs].
Defined.

Lemma calculate_rfs_shear_witness :
  ∃ rfs, calculate_rfs (N := sample_numerics) sample_streams 1 "SV" = Ok rfs
       ∧ Forall (λ rf : Stream, ∃ rfr rft, rf = [rfr; rft]
                   ∧ data rft = [0; 0; 0]) rfs.
Proof.
  destruct (calculate_rfs (N := sample_numerics) sample_streams 1 "SV")
    as [rfs|e] eqn:E; [|by vm_compute in E].
  exists rfs. split; [reflexivity|].
  pose proof (calculate_rfs_shear (N := sample_numerics) sample_streams rfs 1
                "SV" "R" "T" "Z" eq_refl E) as H.
  assert (Hs : Forall (λ stream : Stream, ∀ ttr,
                 getitem (select stream "T") 0 = Ok ttr →
                 length (data ttr) = 3%nat) sample_streams).
  { repeat constructor; intros ttr [= <-]; reflexivity. }
  clear E. revert Hs. induction H as [|stream rf ? ? Hrf _ IH]; intros Hs;
    constructor.
  - destruct Hrf as (rtr & ttr & rfr & rft & _ & Ht & -> & Hz & _).
    exists rfr, rft. split; [done|]. rewrite Hz by done.
    apply Forall_inv in Hs. by rewrite (Hs ttr Ht).
  - apply IH. eapply Forall_inv_tail. exact Hs.
Defined.

(** ** Receiver functions of the radial and transverse components *)

Section RadialTransverse.
Context {N : Numerics} {L : NumericsLaws N}.
Variables (arr : ndarray3) (geom_ : list (Qc * Qc)) (dt shift : Qc).
Variables (npts : nat).

Lemma calculate_rfs_rtz (ns : list nat) :
  ∃ rfs, calculate_rfs (map (unpacked_as (str "RTZ") arr geom_ dt shift npts)
                            ns) 1 "P" = Ok rfs
       ∧ Forall2 (rfs_over arr npts 0 1 2) ns rfs.
Proof.
  unfold calculate_rfs.
  change (rf_components 1) with (Ok (str "RTZ")). cbn [mbind result_bind].
  apply mapM_map_Forall2. intros n _.
  unfold unpacked_as. cbv zeta. cbn [zip_with str list_ascii_of_string].
  set (g := default _ _). set (tx := map _ (seq 0 npts)).
  remember (column arr 0 npts n) as t0 eqn:E0.
  remember (column arr 1 npts n) as t1 eqn:E1.
  remember (column arr 2 npts n) as t2 eqn:E2.
  assert (length t0 = length t2) as H0 by (subst; by rewrite !length_column).
  assert (length t1 = length t2) as H1 by (subst; by rewrite !length_column).
  clearbody g tx.
  change (getitem (?x :: ?l) 0) with (Ok x) at 1. cbn [mbind result_bind].
  change (getitem ["R"; "T"; "Z"]%char 0) with (Ok "R"%char).
  cbn [mbind result_bind].
  change (getitem ["R"; "T"; "Z"]%char 1) with (Ok "T"%char).
  cbn [mbind result_bind].
  change (getitem ["R"; "T"; "Z"]%char 2) with (Ok "Z"%char).
  cbn [mbind result_bind].
  rewrite !select_cons. cbn [stats st_channel].
  change (select [] ?c) with (@nil Trace).
  rewrite !component_of_channel.
  repeat (case_decide; [try discriminate|try congruence]).
  change (getitem (?x :: ?l) 0) with (Ok x). cbn [mbind result_bind].
  change (String.eqb "P" "P") with true. cbv iota. cbn [data].
  rewrite !spectral_division_fft by done. cbn [mbind result_bind].
  eexists. split; [reflexivity|].
  eexists _, _. split; [reflexivity|]. by subst.
Qed.

End RadialTransverse.

(** X22. [read_traces] with [rot = 1] followed by [calculate_rfs] with wave type
    [P].  On an array with the three components, [npts] samples and [ntr]
    traces and a geometry entry per trace, both return, and the receiver
    functions of trace [n] are the first component (radial) over the third
    (vertical) and the second (transverse) over the third. *)
Theorem radial_transverse_rfs {N : Numerics} {L : NumericsLaws N}
    (arr : ndarray3) (geom_ : list (Qc * Qc)) (dt shift : Qc)
    (npts ntr_ : nat) :
  (3 ≤ shape0 arr)%nat → (0 < npts ≤ shape1 arr)%nat →
  (0 < ntr_ ≤ shape2 arr)%nat → (ntr_ ≤ length geom_)%nat →
  ∃ streams rfs,
    read_traces arr geom_ dt 1 shift npts ntr_ = Ok streams
    ∧ calculate_rfs streams 1 "P" = Ok rfs
    ∧ Forall2 (rfs_over arr npts 0 1 2) (seq 0 ntr_) rfs.
Proof.
  intros H0 H1 H2 Hg.
  destruct (calculate_rfs_rtz arr geom_ dt shift npts (seq 0 ntr_))
    as (rfs & Hrfs & HF).
  eexists _, rfs. split; [|split; [exact Hrfs|exact HF]].
  by apply (read_traces_streams arr geom_ dt shift npts ntr_ 1 H0 H1 H2).
Qed.

Lemma radial_transverse_rfs_witness :
  ∃ streams rfs,
    read_traces sample_traces sample_geometry (qz 1) 1 (qz 0) 3 2 = Ok streams
    ∧ calculate_rfs (N := sample_numerics) streams 1 "P" = Ok rfs
    ∧ Forall2 (rfs_over (N := sample_numerics) sample_traces 3 0 1 2)
              (seq 0 2) rfs.
Proof.
  apply (radial_transverse_rfs (N := sample_numerics) sample_traces
           sample_geometry (qz 1) (qz 0) 3 2); simpl; lia.
Defined.

(** ** The cache and a design that fails *)

Section FailedDesign.
Context {N : Numerics}.

(** X23. A design that raises is not cached.  The exception of [signal.butter]
    comes out of the look-up, the dictionary is left as it was, and the next
    look-up for the same key calls the design again; when that call
    succeeds its result is returned and stored. *)
Theorem failed_design_not_cached (order : Z) (corners : list Qc) (c : cache)
    (e : exn) :
  cached_coefficients c !! (order, corners) = None →
  butter (length (design_calls c)) order corners = Err e →
  ∃ c', _get_cached_bandpass_coefs order corners c = (Err e, c')
      ∧ cached_coefficients c' = cached_coefficients c
      ∧ design_calls c' = design_calls c ++ [(order, corners)]
      ∧ ∀ ba, butter (length (design_calls c')) order corners = Ok ba →
          ∃ c'', _get_cached_bandpass_coefs order corners c' = (Ok ba, c'')
               ∧ cached_coefficients c'' !! (order, corners) = Some ba
               ∧ design_calls c''
                 = design_calls c ++ [(order, corners); (order, corners)].
Proof.
  intros Hmiss Hfail. unfold _get_cached_bandpass_coefs. cbv zeta.
  rewrite Hmiss, Hfail. eexists. split; [reflexivity|].
  cbn [cached_coefficients design_calls].
  split; [done|]. split; [done|].
  intros ba Hba. rewrite Hmiss, Hba. eexists. split; [reflexivity|].
  cbn [cached_coefficients design_calls]. split.
  - apply lookup_insert_eq.
  - by rewrite <- app_assoc.
Qed.

End FailedDesign.

Lemma failed_design_not_cached_witness :
  ∃ c' ba c'',
    _get_cached_bandpass_coefs (N := flaky_numerics) 2 [qz 1 / qz 20; qz 1 / qz 2]
      empty_cache = (Err ValueError, c')
    ∧ cached_coefficients c' = ∅
    ∧ _get_cached_bandpass_coefs (N := flaky_numerics) 2
        [qz 1 / qz 20; qz 1 / qz 2] c' = (Ok ba, c'')
    ∧ length (design_calls c'') = 2%nat.
Proof.
  destruct (failed_design_not_cached (N := flaky_numerics) 2
              [qz 1 / qz 20; qz 1 / qz 2] empty_cache ValueError)
    as (c' & Hrun & Hkept & Hcalls & Hnext).
  - reflexivity.
  - reflexivity.
  - destruct (Hnext ([qz 1 + qz 2], [qz 1 / qz 20; qz 1 / qz 2]))
      as (c'' & Hrun2 & _ & Hcalls2).
    + rewrite Hcalls. reflexivity.
    + eexists c', _, c''. split; [exact Hrun|]. split; [exact Hkept|].
      split; [exact Hrun2|]. by rewrite Hcalls2.
Defined.

(** ** [filtered_rf_array] at the edges *)

Lemma set_row3_frame (out out' : ndarray3) (n r : nat) (v : list Qc) :
  set_row3 out n r v = Ok out' →
  shape0 out' = shape0 out ∧ shape1 out' = shape1 out
  ∧ shape2 out' = shape2 out
  ∧ ∀ n' r', ¬ (n' = n ∧ r' = r) → row3 out' n' r' = row3 out n' r'.
Proof.
  unfold set_row3. destruct (decide _); [|done]. destruct (decide _); [|done].
  intros [= <-]. cbn [shape0 shape1 shape2]. repeat split.
  intros n' r' Hne. unfold row3. cbn [shape2 at3].
  apply map_ext. intros k. by rewrite decide_False.
Qed.

Section BatchEdges.
Context {N : Numerics}.
Variables (dt fmin fmax : Qc) (arr : ndarray3).

Lemma batch_row_frame (num den : list cplx) (n r : nat) (s : batch_state) :
  let s' := batch_row dt fmin fmax num den n r s in
  shape0 (b_out s') = shape0 (b_out s) ∧ shape1 (b_out s') = shape1 (b_out s)
  ∧ shape2 (b_out s') = shape2 (b_out s)
  ∧ ∀ n' r', ¬ (n' = n ∧ r' = r) →
      row3 (b_out s') n' r' = row3 (b_out s) n' r'.
Proof.
  unfold batch_row. destruct (spectral_division num den); [|done].
  destruct (_bandpass _ _ _ _ _) as [[v|] c1]; [|done].
  destruct (set_row3 _ _ _ _) as [out'|] eqn:E; [|done].
  cbn [b_out]. by apply set_row3_frame in E.
Qed.

Lemma batch_loop_frame (nrows : nat) (ns : list nat) (s : batch_state) :
  let s' := batch_loop dt fmin fmax arr nrows ns s in
  shape0 (b_out s') = shape0 (b_out s) ∧ shape1 (b_out s') = shape1 (b_out s)
  ∧ shape2 (b_out s') = shape2 (b_out s)
  ∧ ∀ n r, n ∉ ns ∨ (2 ≤ r)%nat →
      row3 (b_out s') n r = row3 (b_out s) n r.
Proof.
  revert s. induction ns as [|n ns IH]; intros s; [done|].
  cbn [batch_loop]. cbv zeta.
  match goal with
  | |- context [batch_row dt fmin fmax ?x ?z n 0 s] =>
      destruct (batch_row_frame x z n 0 s) as (A0 & A1 & A2 & A);
      set (s1 := batch_row dt fmin fmax x z n 0 s) in *
  end.
  assert (F1 : ∀ n' r', n' ∉ n :: ns ∨ (2 ≤ r')%nat →
            row3 (b_out s1) n' r' = row3 (b_out s) n' r').
  { intros n' r' Hn. apply A. intros [-> ->].
    destruct Hn as [Hn|Hn]; [apply Hn; left|lia]. }
  destruct (b_error s1); [by repeat split|].
  match goal with
  | |- context [batch_row dt fmin fmax ?y ?z n 1 s1] =>
      destruct (batch_row_frame y z n 1 s1) as (B0 & B1 & B2 & B);
      set (s2 := batch_row dt fmin fmax y z n 1 s1) in *
  end.
  assert (F2 : ∀ n' r', n' ∉ n :: ns ∨ (2 ≤ r')%nat →
            row3 (b_out s2) n' r' = row3 (b_out s) n' r').
  { intros n' r' Hn. rewrite B; [by apply F1|]. intros [-> ->].
    destruct Hn as [Hn|Hn]; [apply Hn; left|lia]. }
  destruct (b_error s2).
  { repeat split; try congruence. done. }
  destruct (IH s2) as (C0 & C1 & C2 & C).
  repeat split; try congruence.
  intros n' r' Hn. rewrite C; [by apply F2|].
  destruct Hn as [Hn|Hn]; [left|by right].
  intros Hin. apply Hn. by right.
Qed.

(** X24. What [filtered_rf_array] never touches, whatever its arguments and
    whether it returns or raises: the shape of the output array, every plane
    [arr_out[n]] with [n] at or beyond the trace count or the number of
    traces the solver array holds, and in every plane the rows from 2 on. *)
Theorem filtered_rf_array_frame (arr_out : ndarray3) (ntr_ npts : nat)
    (c : cache) :
  let s := filtered_rf_array arr arr_out ntr_ npts dt fmin fmax c in
  shape0 (b_out s) = shape0 arr_out ∧ shape1 (b_out s) = shape1 arr_out
  ∧ shape2 (b_out s) = shape2 arr_out
  ∧ ∀ n r, (ntr_ ≤ n)%nat ∨ (shape2 arr ≤ n)%nat ∨ (2 ≤ r)%nat →
      row3 (b_out s) n r = row3 arr_out n r.
Proof.
  unfold filtered_rf_array.
  destruct (crop arr 0 npts ntr_) as [a0|] eqn:C0; [|done].
  cbn [mbind result_bind].
  destruct (crop arr 1 npts ntr_) as [a1|]; [|done].
  cbn [mbind result_bind].
  destruct (crop arr 2 npts ntr_) as [a2|]; [|done].
  cbn [mbind result_bind].
  destruct (batch_loop_frame (rows a0) (seq 0 (cols a0))
              (mkBatch None arr_out c)) as (H0 & H1 & H2 & H).
  cbn [b_out] in *. repeat split; try done.
  intros n r Hn. apply H.
  destruct Hn as [Hn|[Hn|Hn]]; [left|left|by right];
    intros Hin%elem_of_seq;
    unfold crop in C0; destruct (decide _) in C0; try done;
    injection C0 as <-; cbn [cols] in Hin; lia.
Qed.

(** X25. [filtered_rf_array] crops without complaint: a trace count or sample
    count beyond what the solver array holds gives what the counts the
    array does hold give. *)
Theorem filtered_rf_array_crops (arr_out : ndarray3) (ntr_ npts : nat)
    (c : cache) :
  filtered_rf_array arr arr_out ntr_ npts dt fmin fmax c
  = filtered_rf_array arr arr_out (ntr_ `min` shape2 arr)
      (npts `min` shape1 arr) dt fmin fmax c.
Proof.
  unfold filtered_rf_array, crop.
  destruct (decide (0 < shape0 arr)%nat); [|done].
  destruct (decide (1 < shape0 arr)%nat); [|done].
  destruct (decide (2 < shape0 arr)%nat); [|done].
  cbn [mbind result_bind rows cols].
  by rewrite <- !Nat.min_assoc, !Nat.min_id.
Qed.

End BatchEdges.

Section BatchStops.
Context {N : Numerics} {L : NumericsLaws N}.
Variables (dt fmin fmax : Qc) (arr : ndarray3).

(** X26. Where [filtered_rf_array] stops before it has done anything.  A
    solver array with fewer than three components makes it raise [IndexError];
    without a trace to work on (a trace count of zero, or a solver array
    without traces) it returns at once.  In both cases the output array is
    as it was and the filter is not designed. *)
Theorem filtered_rf_array_stops_early (arr_out : ndarray3) (ntr_ npts : nat)
    (c : cache) :
  let s := filtered_rf_array arr arr_out ntr_ npts dt fmin fmax c in
  ((shape0 arr < 3)%nat → s = mkBatch (Some IndexError) arr_out c)
  ∧ ((3 ≤ shape0 arr)%nat → ntr_ = 0%nat ∨ shape2 arr = 0%nat →
     s = mkBatch None arr_out c).
Proof.
  unfold filtered_rf_array, crop. split.
  - intros H.
    destruct (decide (0 < shape0 arr)%nat); [|done].
    destruct (decide (1 < shape0 arr)%nat); [|done].
    destruct (decide (2 < shape0 arr)%nat); [lia|done].
  - intros H Hz. rewrite !decide_True by lia.
    cbn [mbind result_bind rows cols].
    by replace (ntr_ `min` shape2 arr)%nat with 0%nat by lia.
Qed.

(** X27. A filter design that raises stops [filtered_rf_array] at its
    first receiver function.  With a trace and a sample to work on, the
    three components in the solver array and no coefficients cached for the
    corners: the exception of the design comes out, nothing has been written
    to the output array, and the dictionary holds what it held before. *)
Theorem filtered_rf_array_failed_design (arr_out : ndarray3) (ntr_ npts : nat)
    (c : cache) (e : exn) :
  (3 ≤ shape0 arr)%nat → (0 < ntr_)%nat → (0 < shape2 arr)%nat →
  (0 < npts)%nat → (0 < shape1 arr)%nat →
  cached_coefficients c !! (2%Z, [qz 2 * dt * fmin; qz 2 * dt * fmax]) = None →
  butter (length (design_calls c)) 2 [qz 2 * dt * fmin; qz 2 * dt * fmax]
  = Err e →
  filtered_rf_array arr arr_out ntr_ npts dt fmin fmax c
  = mkBatch (Some e) arr_out
      (mkCache (cached_coefficients c)
         (design_calls c ++ [(2%Z, [qz 2 * dt * fmin; qz 2 * dt * fmax])])).
Proof.
  intros H0 Ht Hs _ _ Hmiss Hfail. unfold filtered_rf_array, crop.
  rewrite !decide_True by lia. cbn [mbind result_bind rows cols].
  destruct (ntr_ `min` shape2 arr)%nat as [|k] eqn:E; [lia|].
  cbn [seq batch_loop]. cbv zeta.
  set (nrows := (npts `min` shape1 arr)%nat).
  fold (column arr 0 nrows 0) (column arr 1 nrows 0) (column arr 2 nrows 0).
  assert (Hrow :
    batch_row dt fmin fmax (fft (column arr 1 nrows 0))
      (fft (column arr 0 nrows 0)) 0 0 (mkBatch None arr_out c)
    = mkBatch (Some e) arr_out
        (mkCache (cached_coefficients c)
           (design_calls c
            ++ [(2%Z, [qz 2 * dt * fmin; qz 2 * dt * fmax])]))).
  { unfold batch_row. cbn [b_out b_cache].
    rewrite spectral_division_fft by (by rewrite !length_column).
    unfold _bandpass, _get_cached_bandpass_coefs. cbv zeta.
    by rewrite Hmiss, Hfail. }
  rewrite Hrow. reflexivity.
Qed.

End BatchStops.

Lemma filtered_rf_array_failed_design_witness :
  let s := filtered_rf_array (N := flaky_numerics) sample_traces sample_out
             2 3 (qz 1 / qz 40) (qz 1 / qz 20) (qz 1 / qz 2) empty_cache in
  b_error s = Some ValueError ∧ b_out s = sample_out
  ∧ cached_coefficients (b_cache s) = ∅.
Proof.
  assert (Hl : NumericsLaws flaky_numerics).
  { split; intros; cbn [fft ifft lfilter flaky_numerics]; apply length_map. }
  cbv zeta.
  rewrite (filtered_rf_array_failed_design (N := flaky_numerics)
             (qz 1 / qz 40) (qz 1 / qz 20) (qz 1 / qz 2) sample_traces
             sample_out 2 3 empty_cache ValueError);
    [by repeat split|simpl; lia|lia|simpl; lia|lia|simpl; lia|reflexivity
    |reflexivity].
Defined.

(** ** [run_frs] *)

Lemma Forall2_length_seq {A : Type} (P : nat → A → Prop) (n : nat)
    (l : list A) :
  Forall2 P (seq 0 n) l → length l = n.
Proof. intros H. apply Forall2_length in H. by rewrite length_seq in H. Qed.

Section RunFrsFacts.
Context {N : Numerics}.
Variable call_seis_spread : solver_call → result ndarray3.

(** X28. What [run_frs] with [rf=True] needs in order to return: a rotation ID
    of 1 or 2 and a wave type among [P], [SV], [SH].  It then returns one
    stream of three traces and one stream of two receiver functions for
    each sample of the geometry. *)
Theorem run_frs_with_rfs (model : Model) (geometry : Geometry)
    (verbose : bool) (wvtype : string) (mults : Z) (npts : nat) (dt : Qc)
    (align : Z) (shift : option Qc) (rot : Z) (sl : StreamList) :
  run_frs call_seis_spread model geometry verbose wvtype mults npts dt align
          shift rot true = Ok sl →
  (rot = 1%Z ∨ rot = 2%Z) ∧ known_wvtype wvtype
  ∧ length (sl_streams sl) = ntr geometry
  ∧ Forall (λ st : Stream, length st = 3%nat) (sl_streams sl)
  ∧ ∃ rfs, sl_rfs sl = Some rfs ∧ length rfs = ntr geometry
         ∧ Forall (λ st : Stream, length st = 2%nat) rfs.
Proof.
  unfold run_frs. cbv zeta. cbn [andb].
  destruct (bool_decide (rot = 0%Z)); [done|].
  destruct (call_seis_spread _) as [tr_ph|]; [|done].
  cbn [mbind result_bind].
  destruct (read_traces _ _ _ _ _ _ _) as [streams|] eqn:Hs; [|done].
  cbn [mbind result_bind].
  destruct (calculate_rfs streams rot wvtype) as [rfs|] eqn:Hr; [|done].
  cbn [mbind result_bind]. intros [= <-]. cbn [sl_streams sl_rfs].
  apply read_traces_Ok in Hs as (_ & _ & Hn & _ & names & Hnames & ->).
  apply calculate_rfs_Ok in Hr as (c0 & c1 & c2 & Hrot & Hlen & Hp & Hw).
  rewrite length_map, length_seq in Hlen.
  split; [destruct Hrot as [[? _]|[? _]]; auto|].
  split.
  { apply Hw. destruct (ntr geometry); [lia|done]. }
  split; [by rewrite length_map, length_seq|].
  split.
  { apply Forall_forall. intros st Hst%list_elem_of_fmap_1.
    destruct Hst as (n & -> & _). unfold unpacked_as.
    apply component_names_cases in Hnames
      as [[_ ->]|[[_ ->]|[_ ->]]]; reflexivity. }
  exists rfs. split; [done|]. split; [done|].
  eapply Forall_impl; [exact Hp|].
  by intros st (rfr & rft & -> & _).
Qed.

(** X29. [run_frs] with [rf=True] for a [P] wave.  When the solver answers the
    call with an array that holds the three components, [npts] samples and
    one trace per geometry sample, and the rotation ID is 1 or 2, [run_frs]
    returns a stream list with the model and the geometry samples it was
    given, one stream per sample, and the receiver functions: for rotation
    1 the components 0 and 1 over component 2, for rotation 2 the components
    1 and 2 over component 0.  A shift that is not given is the sampling
    interval. *)
Theorem run_frs_receiver_functions {L : NumericsLaws N} (model : Model)
    (geometry : Geometry) (verbose : bool) (mults : Z) (npts : nat) (dt : Qc)
    (align : Z) (shift : option Qc) (rot : Z) (tr_ph : ndarray3) :
  rot = 1%Z ∨ rot = 2%Z →
  call_seis_spread
    (mkSolverCall (mirror model) (nlay model) (fbaz geometry) (fslow geometry)
       (fdx geometry) (fdy geometry) (ntr geometry) "P" mults npts dt align
       (default dt shift) rot (if verbose then 1%Z else 0%Z)) = Ok tr_ph →
  (3 ≤ shape0 tr_ph)%nat → (0 < npts ≤ shape1 tr_ph)%nat →
  (0 < ntr geometry ≤ shape2 tr_ph)%nat →
  (ntr geometry ≤ length (geom geometry))%nat →
  ∃ sl rfs,
    run_frs call_seis_spread model geometry verbose "P" mults npts dt align
            shift rot true = Ok sl
    ∧ sl_model sl = model ∧ sl_geom sl = geom geometry
    ∧ length (sl_streams sl) = ntr geometry
    ∧ sl_rfs sl = Some rfs
    ∧ Forall2 (p_wave_rfs rot tr_ph npts) (seq 0 (ntr geometry)) rfs.
Proof.
  intros Hrot Hcall H0 H1 H2 Hg. unfold run_frs. cbv zeta. cbn [andb].
  rewrite bool_decide_eq_false_2 by (destruct Hrot; lia).
  assert (Hshift : match shift with
                   | Some x => x
                   | None => dt
                   end = default dt shift) by (by destruct shift).
  rewrite !Hshift, Hcall. cbn [mbind result_bind].
  destruct Hrot as [-> | ->].
  - rewrite (read_traces_streams tr_ph (geom geometry) dt (default dt shift)
               npts (ntr geometry) 1 H0 H1 H2 (str "RTZ") eq_refl Hg).
    cbn [mbind result_bind].
    destruct (calculate_rfs_rtz tr_ph (geom geometry) dt (default dt shift)
                npts (seq 0 (ntr geometry))) as (rfs & -> & HF).
    cbn [mbind result_bind]. eexists _, rfs. split; [reflexivity|].
    cbn [sl_model sl_geom sl_streams sl_rfs].
    rewrite length_map, length_seq. repeat split; done.
  - rewrite (read_traces_unpacks tr_ph (geom geometry) dt (default dt shift)
               npts (ntr geometry)) by lia.
    cbn [mbind result_bind].
    destruct (calculate_rfs_unpacked tr_ph (geom geometry) dt
                (default dt shift) npts (seq 0 (ntr geometry)))
      as (rfs & -> & HF).
    cbn [mbind result_bind]. eexists _, rfs. split; [reflexivity|].
    cbn [sl_model sl_geom sl_streams sl_rfs].
    rewrite length_map, length_seq. repeat split; done.
Qed.

End RunFrsFacts.

Lemma run_frs_with_rfs_witness :
  ∃ sl rfs,
    run_frs (N := sample_numerics) sample_solver crust_and_mantle sample_rays
            false "SV" 2 3 (qz 1 / qz 40) 1 None 2 true = Ok sl
    ∧ length (sl_streams sl) = 2%nat
    ∧ sl_rfs sl = Some rfs ∧ length rfs = 2%nat.
Proof.
  destruct (run_frs (N := sample_numerics) sample_solver crust_and_mantle
              sample_rays false "SV" 2 3 (qz 1 / qz 40) 1 None 2 true)
    as [sl|e] eqn:E; [|by vm_compute in E].
  destruct (run_frs_with_rfs (N := sample_numerics) sample_solver _ _ _ _ _ _
              _ _ _ _ sl E) as (_ & _ & Hs & _ & rfs & Hr & Hl & _).
  exists sl, rfs. split; [reflexivity|]. split; [exact Hs|].
  split; [exact Hr|exact Hl].
Defined.

Lemma run_frs_receiver_functions_witness :
  ∃ sl rfs,
    run_frs (N := sample_numerics) sample_solver crust_and_mantle sample_rays
            false "P" 2 3 (qz 1 / qz 40) 1 None 1 true = Ok sl
    ∧ sl_rfs sl = Some rfs
    ∧ Forall2 (p_wave_rfs (N := sample_numerics) 1 sample_traces 3)
              (seq 0 2) rfs.
Proof.
  destruct (run_frs_receiver_functions (N := sample_numerics) sample_solver
              crust_and_mantle sample_rays false 2 3 (qz 1 / qz 40) 1 None 1
              sample_traces) as (sl & rfs & Hrun & _ & _ & _ & Hr & HF).
  - by left.
  - reflexivity.
  - simpl; lia.
  - simpl; lia.
  - vm_compute; lia.
  - vm_compute; lia.
  - exists sl, rfs. split; [exact Hrun|]. split; [exact Hr|exact HF].
Defined.

